(** * Sales Navigator scraper: job store, CSV store and job runner

    A shallow embedding of the JavaScript sources
    (utils/jobsManager.js, utils/saveProfilesCsv.js, utils/deduplicateCsv.js,
    signalHire/index.js, routes/scrapeRoutes.js) and the properties that
    the specification states about them.

    Conventions.
    - A JavaScript string is a [string]: a sequence of 8-bit characters, a
      file's bytes as they are stored.  The UTF-8 byte order mark is the
      three bytes 239 187 191.  [toLowerCase] and [trim] act on the ASCII
      range.
    - An object used as a record or as a dictionary is a [gmap string _];
      objects that are shared between modules live in a heap and are
      referred to by location.
    - A rejected promise or a thrown exception is an explicit result. *)

From Stdlib Require Import ZArith Ascii String List Bool Lia.
From Stdlib Require OrderedTypeEx.
From stdpp Require Import base option list gmap sets strings pretty sorting.

Open Scope string_scope.
Open Scope list_scope.

(* ===================================================================== *)
(** ** JavaScript values and string primitives *)
(* ===================================================================== *)

Module JS.

(** Primitive values held in the fields of the records of this program.
    Numbers are the integers (page counters, row counters) and NaN. *)
Inductive Val :=
| VUndef
| VNull
| VBool (b : bool)
| VNum (n : Z)
| VNaN
| VStr (s : string).

#[global] Instance Val_eq_dec : EqDecision Val.
Proof. solve_decision. Defined.

(** An object with primitive fields: own enumerable properties by name. *)
Abbreviation Obj := (gmap string Val).

(** ToBoolean. *)
Definition truthy (v : Val) : bool :=
  match v with
  | VUndef | VNull | VNaN => false
  | VBool b => b
  | VNum n => negb (n =? 0)%Z
  | VStr s => negb (String.eqb s "")
  end.

(** [String(v)]. *)
Definition to_string (v : Val) : string :=
  match v with
  | VUndef => "undefined"
  | VNull => "null"
  | VBool true => "true"
  | VBool false => "false"
  | VNum n => pretty n
  | VNaN => "NaN"
  | VStr s => s
  end.

(** [o[k]]: a missing property reads as [undefined]. *)
Definition get (o : Obj) (k : string) : Val := default VUndef (o !! k).

(** [a || b]. *)
Definition or_else (a b : Val) : Val := if truthy a then a else b.

(** [a ?? b]. *)
Definition nullish (a b : Val) : Val :=
  match a with VUndef | VNull => b | _ => a end.

(** [Object.assign(target, source)]: every property of the source
    overwrites the target's. *)
Definition assign (target source : Obj) : Obj := source ∪ target.

(** [v + n] for a number [n] (as in [job.totalRows += rows.length]). *)
Definition add_num (v : Val) (n : Z) : Val :=
  match v with
  | VNum m => VNum (m + n)
  | VNull => VNum n
  | VBool b => VNum ((if b then 1 else 0) + n)
  | VStr s => VStr (s +:+ pretty n)
  | VUndef | VNaN => VNaN
  end.

(** Characters. *)
Definition ch (n : nat) : ascii := ascii_of_nat n.
Definition dquote : ascii := ch 34.
Definition cr : ascii := ch 13.
Definition lf : ascii := ch 10.
Definition nul : ascii := ch 0.
Definition crlf : string := String cr (String lf EmptyString).
Definition BOM : string := String (ch 239) (String (ch 187) (String (ch 191) EmptyString)).

(** White space of [String.prototype.trim] in the ASCII range:
    TAB, LF, VT, FF, CR and space. *)
Definition is_space (c : ascii) : bool :=
  let n := nat_of_ascii c in
  ((9 <=? n)%nat && (n <=? 13)%nat) || (n =? 32)%nat.

Definition lower_char (c : ascii) : ascii :=
  let n := nat_of_ascii c in
  if ((65 <=? n)%nat && (n <=? 90)%nat) then ascii_of_nat (n + 32) else c.

Fixpoint toLowerCase (s : string) : string :=
  match s with
  | EmptyString => EmptyString
  | String c r => String (lower_char c) (toLowerCase r)
  end.

Fixpoint trimStart (s : string) : string :=
  match s with
  | EmptyString => EmptyString
  | String c r => if is_space c then trimStart r else s
  end.

(** [trimEnd] keeps a character when it is no space or when something
    that is kept follows it. *)
Fixpoint trimEnd (s : string) : string :=
  match s with
  | EmptyString => EmptyString
  | String c r =>
      match trimEnd r with
      | EmptyString => if is_space c then EmptyString else String c EmptyString
      | r' => String c r'
      end
  end.

Definition trim (s : string) : string := trimEnd (trimStart s).

(** [s.includes(sub)]. *)
Fixpoint includes (s sub : string) : bool :=
  String.prefix sub s ||
  match s with
  | EmptyString => false
  | String _ r => includes r sub
  end.

(** [parts.join(sep)]. *)
Fixpoint join (sep : string) (parts : list string) : string :=
  match parts with
  | [] => ""
  | [p] => p
  | p :: rest => p +:+ sep +:+ join sep rest
  end.

(** [s.replace(/\x22/g, two quotes)]: every double quote is doubled. *)
Fixpoint double_quotes (s : string) : string :=
  match s with
  | EmptyString => EmptyString
  | String c r =>
      if Ascii.eqb c dquote then String dquote (String dquote (double_quotes r))
      else String c (double_quotes r)
  end.

(** [s] between two double quotes. *)
Definition quoted (s : string) : string :=
  String dquote (s +:+ String dquote EmptyString).

End JS.

(* ===================================================================== *)
(** ** The CSV library calls (csv-parse/sync, csv-stringify/sync)

    The two npm packages are not part of the repository.  The theorems
    about the functions that call them take the calls as parameters; this
    module is the instance used to evaluate those functions on concrete
    files.  It follows the packages' algorithm for the options that the
    repository passes: comma delimiter, double quote as quote and escape,
    [columns: true], [skip_empty_lines: true], [relax_column_count: true],
    and [bom] and [trim] as given by the caller. *)
(* ===================================================================== *)

Module Csv.
Import JS.

(** A parsed record: the column names with their values, in the order
    in which [Object.keys] lists them. *)
Abbreviation Row := (list (string * string)).

Definition keys (r : Row) : list string := map fst r.

Fixpoint lookup (r : Row) (k : string) : option string :=
  match r with
  | [] => None
  | (k', v) :: rest => if String.eqb k' k then Some v else lookup rest k
  end.

(** [obj[k] = v]: an existing property keeps its place. *)
Fixpoint set (r : Row) (k v : string) : Row :=
  match r with
  | [] => [(k, v)]
  | (k', v') :: rest => if String.eqb k' k then (k', v) :: rest else (k', v') :: set rest k v
  end.

Record Options := mkOptions { bom : bool; trim : bool }.

(** The characters that [ltrim] and [rtrim] skip next to a delimiter:
    space, TAB, CR, LF and FF. *)
Definition trimable (c : ascii) : bool :=
  let n := nat_of_ascii c in
  (n =? 32)%nat || (n =? 9)%nat || (n =? 13)%nat || (n =? 10)%nat || (n =? 12)%nat.

Definition comma : ascii := ch 44.

Record St := mkSt {
  quoting : bool;
  wasQuoting : bool;
  field : string;
  record : list string;
  records : list (list string);
  (** the record delimiter, once the first line break outside quotes was seen *)
  delimiter : option string;
  (** characters of the input already consumed by the previous step *)
  skip : nat;
}.

Definition init : St := mkSt false false "" [] [] None 0.

(** The record delimiter found at the start of [s]: CR LF, LF or CR. *)
Definition discover (s : string) : option string :=
  if String.prefix crlf s then Some crlf
  else if String.prefix (String lf "") s then Some (String lf "")
  else if String.prefix (String cr "") s then Some (String cr "")
  else None.

Definition at_delimiter (d : option string) (s : string) : nat :=
  match d with
  | Some d => if String.prefix d s then String.length d else 0
  | None => 0
  end.

Definition onField (o : Options) (st : St) : St :=
  let f := if trim o && negb (wasQuoting st) then trimEnd (field st) else field st in
  mkSt (quoting st) false "" (record st ++ [f]) (records st) (delimiter st) (skip st).

Definition onRecord (st : St) : St :=
  mkSt (quoting st) (wasQuoting st) (field st) [] (records st ++ [record st])
       (delimiter st) (skip st).

Definition is_empty (s : string) : bool :=
  match s with EmptyString => true | _ => false end.

(** One character [c] of the input, [rest] being what follows it.
    [None] is a parse error. *)
Definition step (o : Options) (st : St) (c : ascii) (rest : string) : option St :=
  match skip st with
  | S n => Some (mkSt (quoting st) (wasQuoting st) (field st) (record st) (records st)
                      (delimiter st) n)
  | O =>
    let here := String c rest in
    let d :=
      match delimiter st with
      | None => if quoting st then None else discover here
      | Some d => Some d
      end in
    let append_this :=
      let lappend := negb (trim o) || quoting st || negb (is_empty (field st))
                     || negb (trimable c) in
      let rappend := negb (trim o) || negb (wasQuoting st) in
      if lappend && rappend then
        Some (mkSt (quoting st) (wasQuoting st) (field st +:+ String c "") (record st)
                   (records st) d 0)
      else if trim o && negb (trimable c) then None
      else Some (mkSt (quoting st) (wasQuoting st) (field st) (record st) (records st) d 0) in
    if quoting st && Ascii.eqb c dquote && String.prefix (String dquote "") rest
       && negb (is_empty rest) then
      (* an escaped quote inside a quoted field *)
      Some (mkSt true (wasQuoting st) (field st +:+ String dquote "") (record st)
                 (records st) d 1)
    else if Ascii.eqb c dquote then
      if quoting st then
        let next_trimable :=
          match rest with String n _ => trim o && trimable n | EmptyString => false end in
        let next_comma :=
          match rest with String n _ => Ascii.eqb n comma | EmptyString => false end in
        let d' := match d with None => discover rest | Some d => Some d end in
        let next_delimiter := negb (at_delimiter d' rest =? 0)%nat in
        if is_empty rest || next_comma || next_delimiter || next_trimable then
          Some (mkSt false true (field st) (record st) (records st) d' 0)
        else None
      else if negb (is_empty (field st)) then None
      else Some (mkSt true (wasQuoting st) (field st) (record st) (records st) d 0)
    else if quoting st then append_this
    else
      match at_delimiter d here with
      | S n =>
          if negb (wasQuoting st) && is_empty (field st)
             && match record st with [] => true | _ => false end then
            (* skip_empty_lines *)
            Some (mkSt false false "" [] (records st) d n)
          else
            let st' := onRecord (onField o st) in
            Some (mkSt false (wasQuoting st') (field st') (record st') (records st') d n)
      | O =>
          if Ascii.eqb c comma then
            let st' := onField o st in
            Some (mkSt false (wasQuoting st') (field st') (record st') (records st') d 0)
          else append_this
      end
  end.

Fixpoint run (o : Options) (st : St) (input : string) : option St :=
  match input with
  | EmptyString =>
      if quoting st then None
      else if wasQuoting st || negb (is_empty (field st))
              || match record st with [] => false | _ => true end
      then Some (onRecord (onField o st))
      else Some st
  | String c rest =>
      match step o st c rest with
      | Some st' => run o st' rest
      | None => None
      end
  end.

(** A record under the column names of the first line: a short record
    has no property for the columns it lacks, the fields past the last
    column are dropped. *)
Fixpoint to_object (columns fields : list string) (obj : Row) : Row :=
  match columns, fields with
  | c :: cs, f :: fs => to_object cs fs (set obj c f)
  | _, _ => obj
  end.

Definition strip_bom (o : Options) (raw : string) : string :=
  if bom o && String.prefix BOM raw then String.substring 3 (String.length raw - 3) raw
  else raw.

(** [parse(raw, { columns: true, skip_empty_lines: true,
    relax_column_count: true, bom, trim })]; [None] when it throws. *)
Definition parse (o : Options) (raw : string) : option (list Row) :=
  match run o init (strip_bom o raw) with
  | None => None
  | Some st =>
      match records st with
      | [] => Some []
      | columns :: data => Some (map (fun fields => to_object columns fields []) data)
      end
  end.

(** A field is quoted when it holds a comma, a double quote or the
    record delimiter LF; quotes inside it are doubled. *)
Definition field_text (v : string) : string :=
  let has_quote := includes v (String dquote "") in
  let v' := if has_quote then double_quotes v else v in
  if has_quote || includes v "," || includes v (String lf "") then quoted v' else v'.

Definition line_text (fields : list string) : string :=
  join "," (map field_text fields) +:+ String lf "".

(** [stringify(rows, { header: true, columns, bom: true })] *)
Definition stringify (rows : list Row) (columns : list string) : string :=
  BOM +:+ line_text columns
      +:+ String.concat "" (map (fun r => line_text (map (fun c => default "" (lookup r c)) columns)) rows).

End Csv.

(* ===================================================================== *)
(** ** The file system, as far as the CSV store uses it *)
(* ===================================================================== *)

Module Fs.

(** Regular files by path with their bytes, and the directories that
    [fs.mkdir] was asked for.  Paths name regular files. *)
Record FS := mkFS {
  files : gmap string string;
  dirs : gset string;
}.

Definition empty : FS := mkFS ∅ ∅.

(** [fs.existsSync(p)] and [fs.access(p)]. *)
Definition existsSync (fs : FS) (p : string) : bool :=
  bool_decide (is_Some (files fs !! p)).

(** [fs.readFile(p, 'utf8')]: [None] is the rejection with ENOENT. *)
Definition readFile (fs : FS) (p : string) : option string := files fs !! p.

Definition writeFile (fs : FS) (p data : string) : FS :=
  mkFS (<[p := data]> (files fs)) (dirs fs).

(** [fs.appendFile(p, data)] creates the file when it is missing. *)
Definition appendFile (fs : FS) (p data : string) : FS :=
  writeFile fs p (default "" (files fs !! p) +:+ data).

(** [fs.mkdir(d, { recursive: true })]. *)
Definition mkdir (fs : FS) (d : string) : FS :=
  mkFS (files fs) ({[ d ]} ∪ dirs fs).

End Fs.

(* ===================================================================== *)
(** ** utils/saveProfilesCsv.js *)
(* ===================================================================== *)

Module SaveProfilesCsv.
Import JS Fs.

Record Column := mkColumn { key : string; header : string }.

Definition BASE_COLUMNS : list Column :=
  [ mkColumn "name" "Name";
    mkColumn "first_name" "First Name";
    mkColumn "last_name" "Last Name";
    mkColumn "title" "Title";
    mkColumn "company" "Company";
    mkColumn "person_location" "Location";
    mkColumn "person_title" "LinkedIn URL" ].

Definition EXT_DOMAIN : list Column := BASE_COLUMNS ++ [ mkColumn "domain" "Website" ].
Definition EXT_DOMAIN_EMAIL : list Column := EXT_DOMAIN ++ [ mkColumn "Email" "Email" ].
Definition EXT_EMAIL : list Column := BASE_COLUMNS ++ [ mkColumn "Email" "Email" ].

(** [s.replace(/\u0000/g, '')] *)
Fixpoint strip_nul (s : string) : string :=
  match s with
  | EmptyString => EmptyString
  | String c r => if Ascii.eqb c nul then strip_nul r else String c (strip_nul r)
  end.

(** [s.replace(/\r?\n/g, ' ')] *)
Fixpoint newlines_to_spaces (s : string) : string :=
  match s with
  | EmptyString => EmptyString
  | String c r =>
      if Ascii.eqb c lf then String " " (newlines_to_spaces r)
      else if Ascii.eqb c cr then
        match r with
        | String c2 r2 =>
            if Ascii.eqb c2 lf then String " " (newlines_to_spaces r2)
            else String c (newlines_to_spaces r)
        | EmptyString => String c EmptyString
        end
      else String c (newlines_to_spaces r)
  end.

Definition esc (value : Val) : string :=
  match value with
  | VUndef | VNull => quoted ""
  | _ => quoted (double_quotes (trim (newlines_to_spaces (strip_nul (to_string value)))))
  end.

(** The first line that [readline] reports: the text before the first
    line break (LF, CR LF or a lone CR); a last line that no line break
    ends is reported as well, an empty file has no line. *)
Fixpoint until_line_break (s : string) : string :=
  match s with
  | EmptyString => EmptyString
  | String c r =>
      if Ascii.eqb c lf || Ascii.eqb c cr then EmptyString
      else String c (until_line_break r)
  end.

Definition readHeaderLine (fs : FS) (filePath : string) : option string :=
  match files fs !! filePath with
  | None => None
  | Some EmptyString => None
  | Some content => Some (until_line_break content)
  end.

Definition legacy (extra : list string) : list Column :=
  BASE_COLUMNS ++ map (fun k => mkColumn k k) extra.

Definition chooseColumnsForExistingHeader (headerLine : option string) : list Column :=
  let lc := toLowerCase (default "" headerLine) in
  let hasDomain := includes lc "domain" || includes lc "website" in
  let hasDomain1 := includes lc "domain1" in
  let hasDomain2 := includes lc "domain2" in
  let hasEmail := includes lc "email" in
  if hasDomain && hasEmail then EXT_DOMAIN_EMAIL
  else if hasDomain then EXT_DOMAIN
  else if hasDomain1 && hasDomain2 && hasEmail then legacy ["domain1"; "domain2"; "Email"]
  else if hasDomain1 && hasDomain2 then legacy ["domain1"; "domain2"]
  else if hasDomain1 && hasEmail then legacy ["domain1"; "Email"]
  else if hasDomain1 then legacy ["domain1"]
  else if hasEmail then EXT_EMAIL
  else BASE_COLUMNS.

(** A profile object. *)
Abbreviation Row := (gmap string Val).

(** The rows are changed in place: a column's key that a row does not
    own is added with the empty string. *)
Definition ensureKeys (columns : list Column) (r : Row) : Row :=
  foldl (fun r c => match r !! key c with Some _ => r | None => <[key c := VStr ""]> r end)
        r columns.

Definition ensureKeysForColumns (rows : list Row) (columns : list Column) : list Row :=
  map (ensureKeys columns) rows.

Record Opts := mkOpts {
  filePath : option string;
  append : option bool;
  includeBOM : option bool;
}.

Definition header_text (columns : list Column) : string :=
  join "," (map (fun c => esc (or_else (VStr (header c)) (VStr (key c)))) columns) +:+ crlf.

Definition body_text (columns : list Column) (rows : list Row) : string :=
  join crlf
    (map (fun r => join "," (map (fun c => esc (nullish (get r (key c)) (VStr ""))) columns)) rows)
  +:+ crlf.

(** What a call leaves behind: the file system, the rows as the call
    left them (they are changed in place), and the returned path. *)
Record Saved := mkSaved {
  saved_fs : FS;
  saved_rows : option (list Row);
  saved_path : string;
}.

Section Writer.

(** Node's [path] module and the working directory. *)
Variable path_resolve : string -> string.
Variable path_dirname : string -> string.
(** [path.resolve(process.cwd(), 'output.csv')] *)
Variable default_output : string.

Definition saveProfilesCsv (rows : option (list Row)) (opts : Opts) (fs : FS) : Saved :=
  let filePath := default default_output (filePath opts) in
  let includeBOM := default true (includeBOM opts) in
  match rows with
  | None | Some [] => mkSaved fs rows (path_resolve filePath)
  | Some rows =>
      let dir := path_dirname filePath in
      let fs := mkdir fs dir in
      let fileExists := existsSync fs filePath in
      let shouldAppend :=
        match append opts with
        | Some true => true
        | None => fileExists
        | Some false => false
        end in
      let columns :=
        if fileExists then chooseColumnsForExistingHeader (readHeaderLine fs filePath)
        else EXT_DOMAIN_EMAIL in
      let rows := ensureKeysForColumns rows columns in
      let header := header_text columns in
      let body := body_text columns rows in
      let prefix := if includeBOM then BOM else "" in
      let fs :=
        if shouldAppend then
          if negb fileExists then appendFile fs filePath (prefix +:+ header +:+ body)
          else appendFile fs filePath body
        else writeFile fs filePath (prefix +:+ header +:+ body) in
      mkSaved fs (Some rows) (path_resolve filePath)
  end.

End Writer.

(** *** What the writer is specified to produce *)





(** Sample inputs. *)
Definition sample_opts : Opts := mkOpts (Some "a.csv") None None.

End SaveProfilesCsv.

(* ===================================================================== *)
(** ** Keeping the first row of every key

    deduplicateCsv and runSignalHire run the same loop: a row without a
    key is kept, a row whose key was seen is dropped, any other row is
    kept and its key recorded. *)
(* ===================================================================== *)

Module FirstSeen.

Section Loop.
Context {A : Type}.
Variable key : A -> string.

Fixpoint keep_first (seen : gset string) (rows : list A) : list A :=
  match rows with
  | [] => []
  | row :: rest =>
      let k := key row in
      if String.eqb k "" then row :: keep_first seen rest
      else if bool_decide (k ∈ seen) then keep_first seen rest
      else row :: keep_first ({[ k ]} ∪ seen) rest
  end.

(** The rows of [rows] that carry the key [k], in order. *)
Definition with_key (k : string) (rows : list A) : list A :=
  filter (fun r => key r = k) rows.

End Loop.

End FirstSeen.

(* ===================================================================== *)
(** ** utils/deduplicateCsv.js *)
(* ===================================================================== *)

Module DeduplicateCsv.
Import JS Fs.

Abbreviation Row := (list (string * string)).

Definition default_aliases : list string := ["LinkedIn URL"; "LinkedIn"; "person_title"].

(** [header.find((h) => h.toLowerCase() === alias.toLowerCase())] *)
Definition find_column (header : list string) (alias : string) : option string :=
  List.find (fun h => String.eqb (toLowerCase h) (toLowerCase alias)) header.

(** The loop over the aliases; a column that is found is taken when it
    is truthy, that is when its name is not the empty string. *)
Fixpoint key_column (header aliases : list string) : option string :=
  match aliases with
  | [] => None
  | alias :: rest =>
      match find_column header alias with
      | Some found => if negb (String.eqb found "") then Some found else key_column header rest
      | None => key_column header rest
      end
  end.

(** [(row[keyCol] || '').toString().trim().toLowerCase()] *)
Definition row_key (keyCol : string) (row : Row) : string :=
  toLowerCase (trim (default "" (Csv.lookup row keyCol))).

Definition deduped (keyCol : string) (rows : list Row) : list Row :=
  FirstSeen.keep_first (row_key keyCol) ∅ rows.

Section Dedup.

(** Whether [require('csv-parse/sync')] and [require('csv-stringify/sync')]
    succeed. *)
Variable csv_modules : bool.
(** [parse(raw, { columns: true, bom: true, skip_empty_lines: true,
    trim: true, relax_column_count: true })]; [None] when it throws. *)
Variable parse : string -> option (list Row).
(** [stringify(rows, { header: true, columns, bom: true })] *)
Variable stringify : list Row -> list string -> string.

(** The rows and the columns that a run hands to [stringify], or [None]
    when the run returns (or catches an error) before it writes. *)
Definition written (fs : FS) (filePath : string) (keyAliases : list string)
  : option (list Row * list string) :=
  match readFile fs filePath with
  | None => None
  | Some raw =>
      if negb csv_modules then None
      else
        match parse raw with
        | None | Some [] => None
        | Some (first :: rest) =>
            let header := Csv.keys first in
            match key_column header keyAliases with
            | None => None
            | Some keyCol => Some (deduped keyCol (first :: rest), header)
            end
        end
  end.

Definition deduplicateCsv (fs : FS) (filePath : string) (keyAliases : option (list string)) : FS :=
  match written fs filePath (default default_aliases keyAliases) with
  | None => fs
  | Some (rows, header) => writeFile fs filePath (stringify rows header)
  end.

End Dedup.

(** *** What the deduplication is specified to do *)





(** Sample files, read and written with the CSV library instance. *)
Definition lib_parse : string -> option (list Row) := Csv.parse (Csv.mkOptions true true).
Definition lib_stringify : list Row -> list string -> string := Csv.stringify.

Definition line (s : string) : string := s +:+ String lf "".

(** Two rows with the same profile URL. *)
Definition duplicate_file : FS :=
  writeFile Fs.empty "leads.csv"
    (line "Name,LinkedIn URL" +:+ line "Al,https://x/in/al" +:+ line "Al B,HTTPS://x/in/al").


End DeduplicateCsv.
(* ===================================================================== *)
(** ** signalHire/index.js: filtering and saving the extracted rows *)
(* ===================================================================== *)

Module SignalHire.
Import JS Fs.

(** An extracted profile. *)
Abbreviation Profile := (gmap string Val).

(** [r.person_title ? String(r.person_title).trim().toLowerCase() : ''] *)
Definition row_url (r : Profile) : string :=
  let v := get r "person_title" in
  if truthy v then toLowerCase (trim (to_string v)) else "".

(** [rec['LinkedIn URL'] || rec['LinkedIn'] || rec['person_title']] on a
    parsed record, whose values are strings; a missing value and the
    empty string are both falsy. *)
Definition record_url (rec : Csv.Row) : string :=
  let field k := default "" (Csv.lookup rec k) in
  if negb (String.eqb (field "LinkedIn URL") "") then field "LinkedIn URL"
  else if negb (String.eqb (field "LinkedIn") "") then field "LinkedIn"
  else field "person_title".

(** The loop over the parsed records. *)
Fixpoint collect_urls (records : list Csv.Row) (urls : gset string) : gset string :=
  match records with
  | [] => urls
  | rec :: rest =>
      let urlField := record_url rec in
      if negb (String.eqb urlField "") then
        collect_urls rest ({[ toLowerCase (trim urlField) ]} ∪ urls)
      else collect_urls rest urls
  end.

(** The loop over the extracted rows. *)
Fixpoint unique_loop (existingUrls seenUrls : gset string) (rows : list Profile)
  : list Profile :=
  match rows with
  | [] => []
  | r :: rest =>
      let url := row_url r in
      if String.eqb url "" then r :: unique_loop existingUrls seenUrls rest
      else if bool_decide (url ∈ existingUrls) || bool_decide (url ∈ seenUrls) then
        unique_loop existingUrls seenUrls rest
      else r :: unique_loop existingUrls ({[ url ]} ∪ seenUrls) rest
  end.

(** The keys that every saved row gets: the legacy first_Name and
    last_Name are renamed, and missing keys are added as empty strings. *)
Definition rename (old new : string) (r : Profile) : Profile :=
  match r !! old with
  | Some v => delete old (<[new := v]> r)
  | None => r
  end.

Definition ensure (k : string) (r : Profile) : Profile :=
  match r !! k with
  | Some _ => r
  | None => <[k := VStr ""]> r
  end.

Definition with_saved_keys (r : Profile) : Profile :=
  ensure "Email" (ensure "domain" (ensure "last_name" (ensure "first_name"
    (rename "last_Name" "last_name" (rename "first_Name" "first_name" r))))).

Record Opts := mkOpts {
  filePath : option string;
  append : option bool;
}.

(** What a call leaves behind: the file system and the rows it returns,
    which are the rows it handed to the CSV writer. *)
Record Ran := mkRan {
  ran_fs : FS;
  ran_rows : list Profile;
}.

Section Run.

(** Whether [require('csv-parse/sync')] succeeds. *)
Variable csv_module : bool.
(** [parse(rawCsv, { columns: true, skip_empty_lines: true,
    relax_column_count: true })]; [None] when it throws. *)
Variable parse : string -> option (list Csv.Row).
(** utils/upgradeCsvAddEmailOnly.js, which is not among the sources. *)
Variable upgradeCsvAddEmailOnly : FS -> string -> FS.
Variable path_resolve : string -> string.
Variable path_dirname : string -> string.
(** [path.resolve(process.cwd(), 'output.csv')] *)
Variable DEFAULT_OUTPUT_CSV : string.

(** The URLs read from the output file; a file that is missing or that
    the parser refuses gives none. *)
Definition existingUrls (fs : FS) (outputPath : string) : gset string :=
  if existsSync fs outputPath then
    match readFile fs outputPath with
    | None => ∅
    | Some rawCsv =>
        if csv_module then
          match parse rawCsv with
          | None => ∅
          | Some records => collect_urls records ∅
          end
        else ∅
    end
  else ∅.

Definition uniqueRows (fs : FS) (outputPath : string) (rows : list Profile) : list Profile :=
  unique_loop (existingUrls fs outputPath) ∅ rows.

(** runSignalHire from the extracted [rows] on. *)
Definition save_extracted (rows : list Profile) (opts : Opts) (fs : FS) : Ran :=
  let outputPath := default DEFAULT_OUTPUT_CSV (filePath opts) in
  let uniqueRows := map with_saved_keys (uniqueRows fs outputPath rows) in
  let exists_ := existsSync fs outputPath in
  let effectiveAppend := default exists_ (append opts) in
  let fs := if exists_ then upgradeCsvAddEmailOnly fs outputPath else fs in
  let saved :=
    SaveProfilesCsv.saveProfilesCsv path_resolve path_dirname DEFAULT_OUTPUT_CSV
      (Some uniqueRows)
      (SaveProfilesCsv.mkOpts (Some outputPath) (Some effectiveAppend) None) fs in
  mkRan (SaveProfilesCsv.saved_fs saved)
        (default uniqueRows (SaveProfilesCsv.saved_rows saved)).

End Run.

(** Sample run: one profile, extracted twice. *)
Definition lib_parse : string -> option (list Csv.Row) := Csv.parse (Csv.mkOptions false false).

Definition al : Profile :=
  {[ "name" := VStr "Al"; "person_title" := VStr "https://x/in/al" ]}.

Definition sample_opts : Opts := mkOpts (Some "leads.csv") None.

Definition first_run : Ran :=
  save_extracted true lib_parse (fun fs _ => fs) id id "output.csv" [al] sample_opts Fs.empty.

Definition second_run : Ran :=
  save_extracted true lib_parse (fun fs _ => fs) id id "output.csv" [al] sample_opts
    (ran_fs first_run).

End SignalHire.

(* ===================================================================== *)
(** ** utils/jobsManager.js

    Job records and the dictionaries that hold them are JavaScript
    objects that several modules share: they live in a heap and are
    passed around by location. *)
(* ===================================================================== *)

Module JobsManager.
Import JS.

Definition loc := positive.

Record Heap := mkHeap {
  (** job records: objects with primitive fields *)
  objects : gmap loc (gmap string Val);
  (** objects used as dictionaries from job id to job record *)
  maps : gmap loc (gmap string loc);
  (** arrays of job records *)
  arrays : gmap loc (list loc);
}.

Definition allocated (h : Heap) : gset loc :=
  dom (objects h) ∪ dom (maps h) ∪ dom (arrays h).

Definition read_object (h : Heap) (l : loc) : Obj := default ∅ (objects h !! l).

Definition write_object (h : Heap) (l : loc) (o : Obj) : Heap :=
  mkHeap (<[l := o]> (objects h)) (maps h) (arrays h).

Definition read_map (h : Heap) (l : loc) : gmap string loc := default ∅ (maps h !! l).

Definition write_map (h : Heap) (l : loc) (m : gmap string loc) : Heap :=
  mkHeap (objects h) (<[l := m]> (maps h)) (arrays h).

Definition write_array (h : Heap) (l : loc) (a : list loc) : Heap :=
  mkHeap (objects h) (maps h) (<[l := a]> (arrays h)).

(** [{}] and [[...]]: a new object at a location that is not in use. *)
Definition new_object (h : Heap) : loc * Heap :=
  let l := fresh (allocated h) in (l, write_object h l ∅).

Definition new_array (h : Heap) (a : list loc) : loc * Heap :=
  let l := fresh (allocated h) in (l, write_array h l a).

(** [dict[k] = job] and [delete dict[k]] on a dictionary. *)
Definition map_set (h : Heap) (dict : loc) (k : string) (job : loc) : Heap :=
  write_map h dict (<[k := job]> (read_map h dict)).

Definition map_delete (h : Heap) (dict : loc) (k : string) : Heap :=
  write_map h dict (delete k (read_map h dict)).

(** [Object.values(dict)] *)
Definition map_values (h : Heap) (dict : loc) : list loc :=
  (map_to_list (read_map h dict)).*2.

(** The module's state: the heap, the variable [jobsCache] and the
    files of the all_jobs directory by name, each with the record that
    was serialized into it. *)
Record State := mkState {
  heap : Heap;
  jobsCache : loc;
  disk : gmap string (gmap string Val);
}.

Definition with_heap (s : State) (h : Heap) : State := mkState h (jobsCache s) (disk s).

Inductive Outcome :=
| Resolved
| Rejected (message : string).

(** [JSON.stringify]: a property whose value is undefined is left out,
    NaN is written as null. *)
Definition json (o : Obj) : Obj :=
  (fun v => match v with VNaN => VNull | _ => v end)
    <$> filter (fun kv => kv.2 <> VUndef) o.

Definition file_name (id : Val) : string := to_string id +:+ ".json".

Definition getJobs (s : State) : loc := jobsCache s.

(** [jobsCache[jobId] || null]; [None] is null. *)
Definition getJob (s : State) (jobId : string) : option loc :=
  read_map (heap s) (jobsCache s) !! jobId.

Definition saveJob (job : loc) (s : State) : State * Outcome :=
  let id := get (read_object (heap s) job) "id" in
  if negb (truthy id) then (s, Rejected "Invalid job object")
  else
    (mkState (map_set (heap s) (jobsCache s) (to_string id) job)
             (jobsCache s)
             (<[file_name id := json (read_object (heap s) job)]> (disk s)),
     Resolved).

Definition setJob (job : loc) (s : State) : State * Outcome := saveJob job s.

Definition updateJob (jobId : string) (updates : Obj) (s : State) : State * Outcome :=
  if String.eqb jobId "" then (s, Resolved)
  else
    let '(job, h) :=
      match getJob s jobId with
      | Some job => (job, heap s)
      | None => new_object (heap s)
      end in
    let h := write_object h job (assign (read_object h job) updates) in
    saveJob job (with_heap s h).

Definition deleteJobFile (jobId : string) (s : State) : State :=
  if String.eqb jobId "" then s
  else mkState (map_delete (heap s) (jobsCache s) jobId) (jobsCache s)
               (delete (jobId +:+ ".json") (disk s)).

(** The handler of GET /api/jobs: [Object.values(getJobs())], a new
    array. *)
Definition list_jobs (s : State) : loc * State :=
  let '(a, h) := new_array (heap s) (map_values (heap s) (getJobs s)) in
  (a, with_heap s h).

(** A state with an empty cache and nothing on disk. *)
Definition start : State :=
  mkState (mkHeap ∅ {[ 1%positive := ∅ ]} ∅) 1%positive ∅.

(** Sample: a record stored through the collection that [getJobs]
    returned. *)
Definition stored_through_getJobs : State :=
  let returned := getJobs start in
  let '(job, h) := new_object (heap start) in
  with_heap start (map_set h returned "job_1" job).

End JobsManager.

(* ===================================================================== *)
(** ** routes/scrapeRoutes.js

    The request handlers and the background task runScrape.  JavaScript
    runs one piece of code at a time and lets another one in at every
    await: a handler is a state change, except POST /api/scrape, which
    awaits setJob half way; runScrape is a sequence of state changes, one
    for every stretch between the awaits at which it touches the session
    or a job record.  What an awaited call of a collaborator (browser,
    sidebars, navigation) answers is part of the event that resumes the
    run. *)
(* ===================================================================== *)

Module ScrapeRoutes.
Import JS.
Export JobsManager.

Record Session := mkSession {
  isScraping : bool;
  isPaused : bool;
  pauseRequested : bool;
  currentJobId : option string;
}.

(** 'moved' | 'no-more' | 'failed' *)
Inductive NavStatus := Moved | NoMore | Failed.

#[global] Instance NavStatus_eq_dec : EqDecision NavStatus.
Proof. solve_decision. Defined.

(** Which handler started a run, with the constants its catch uses. *)
Inductive Origin :=
| FromScrape (jobId : string)
| FromRun (id : string) (job : loc)
| FromResume (jobId : string).

(** What is done once [context.close()] has answered. *)
Inductive AfterClose :=
| ClosePaused (in_page_try : bool)
| CloseFailed
| CloseCompleted
| CloseCaught
| CloseExpired.

(** Where a run waits. *)
Inductive Phase :=
| AwaitLaunch       (* launchStealthBrowser() *)
| AwaitLogins       (* ensureContactOutLogin, ensureSignalHireLogin, closing their tabs *)
| AwaitLinkedIn     (* addLinkedInCookies, checkLinkedInByUrl *)
| AwaitSignalHire   (* runSignalHire *)
| AwaitContactOut   (* upgradeCsvAddEmailOnly, runContactOut *)
| AwaitMerge        (* mergeContactDomainsByNamePriority, deduplicateCsv *)
| AwaitScroll       (* salesDashBoardScroller, page.waitForTimeout *)
| AwaitNextPage     (* clickNextPage *)
| AwaitProgressSaved (navStatus : NavStatus)   (* the updateJob after the navigation *)
| AwaitClose (next : AfterClose)               (* context.close() *)
| Finished.

(** What the awaited call answered. *)
Inductive Answer :=
| Launched (ok : bool)
| Logins (contactOut signalHire : bool)   (* loggedIn of either result; false when the call threw *)
| LinkedIn (loggedIn : option bool)       (* None: addLinkedInCookies or checkLinkedInByUrl threw *)
| SignalHire (rows : option nat)          (* the number of rows; None: runSignalHire threw *)
| ContactOut (profiles : option nat)      (* the number of profiles; None: runContactOut threw *)
| Merged
| Scrolled
| NextPage (navStatus : option NavStatus) (url : option string)
    (* None: clickNextPage threw; the url is what page.url() returns, None when it throws *)
| ProgressSaved
| Closed (ok : bool).

Record Run := mkRun {
  run_jobId : option string;   (* const jobId = scrapeSession.currentJobId *)
  run_job : loc;               (* const job = jobs[jobId] *)
  run_origin : Origin;
  run_context : option nat;    (* const context *)
  run_currentPage : Val;       (* let currentPage *)
  run_at : Phase;
}.

(** A POST /api/scrape handler that waits for setJob. *)
Record Creating := mkCreating {
  creating_jobId : string;
  creating_job : loc;
  creating_done : bool;
}.

Record World := mkWorld {
  store : State;                 (* utils/jobsManager.js *)
  jobs : loc;                    (* const jobs = getJobs() *)
  scrapeSession : Session;
  cookieFile : bool;             (* whether getCookieFilePath() finds the file *)
  contexts : list bool;          (* the browser contexts launched; true: still open *)
  runs : list Run;               (* the calls of runScrape, in the order they were made *)
  creating : list Creating;
}.

Definition with_store (w : World) (s : State) : World :=
  mkWorld s (jobs w) (scrapeSession w) (cookieFile w) (contexts w) (runs w) (creating w).

Definition with_session (w : World) (s : Session) : World :=
  mkWorld (store w) (jobs w) s (cookieFile w) (contexts w) (runs w) (creating w).

Definition with_contexts (w : World) (c : list bool) : World :=
  mkWorld (store w) (jobs w) (scrapeSession w) (cookieFile w) c (runs w) (creating w).

Definition with_runs (w : World) (r : list Run) : World :=
  mkWorld (store w) (jobs w) (scrapeSession w) (cookieFile w) (contexts w) r (creating w).

Definition with_creating (w : World) (c : list Creating) : World :=
  mkWorld (store w) (jobs w) (scrapeSession w) (cookieFile w) (contexts w) (runs w) c.

Definition with_cookieFile (w : World) (present : bool) : World :=
  mkWorld (store w) (jobs w) (scrapeSession w) present (contexts w) (runs w) (creating w).

(** [jobs[id]] through the alias of the routes; a key that is null reads
    the property named null. *)
Definition key_of (id : option string) : string := default "null" id.

Definition find_job (w : World) (id : string) : option loc :=
  read_map (heap (store w)) (jobs w) !! id.

(** [job.k] and [job.k = v] *)
Definition field (w : World) (job : loc) (k : string) : Val :=
  get (read_object (heap (store w)) job) k.

Definition set_field (job : loc) (k : string) (v : Val) (w : World) : World :=
  with_store w (with_heap (store w)
    (write_object (heap (store w)) job (<[k := v]> (read_object (heap (store w)) job)))).

(** [updateJob(jobId, updates).catch(() => {})] *)
Definition persist (jobId : option string) (updates : Obj) (w : World) : World :=
  match jobId with
  | None => w
  | Some id => with_store w (updateJob id updates (store w)).1
  end.

Definition set_isScraping (b : bool) (w : World) : World :=
  let s := scrapeSession w in
  with_session w (mkSession b (isPaused s) (pauseRequested s) (currentJobId s)).

Definition set_isPaused (b : bool) (w : World) : World :=
  let s := scrapeSession w in
  with_session w (mkSession (isScraping s) b (pauseRequested s) (currentJobId s)).

Definition set_pauseRequested (b : bool) (w : World) : World :=
  let s := scrapeSession w in
  with_session w (mkSession (isScraping s) (isPaused s) b (currentJobId s)).

Definition set_currentJobId (id : option string) (w : World) : World :=
  let s := scrapeSession w in
  with_session w (mkSession (isScraping s) (isPaused s) (pauseRequested s) id).

(** The progress fields that every write of runScrape carries. *)
Definition progress (w : World) (job : loc) : Obj :=
  {[ "pageIndex" := field w job "pageIndex";
     "currentUrl" := field w job "currentUrl";
     "totalRows" := field w job "totalRows";
     "totalContacts" := field w job "totalContacts" ]}.

Definition paused_fields (w : World) (job : loc) : Obj :=
  <["state" := VStr "paused"]> (progress w job).

(** [currentPage++] *)
Definition increment (v : Val) : Val :=
  match v with
  | VNum n => VNum (n + 1)
  | VNull => VNum 1
  | VBool b => VNum (if b then 2 else 1)
  | VUndef | VNaN | VStr _ => VNaN
  end.

(** *** runScrape *)

Definition set_run (i : nat) (r : Run) (w : World) : World :=
  with_runs w (<[i := r]> (runs w)).

Definition at_phase (r : Run) (p : Phase) : Run :=
  mkRun (run_jobId r) (run_job r) (run_origin r) (run_context r) (run_currentPage r) p.

Definition wait (i : nat) (r : Run) (p : Phase) (w : World) : World :=
  set_run i (at_phase r p) w.

(** [scrapeSession.currentJobId !== jobId || scrapeSession.pauseRequested] *)
Definition pause_wanted (w : World) (r : Run) : bool :=
  negb (bool_decide (currentJobId (scrapeSession w) = run_jobId r))
  || pauseRequested (scrapeSession w).

(** The body of every pause check, up to its [await context.close()]. *)
Definition pause_now (in_page_try : bool) (i : nat) (r : Run) (w : World) : World :=
  let w := set_field (run_job r) "pageIndex" (run_currentPage r) w in
  let w := set_field (run_job r) "state" (VStr "paused") w in
  let w := set_isScraping false w in
  let w := set_isPaused (pauseRequested (scrapeSession w)) w in
  let w := set_pauseRequested false w in
  wait i r (AwaitClose (ClosePaused in_page_try)) w.

(** After the loop: the job is marked completed. *)
Definition completed_now (i : nat) (r : Run) (w : World) : World :=
  let w := set_field (run_job r) "state" (VStr "completed") w in
  let w := set_isScraping false w in
  let w := set_isPaused false w in
  wait i r (AwaitClose CloseCompleted) w.

(** [catch (pageErr)]: continueScrape becomes false and the loop ends. *)
Definition page_error (i : nat) (r : Run) (w : World) : World :=
  completed_now i r w.

(** [catch (err)] of the outer try. *)
Definition caught_now (i : nat) (r : Run) (w : World) : World :=
  let w := set_isScraping false w in
  let w := set_isPaused false w in
  let w := set_field (run_job r) "state" (VStr "paused") w in
  wait i r (AwaitClose CloseCaught) w.

(** The top of the while loop, up to the call of runSignalHire. *)
Definition loop_top (i : nat) (r : Run) (w : World) : World :=
  if pause_wanted w r then pause_now false i r w
  else wait i r AwaitSignalHire w.

(** The check before the scroll, up to the scroll. *)
Definition before_scroll (i : nat) (r : Run) (w : World) : World :=
  if pause_wanted w r then pause_now true i r w
  else wait i r AwaitScroll w.

Definition close_context (c : option nat) (w : World) : World :=
  match c with
  | Some n => with_contexts w (<[n := false]> (contexts w))
  | None => w
  end.

(** The catch that the handler put on the promise of runScrape. *)
Definition rejected (o : Origin) (w : World) : World :=
  let w := set_isScraping false w in
  let w := set_isPaused false w in
  match o with
  | FromScrape jobId =>
      match find_job w jobId with
      | Some job => set_field job "state" (VStr "paused") w
      | None => w
      end
  | FromRun id job =>
      let w := set_field job "state" (VStr "paused") w in
      persist (Some id) {[ "state" := VStr "paused" ]} w
  | FromResume jobId =>
      match find_job w jobId with
      | Some job => set_field job "state" (VStr "paused") w
      | None => w
      end
  end.

(** The call [runScrape()], up to its first await. *)
Definition runScrape (o : Origin) (w : World) : World :=
  let jobId := currentJobId (scrapeSession w) in
  match find_job w (key_of jobId) with
  | None => set_isPaused false (set_isScraping false w)
  | Some job =>
      if negb (cookieFile w) then
        let w := set_isScraping false w in
        let w := set_isPaused false w in
        let w := set_field job "state" (VStr "paused") w in
        persist jobId (paused_fields w job) w
      else
        with_runs w (runs w ++ [mkRun jobId job o None VUndef AwaitLaunch])
  end.

(** The run [i] goes on with the answer to what it awaited. *)
Definition resume (i : nat) (a : Answer) (w : World) : World :=
  match runs w !! i with
  | None => w
  | Some r =>
      let job := run_job r in
      let jobId := run_jobId r in
      match run_at r, a with
      | AwaitLaunch, Launched true =>
          let c := length (contexts w) in
          let w := with_contexts w (contexts w ++ [true]) in
          set_run i (mkRun jobId job (run_origin r) (Some c) (run_currentPage r) AwaitLogins) w
      | AwaitLaunch, Launched false =>
          wait i r Finished (rejected (run_origin r) w)
      | AwaitLogins, Logins co sh =>
          if co && sh then wait i r AwaitLinkedIn w
          else
            let w := set_isScraping false w in
            let w := set_isPaused false w in
            let w := set_field job "state" (VStr "paused") w in
            let w := persist jobId (paused_fields w job) w in
            wait i r Finished w
      | AwaitLinkedIn, LinkedIn None => caught_now i r w
      | AwaitLinkedIn, LinkedIn (Some false) =>
          let w := set_isScraping false w in
          let w := set_isPaused false w in
          let w := set_field job "state" (VStr "paused") w in
          let w := set_field job "stateReason" (VStr "cookie_expired") w in
          let w := set_field job "message"
                     (VStr "LinkedIn cookie expired. Please update your cookie.") w in
          wait i r (AwaitClose CloseExpired) w
      | AwaitLinkedIn, LinkedIn (Some true) =>
          let w :=
            if bool_decide (field w job "pageIndex" = VNum 1) then
              set_field job "totalContacts" (VNum 0) (set_field job "totalRows" (VNum 0) w)
            else w in
          let w := set_isScraping true w in
          let w := set_isPaused false w in
          let r := mkRun jobId job (run_origin r) (run_context r)
                         (field w job "pageIndex") (run_at r) in
          loop_top i r w
      | AwaitSignalHire, SignalHire rows =>
          let w :=
            match rows with
            | Some n => set_field job "totalRows" (add_num (field w job "totalRows") (Z.of_nat n)) w
            | None => w
            end in
          if pause_wanted w r then pause_now true i r w
          else
            match rows with
            | Some (S _) => wait i r AwaitContactOut w
            | _ => before_scroll i r w
            end
      | AwaitContactOut, ContactOut (Some n) =>
          let w := set_field job "totalContacts"
                     (add_num (field w job "totalContacts") (Z.of_nat n)) w in
          wait i r AwaitMerge w
      | AwaitContactOut, ContactOut None => before_scroll i r w
      | AwaitMerge, Merged => before_scroll i r w
      | AwaitScroll, Scrolled =>
          if pause_wanted w r then pause_now true i r w
          else wait i r AwaitNextPage w
      | AwaitNextPage, NextPage None _ => page_error i r w
      | AwaitNextPage, NextPage (Some navStatus) url =>
          let currentPage :=
            if decide (navStatus = Moved) then increment (run_currentPage r)
            else run_currentPage r in
          let r := mkRun jobId job (run_origin r) (run_context r) currentPage (run_at r) in
          let w := set_field job "pageIndex" currentPage w in
          let w := match url with
                   | Some u => set_field job "currentUrl" (VStr u) w
                   | None => w
                   end in
          let w := persist jobId (<["state" := field w job "state"]> (progress w job)) w in
          wait i r (AwaitProgressSaved navStatus) w
      | AwaitProgressSaved Failed, ProgressSaved =>
          let w := set_field job "state" (VStr "paused") w in
          let w := set_isScraping false w in
          let w := set_isPaused true w in
          let w := set_pauseRequested false w in
          wait i r (AwaitClose CloseFailed) w
      | AwaitProgressSaved Moved, ProgressSaved => loop_top i r w
      | AwaitProgressSaved NoMore, ProgressSaved => completed_now i r w
      | AwaitClose (ClosePaused _), Closed true =>
          let w := close_context (run_context r) w in
          wait i r Finished (persist jobId (paused_fields w job) w)
      | AwaitClose (ClosePaused true), Closed false => page_error i r w
      | AwaitClose (ClosePaused false), Closed false => caught_now i r w
      | AwaitClose CloseFailed, Closed true =>
          let w := close_context (run_context r) w in
          wait i r Finished (persist jobId (paused_fields w job) w)
      | AwaitClose CloseFailed, Closed false => page_error i r w
      | AwaitClose CloseCompleted, Closed true =>
          let w := close_context (run_context r) w in
          wait i r Finished
            (persist jobId (<["state" := VStr "completed"]> (progress w job)) w)
      | AwaitClose CloseCompleted, Closed false => caught_now i r w
      | AwaitClose CloseCaught, Closed ok =>
          let w := if ok then close_context (run_context r) w else w in
          wait i r Finished (persist jobId (paused_fields w job) w)
      | AwaitClose CloseExpired, Closed ok =>
          let w := if ok then close_context (run_context r) w else w in
          let updates :=
            <["stateReason" := VStr "cookie_expired"]>
              (<["message" := VStr "LinkedIn cookie expired. Please update your cookie."]>
                 (paused_fields w job)) in
          wait i r Finished (persist jobId updates w)
      | _, _ => w
      end
  end.

(** *** The request handlers *)

(** [listName.replace(/\s+/g, '_')]: every run of white space becomes
    one underscore. *)
Fixpoint slug_from (in_space : bool) (s : string) : string :=
  match s with
  | EmptyString => EmptyString
  | String c r =>
      if is_space c then
        if in_space then slug_from true r else String "_" (slug_from true r)
      else String c (slug_from false r)
  end.

Definition slug (listName : string) : string := slug_from false listName.

(** [path.join(__dirname, '..', 'data', fileName)], from the
    application's directory. *)
Definition data_path (fileName : string) : string := "data/" +:+ fileName.

(** The current job, when it is running: the handlers pause it before
    they start another one. *)
Definition pause_current (w : World) : World :=
  match currentJobId (scrapeSession w) with
  | Some currentId =>
      if isScraping (scrapeSession w) && negb (String.eqb currentId "") then
        match find_job w currentId with
        | Some current =>
            let w := set_pauseRequested true w in
            let w := set_field current "state" (VStr "paused") w in
            let w := set_field current "pageIndex"
                       (or_else (field w current "pageIndex") (VNum 1)) w in
            persist (Some currentId)
              {[ "state" := VStr "paused"; "pageIndex" := field w current "pageIndex" ]} w
        | None => w
        end
      else w
  | None => w
  end.

(** A handler's effect and the status of its response. *)
Definition Reply : Type := World * nat.

(** POST /api/scrape, up to [await setJob(job)]. *)
Definition post_scrape (url listName : Val) (timestamp : string) (w : World) : Reply :=
  match url, listName with
  | VStr url, VStr listName =>
      if String.eqb url "" then (w, 400)
      else if String.eqb listName "" || String.eqb (trim listName) "" then (w, 400)
      else if negb (includes (toLowerCase url) "linkedin.com")
              || negb (includes (toLowerCase url) "people") then (w, 400)
      else if negb (cookieFile w) then (w, 400)
      else
        let w := pause_current w in
        let jobId := slug listName +:+ "_" +:+ timestamp in
        let fileName := jobId +:+ ".csv" in
        let '(job, h) := new_object (heap (store w)) in
        let h := write_object h job
          {[ "id" := VStr jobId;
             "url" := VStr url;
             "listName" := VStr listName;
             "timestamp" := VStr timestamp;
             "fileName" := VStr fileName;
             "filePath" := VStr (data_path fileName);
             "pageIndex" := VNum 1;
             "totalRows" := VNum 0;
             "totalContacts" := VNum 0;
             "state" := VStr "running";
             "currentUrl" := VStr url ]} in
        let h := map_set h (jobs w) jobId job in
        let w := with_store w (with_heap (store w) h) in
        (with_creating w (creating w ++ [mkCreating jobId job false]), 200)
  | _, _ => (w, 400)
  end.

(** POST /api/scrape, from the return of [await setJob(job)] on. *)
Definition post_scrape_continues (n : nat) (w : World) : World :=
  match creating w !! n with
  | Some (mkCreating jobId job false) =>
      let w := with_creating w (<[n := mkCreating jobId job true]> (creating w)) in
      let w := with_store w (setJob job (store w)).1 in
      let w := set_currentJobId (Some jobId) w in
      let w := set_isScraping true w in
      let w := set_isPaused false w in
      let w := set_pauseRequested false w in
      runScrape (FromScrape jobId) w
  | _ => w
  end.

(** POST /api/stop *)
Definition post_stop (w : World) : Reply :=
  match currentJobId (scrapeSession w) with
  | Some jobId =>
      if negb (isScraping (scrapeSession w)) || String.eqb jobId "" then (w, 400)
      else
        match find_job w jobId with
        | Some job =>
            let w := set_pauseRequested true w in
            let w := set_field job "state" (VStr "pausing") w in
            (persist (Some jobId) {[ "state" := VStr "pausing" ]} w, 200)
        | None => (w, 400)
        end
  | None => (w, 400)
  end.

(** POST /api/resume *)
Definition post_resume (w : World) : Reply :=
  match currentJobId (scrapeSession w) with
  | Some jobId =>
      if negb (isPaused (scrapeSession w)) || String.eqb jobId "" then (w, 400)
      else
        match find_job w jobId with
        | Some job =>
            let w := set_field job "state" (VStr "running") w in
            let w := persist (Some jobId) {[ "state" := VStr "running" ]} w in
            let w := set_isPaused false w in
            let w := set_isScraping true w in
            let w := set_pauseRequested false w in
            (runScrape (FromResume jobId) w, 200)
        | None => (w, 400)
        end
  | None => (w, 400)
  end.

(** POST /api/jobs/:id/run *)
Definition post_job_run (id : string) (w : World) : Reply :=
  match find_job w id with
  | None => (w, 404)
  | Some job =>
      if bool_decide (currentJobId (scrapeSession w) = Some id) && isScraping (scrapeSession w)
      then (w, 200)
      else
        let w := pause_current w in
        let w := set_currentJobId (Some id) w in
        let w := set_isScraping true w in
        let w := set_isPaused false w in
        let w := set_pauseRequested false w in
        let w := set_field job "state" (VStr "running") w in
        let w := persist (Some id) {[ "state" := VStr "running" ]} w in
        (runScrape (FromRun id job) w, 200)
  end.

(** POST /api/jobs/:id/stop *)
Definition post_job_stop (id : string) (w : World) : Reply :=
  match find_job w id with
  | None => (w, 404)
  | Some job =>
      if bool_decide (currentJobId (scrapeSession w) = Some id) && isScraping (scrapeSession w)
      then
        let w := set_pauseRequested true w in
        let w := set_field job "state" (VStr "pausing") w in
        (persist (Some id) {[ "state" := VStr "pausing" ]} w, 200)
      else
        let w := set_field job "state" (VStr "paused") w in
        (persist (Some id) {[ "state" := VStr "paused" ]} w, 200)
  end.

(** DELETE /api/jobs/:id *)
Definition delete_job (id : string) (w : World) : Reply :=
  match getJob (store w) id with
  | None => (w, 404)
  | Some _ =>
      if bool_decide (currentJobId (scrapeSession w) = Some id) && isScraping (scrapeSession w)
      then (w, 409)
      else (with_store w (deleteJobFile id (store w)), 200)
  end.

(** What happens, one piece of code at a time. *)
Inductive Event :=
| PostScrape (url listName : Val) (timestamp : string)
| PostScrapeContinues (n : nat)
| PostStop
| PostResume
| PostJobRun (id : string)
| PostJobStop (id : string)
| DeleteJob (id : string)
| SaveCookie     (* POST /api/save-cookie with a valid cookie *)
| DeleteCookie   (* DELETE /api/delete-cookie *)
| RunResumes (i : nat) (a : Answer).

Definition handle (w : World) (e : Event) : World :=
  match e with
  | PostScrape url listName timestamp => (post_scrape url listName timestamp w).1
  | PostScrapeContinues n => post_scrape_continues n w
  | PostStop => (post_stop w).1
  | PostResume => (post_resume w).1
  | PostJobRun id => (post_job_run id w).1
  | PostJobStop id => (post_job_stop id w).1
  | DeleteJob id => (delete_job id w).1
  | SaveCookie => with_cookieFile w true
  | DeleteCookie => with_cookieFile w false
  | RunResumes i a => resume i a w
  end.

Definition exec (w : World) (events : list Event) : World := foldl handle w events.

(** *** What is observed *)

(** The ids under which a dictionary holds a job whose state is
    running. *)
Definition running_in (w : World) (dict : loc) : list string :=
  (filter (fun kv => field w kv.2 "state" = VStr "running")
          (map_to_list (read_map (heap (store w)) dict))).*1.

(** The state, the reason and the message of the job of an id. *)
Definition job_field (w : World) (id k : string) : Val :=
  match find_job w id with
  | Some job => field w job k
  | None => VUndef
  end.

(** The phase of a run: [Finished] when runScrape has returned. *)
Definition phase_of (w : World) (i : nat) : option Phase := run_at <$> runs w !! i.

(** The server after start-up: no job, no session, the cookie file in
    place; the routes' alias and the cache are one object. *)
Definition boot : World :=
  mkWorld JobsManager.start (jobsCache JobsManager.start)
          (mkSession false false false None) true [] [] [].

(** The [n]-th request for a new job. *)
Definition new_job (n : nat) (listName timestamp : string) : list Event :=
  [ PostScrape (VStr "https://www.linkedin.com/sales/search/people?query=x")
               (VStr listName) timestamp;
    PostScrapeContinues n ].


Definition search_url : Val := VStr "https://www.linkedin.com/sales/search/people?query=x".

(** The run [i] gets through its preparation: the browser starts, both
    sidebars are logged in, the LinkedIn cookie is valid. *)
Definition prepared (i : nat) : list Event :=
  [ RunResumes i (Launched true);
    RunResumes i (Logins true true);
    RunResumes i (LinkedIn (Some true)) ].

(** One page of the run [i] with no rows, up to the navigation. *)
Definition empty_page (i : nat) : list Event :=
  [ RunResumes i (SignalHire (Some 0)); RunResumes i Scrolled ].

(** A job is started and, after one page, clickNextPage throws. *)
Definition navigation_throws : list Event :=
  new_job 0 "A" "t1" ++ prepared 0 ++ empty_page 0
  ++ [ RunResumes 0 (NextPage None None); RunResumes 0 (Closed true) ].

(** A job is started and, after one page, clickNextPage answers
    'failed'; the browser is gone, so the first [context.close()]
    rejects; the one after the loop resolves. *)
Definition navigation_fails_browser_gone : list Event :=
  new_job 0 "A" "t1" ++ prepared 0 ++ empty_page 0
  ++ [ RunResumes 0 (NextPage (Some Failed) None); RunResumes 0 ProgressSaved;
       RunResumes 0 (Closed false); RunResumes 0 (Closed true) ].

(** A job is started and, after one page, clickNextPage answers
    'no-more'. *)
Definition navigation_ends : list Event :=
  new_job 0 "A" "t1" ++ prepared 0 ++ empty_page 0
  ++ [ RunResumes 0 (NextPage (Some NoMore) None); RunResumes 0 ProgressSaved;
       RunResumes 0 (Closed true) ].

(** A job is started and the ContactOut login fails. *)
Definition login_fails : list Event :=
  new_job 0 "A" "t1" ++ [ RunResumes 0 (Launched true); RunResumes 0 (Logins false true) ].

(** A job is started and the browser does not start; the cookie is
    deleted and the job is run again. *)
Definition cookie_missing : list Event :=
  new_job 0 "A" "t1" ++ [ RunResumes 0 (Launched false); DeleteCookie; PostJobRun "A_t1" ].

(** A job is started and the LinkedIn cookie has expired. *)
Definition cookie_expired : list Event :=
  new_job 0 "A" "t1"
  ++ [ RunResumes 0 (Launched true); RunResumes 0 (Logins true true);
       RunResumes 0 (LinkedIn (Some false)); RunResumes 0 (Closed true) ].

(** Three jobs are started one after the other; the run of the first
    gets to its pause check after the second was started, and the third
    is requested before the run of the second gets to a pause check. *)
Definition three_jobs : list Event :=
  new_job 0 "A" "t1" ++ new_job 1 "B" "t2" ++ prepared 0
  ++ [ PostScrape search_url (VStr "C") "t3" ].

End ScrapeRoutes.


(* ===================================================================== *)
(** ** contactOut/domainFilter.js *)
(* ===================================================================== *)

Module DomainFilter.
Import JS.

(** The list that is used when the package free-email-domains cannot be
    loaded. *)
Definition fallback : list string :=
  [ "gmail.com"; "yahoo.com"; "hotmail.com"; "outlook.com"; "aol.com";
    "icloud.com"; "protonmail.com"; "gmx.com"; "mail.com"; "yandex.com" ].

(** [s.lastIndexOf(c)] for a character [c]: the position of its last
    occurrence, -1 when there is none. *)
Fixpoint lastIndexOf (s : string) (c : ascii) : Z :=
  match s with
  | EmptyString => -1
  | String a r =>
      let i := lastIndexOf r c in
      if (0 <=? i)%Z then (i + 1)%Z
      else if Ascii.eqb a c then 0%Z
      else (-1)%Z
  end.

(** [s.slice(n)] for a position [n] of [s]. *)
Fixpoint slice (n : nat) (s : string) : string :=
  match n, s with
  | O, _ => s
  | S n, String _ r => slice n r
  | S _, EmptyString => EmptyString
  end.

(** [None] is null. *)
Definition getDomain (email : string) : option string :=
  let at_ := lastIndexOf email "@" in
  if (at_ =? -1)%Z then None
  else Some (toLowerCase (slice (Z.to_nat (at_ + 1)) email)).

Section Filter.

(** What [freeEmailDomains] holds once the module is loaded: the list of
    the package, or [fallback]. *)
Variable freeEmailDomains : list string.

Definition PERSONAL : gset string := list_to_set (map toLowerCase freeEmailDomains).

(** The loop over the raw emails, from the domains collected so far. *)
Fixpoint collect (limit : Z) (domains : list string) (rawEmails : list string) : list string :=
  match rawEmails with
  | [] => domains
  | email :: rest =>
      match getDomain email with
      | None => collect limit domains rest
      | Some domain =>
          if String.eqb domain "" then collect limit domains rest
          else if bool_decide (domain ∈ PERSONAL) then collect limit domains rest
          else
            let domains :=
              if bool_decide (domain ∈ domains) then domains else domains ++ [domain] in
            if (Z.of_nat (length domains) =? limit)%Z then domains
            else collect limit domains rest
      end
  end.

(** [limit] is 3 when it is not given. *)
Definition filterBusinessDomains (rawEmails : list string) (limit : option Z) : list string :=
  collect (default 3%Z limit) [] rawEmails.

(** *** What the filter is expected to return *)

(** A domain that is kept: not empty and not a personal one. *)
Definition business (d : string) : bool :=
  negb (String.eqb d "") && negb (bool_decide (d ∈ PERSONAL)).

(** The business domains of the emails, one for every email that has
    one, in the order of the emails. *)
Definition business_domains (rawEmails : list string) : list string :=
  List.filter business (omap getDomain rawEmails).

End Filter.

(** The first occurrence of every element, in order. *)
Fixpoint distinct (l : list string) : list string :=
  match l with
  | [] => []
  | x :: r => x :: List.filter (fun y => negb (String.eqb y x)) (distinct r)
  end.

(** The given number of first elements, when the number is at least 1. *)
Definition capped (limit : Z) (l : list string) : list string :=
  if (1 <=? limit)%Z then take (Z.to_nat limit) l else l.

(** Whether a domain is not among the domains collected so far. *)
Definition fresh_in (domains : list string) (d : string) : bool :=
  negb (bool_decide (d ∈ domains)).


End DomainFilter.

(* ===================================================================== *)
(** ** Awaited calls that may throw *)
(* ===================================================================== *)

Module Thrown.

(** What is thrown: an error with its name and its message. *)
Record Err := mkErr { err_name : string; err_message : string }.

(** [new Error(message)] *)
Definition Error (message : string) : Err := mkErr "Error" message.

(** What an awaited call answers: a value, or what it throws. *)
Inductive Res (A : Type) :=
| Ok (a : A)
| Throw (e : Err).

Arguments Ok {A} a.
Arguments Throw {A} e.

Definition bind {A B : Type} (r : Res A) (f : A -> Res B) : Res B :=
  match r with
  | Ok a => f a
  | Throw e => Throw e
  end.

(** An awaited call without a value: [None] resolves. *)
Definition step (thrown : option Err) : Res unit :=
  match thrown with
  | None => Ok tt
  | Some e => Throw e
  end.

(** [err?.message || err] in a template: the message, or the name when
    the message is empty; [undefined] when nothing was thrown. *)
Definition describe (err : option Err) : string :=
  match err with
  | None => "undefined"
  | Some e => if String.eqb (err_message e) "" then err_name e else err_message e
  end.

(** What a call threw, if it threw. *)
Definition thrown_by {A : Type} (r : Res A) : option Err :=
  match r with
  | Ok _ => None
  | Throw e => Some e
  end.

End Thrown.

(* ===================================================================== *)
(** ** contactOut/collectProfiles.js and contactOut/index.js *)
(* ===================================================================== *)

Module ContactOut.
Import JS Thrown.

(** A profile of the sidebar; a property that is missing reads as
    [None]. *)
Record Profile := mkProfile {
  fullName : option string;
  firstName : string;
  lastName : string;
  domains : option (list string);
}.

(** The order of [sort()] without a comparator: by the code units of
    the strings, a prefix before its extensions. *)
Definition le (a b : string) : Prop := String.leb a b = true.

#[global] Instance le_dec : RelDecision le.
Proof. intros a b. unfold le. apply _. Defined.

(** [list.slice().sort()] *)
Definition sort (l : list string) : list string := merge_sort le l.

(** The key of dedupeByNameAndDomains: the lower-cased name, a bar, and
    the sorted domains joined by commas. *)
Definition profile_key (r : Profile) : string :=
  toLowerCase (default "" (fullName r)) +:+ "|" +:+ join "," (sort (default [] (domains r))).

(** The loop of dedupeByNameAndDomains, from the keys seen so far. *)
Fixpoint dedupe_from (seen : gset string) (rows : list Profile) : list Profile :=
  match rows with
  | [] => []
  | r :: rest =>
      let key := profile_key r in
      if bool_decide (key ∈ seen) then dedupe_from seen rest
      else r :: dedupe_from ({[ key ]} ∪ seen) rest
  end.

Definition dedupeByNameAndDomains (rows : list Profile) : list Profile := dedupe_from ∅ rows.

(** dedupeProfiles reads [r.fullName.toLowerCase()]: a row without a
    name makes it throw ([None]). *)
Fixpoint dedupeProfiles_from (seen : gset string) (rows : list Profile) : option (list Profile) :=
  match rows with
  | [] => Some []
  | r :: rest =>
      match fullName r with
      | None => None
      | Some name =>
          let key := toLowerCase name +:+ "|" +:+ join "," (sort (default [] (domains r))) in
          if bool_decide (key ∈ seen) then dedupeProfiles_from seen rest
          else cons r <$> dedupeProfiles_from ({[ key ]} ∪ seen) rest
      end
  end.

Definition dedupeProfiles (rows : list Profile) : option (list Profile) :=
  dedupeProfiles_from ∅ rows.




Section Extract.

(** utils/nameCleaner.js, which is not among the sources. *)
Variable cleanName : string -> string.
(** The personal domains of contactOut/domainFilter.js. *)
Variable freeEmailDomains : list string.


End Extract.

(** collectProfiles, from what the page shows: the number of cards
    before and after the scroll, and the profiles of the first and of
    the second extraction.  [None]: dedupeProfiles threw. *)
Definition collectProfiles (beforeCount afterCount : nat) (first second : list Profile)
  : option (list Profile) :=
  if (beforeCount <? afterCount)%nat then dedupeProfiles (first ++ second)
  else Some first.

(** collectFromAllContexts, from what collectProfiles gave for the page
    and for every frame; a context whose collection was rejected counts
    as the empty list. *)
Definition collectFromAllContexts (parts : list (option (list Profile))) : list Profile :=
  dedupeByNameAndDomains (concat (map (default []) parts)).

(** What the page answers during one attempt of runContactOut. *)
Record Attempt := mkAttempt {
  trackerVisible : bool;            (* isSalesNavTrackerVisible(page, 600) *)
  leadList : option Err;            (* waitForLeadList(page) *)
  toggle : Res bool;                (* clickContactOutToggle(page, 8000) *)
  loggedIn : Res bool;              (* checkContactOutLoggedIn(page) *)
  reload : option Err;              (* page.reload(...) after the relogin *)
  trackerVisibleAgain : bool;
  leadListAgain : option Err;
  toggleAgain : Res bool;
  loggedInAfter : Res bool;
  results : option Err;             (* waitForContactOutResults(page) *)
  parts : list (option (list Profile));   (* collectProfiles on the page and on its frames *)
}.

Definition when (b : bool) (r : Res unit) : Res unit := if b then r else Ok tt.

(** The body of the try block of one attempt. *)
Definition attempt_body (a : Attempt) : Res (list Profile) :=
  bind (when (negb (trackerVisible a)) (step (leadList a))) (fun _ =>
  bind (toggle a) (fun clicked =>
  if negb clicked then Throw (Error "ContactOut toggle not found/clickable") else
  bind (loggedIn a) (fun loggedIn =>
  bind
    (if negb loggedIn then
       bind (step (reload a)) (fun _ =>
       bind (when (negb (trackerVisibleAgain a)) (step (leadListAgain a))) (fun _ =>
       bind (toggleAgain a) (fun clicked2 =>
       if negb clicked2 then Throw (Error "ContactOut toggle not found/clickable after relogin") else
       bind (loggedInAfter a) (fun loggedInAfter =>
       if negb loggedInAfter then Throw (Error "ContactOut login failed after relogin")
       else Ok tt))))
     else Ok tt) (fun _ =>
  bind (step (results a)) (fun _ =>
  let profiles := collectFromAllContexts (parts a) in
  match profiles with
  | [] => Throw (Error "No profiles found")
  | _ => Ok profiles
  end))))).

(** The error that is thrown when every attempt failed. *)
Definition failed_after (retries : Z) (lastError : option Err) : Err :=
  Error ("ContactOut failed after " +:+ pretty retries +:+ " attempt(s): "
         +:+ describe lastError).

(** How a call of runContactOut ends, and how often it reloaded the
    page between the attempts (safeReload). *)
Record Ended := mkEnded {
  ended : Res (list Profile);
  reloads : nat;
}.

(** The loop over the attempts, from [attempt] on; [None] when the fuel
    does not reach the end of the loop. *)
Fixpoint attempts_from (fuel : nat) (attempt retries : Z) (script : Z -> Attempt)
    (lastError : option Err) (reloads : nat) : option Ended :=
  if (attempt <=? retries)%Z then
    match fuel with
    | O => None
    | S fuel =>
        match attempt_body (script attempt) with
        | Ok profiles => Some (mkEnded (Ok profiles) reloads)
        | Throw err =>
            let reloads := if (attempt <? retries)%Z then S reloads else reloads in
            attempts_from fuel (attempt + 1) retries script (Some err) reloads
        end
    end
  else
    Some (mkEnded (Throw (failed_after retries lastError)) reloads).

(** [retries] is 3 when it is not given; [script] tells what the page
    answers in each attempt. *)
Definition runContactOut (retries : option Z) (script : Z -> Attempt) : option Ended :=
  let retries := default 3%Z retries in
  attempts_from (Z.to_nat retries) 1 retries script None 0.


(** Sample profiles. *)
Definition ann : Profile := mkProfile (Some "Ann Lee") "Ann" "Lee" (Some ["b.com"; "a.com"]).
Definition ann_again : Profile := mkProfile (Some "ANN LEE") "ANN" "LEE" (Some ["a.com"; "b.com"]).
Definition bob : Profile := mkProfile (Some "Bob") "Bob" "" (Some []).

(** An attempt in which the list and the sidebar are there and the
    given profiles are collected from the page. *)
Definition smooth (profiles : list Profile) : Attempt :=
  mkAttempt true None (Ok true) (Ok true) None true None (Ok true) (Ok true) None [Some profiles].

(** An attempt in which the toggle is not found. *)
Definition no_toggle : Attempt :=
  mkAttempt true None (Ok false) (Ok true) None true None (Ok true) (Ok true) None [].

End ContactOut.

(* ===================================================================== *)
(** ** signalHire/index.js: opening the sidebar *)
(* ===================================================================== *)

Module SignalHireSidebar.
Import JS Thrown.

(** What the page answers during one attempt of
    ensureSidebarReadyWithRetries. *)
Record Attempt := mkAttempt {
  salesNavVisible : bool;        (* isSalesNavTrackerVisible(page, 500) *)
  leadList : option Err;         (* waitForLeadList(page) *)
  sidebarVisible : bool;         (* isSHSidebarTrackerVisible(page, 500) *)
  toggle : Res bool;             (* clickSignalHireToggle(page, 10000) *)
  loggedIn : Res bool;           (* checkSignalHireLoggedIn(page) *)
  reload : option Err;           (* page.reload(...) after the relogin *)
  salesNavAgain : bool;
  leadListAgain : option Err;
  toggleAgain : Res bool;
  loggedInAfter : Res bool;
  results : option Err;          (* waitForSignalHireResults(page) *)
}.

Definition when (b : bool) (r : Res unit) : Res unit := if b then r else Ok tt.

(** The body of the try block of one attempt; [Ok] is its return. *)
Definition attempt_body (a : Attempt) : Res unit :=
  bind (when (negb (salesNavVisible a)) (step (leadList a))) (fun _ =>
  if sidebarVisible a then Ok tt else
  bind (toggle a) (fun clicked =>
  if negb clicked then Throw (Error "SignalHire toggle not found/clickable") else
  bind (loggedIn a) (fun loggedIn =>
  bind
    (if negb loggedIn then
       bind (step (reload a)) (fun _ =>
       bind (when (negb (salesNavAgain a)) (step (leadListAgain a))) (fun _ =>
       bind (toggleAgain a) (fun clicked2 =>
       if negb clicked2 then Throw (Error "SignalHire toggle not found/clickable after relogin") else
       bind (loggedInAfter a) (fun loggedInAfter =>
       if negb loggedInAfter then Throw (Error "SignalHire login failed after relogin")
       else Ok tt))))
     else Ok tt) (fun _ =>
  step (results a))))).

(** How a call ends, and how often it reloaded the page between the
    attempts (safeReload). *)
Record Ended := mkEnded {
  ended : Res unit;
  reloads : nat;
}.

(** The loop over the attempts, from [attempt] on; [None] when the fuel
    does not reach the end of the loop. *)
Fixpoint attempts_from (fuel : nat) (attempt maxRetries : Z) (script : Z -> Attempt)
    (reloads : nat) : option Ended :=
  if (attempt <=? maxRetries)%Z then
    match fuel with
    | O => None
    | S fuel =>
        match attempt_body (script attempt) with
        | Ok _ => Some (mkEnded (Ok tt) reloads)
        | Throw err =>
            if (attempt =? maxRetries)%Z then Some (mkEnded (Throw err) reloads)
            else attempts_from fuel (attempt + 1) maxRetries script (S reloads)
        end
    end
  else Some (mkEnded (Ok tt) reloads).

(** [script] tells what the page answers in each attempt. *)
Definition ensureSidebarReadyWithRetries (maxRetries : Z) (script : Z -> Attempt) : option Ended :=
  attempts_from (Z.to_nat maxRetries) 1 maxRetries script 0.

(** An attempt that finds the sidebar open. *)
Definition sidebar_open : Attempt :=
  mkAttempt true None true (Ok true) (Ok true) None true None (Ok true) (Ok true) None.

(** An attempt in which the toggle is not found. *)
Definition no_toggle : Attempt :=
  mkAttempt true None false (Ok false) (Ok true) None true None (Ok true) (Ok true) None.

End SignalHireSidebar.

(* ===================================================================== *)
(** ** utils/jobsManager.js: loading the jobs at start-up *)
(* ===================================================================== *)

Module JobsStartup.
Import JS.
Export JobsManager.

(** [s.endsWith(suffix)] *)
Definition endsWith (s suffix : string) : bool :=
  let n := String.length s in
  let m := String.length suffix in
  (m <=? n)%nat && String.eqb (DomainFilter.slice (n - m) s) suffix.

(** [file.replace(/\.json$/i, '')] for a name that ends with .json: the
    name without its last five characters. *)
Definition without_json (file : string) : string :=
  String.substring 0 (String.length file - 5) file.

(** [{}] used as a dictionary: a new one, at a location that is not in
    use. *)
Definition new_map (h : Heap) : loc * Heap :=
  let l := fresh (allocated h) in (l, write_map h l ∅).

(** The loop of loadJobs over the names that [fs.readdir] answered.  A
    file that cannot be read is skipped; the files of the directory hold
    serialized job records, which [JSON.parse] gives back as new
    objects. *)
Fixpoint load_files (files : list string) (jobs : loc) (s : State) : State :=
  match files with
  | [] => s
  | file :: rest =>
      if negb (endsWith file ".json") then load_files rest jobs s
      else
        let jobId := without_json file in
        match disk s !! file with
        | None => load_files rest jobs s
        | Some record =>
            let '(job, h) := new_object (heap s) in
            let record := <["id" := or_else (get record "id") (VStr jobId)]> record in
            let h := write_object h job record in
            let h := map_set h jobs (to_string (get record "id")) job in
            load_files rest jobs (with_heap s h)
        end
  end.

(** [files] is what [fs.readdir(jobsDir)] answers (nothing when it is
    rejected).  The variable jobsCache is given the new dictionary. *)
Definition loadJobs (files : list string) (s : State) : State :=
  let '(jobs, h) := new_map (heap s) in
  let s := load_files files jobs (with_heap s h) in
  mkState (heap s) jobs (disk s).

(** *** What is expected of the directory *)

(** Every file is named after the id of the record it holds, as saveJob
    names it. *)
Definition well_named (s : State) : Prop :=
  forall file record,
    disk s !! file = Some record ->
    truthy (get record "id") = true ∧ file = file_name (get record "id").

(** The dictionary [jobs] holds, under every id, a record of its own
    that is the one of the file named after the id, for the files among
    [done] that exist; it holds nothing else. *)
Definition loaded (s : State) (jobs : loc) (done : list string) : Prop :=
  forall k : string,
    match read_map (heap s) jobs !! k with
    | Some l =>
        is_Some (objects (heap s) !! l)
        ∧ (k +:+ ".json") ∈ done
        ∧ disk s !! (k +:+ ".json") = Some (read_object (heap s) l)
    | None => (k +:+ ".json") ∉ done \/ disk s !! (k +:+ ".json") = None
    end.

(** A job record as POST /api/scrape creates it. *)
Definition job_record (id : string) : Obj :=
  {[ "id" := VStr id; "state" := VStr "paused"; "pageIndex" := VNum 2 ]}.


End JobsStartup.

(* ===================================================================== *)
(** ** server.js: the start-up

    server.js calls loadJobs() and then loads the routes.  loadJobs
    waits for the directory before it reads it, so the routes take their
    alias [jobs = getJobs()] first, and loadJobs replaces the cache
    afterwards. *)
(* ===================================================================== *)

Module ServerStartup.
Import JS.
Export ScrapeRoutes.
Export JobsStartup.

(** The rest of loadJobs, run on the server whose routes are loaded. *)
Definition jobs_loaded (files : list string) (w : World) : World :=
  with_store w (loadJobs files (store w)).

(** The server whose routes are loaded, over a directory of jobs. *)
Definition routes_loaded (directory : gmap string Obj) : World :=
  mkWorld (mkState (heap start) (jobsCache start) directory) (jobsCache start)
          (mkSession false false false None) true [] [] [].

End ServerStartup.

(* ===================================================================== *)
(** ** routes/scrapeRoutes.js: what GET /api/status reports *)
(* ===================================================================== *)

Module ScrapeStatus.
Import JS.
Export ScrapeRoutes.

(** [running] and [paused] of the response of GET /api/status. *)
Definition running (w : World) : bool := isScraping (scrapeSession w).
Definition paused (w : World) : bool := isPaused (scrapeSession w).

(** The session does not say running and paused at once. *)
Definition agree (w : World) : bool := negb (running w && paused w).

End ScrapeStatus.

(* ===================================================================== *)
(** ** routes/scrapeRoutes.js: a run of runScrape on the job of the session *)
(* ===================================================================== *)

Module ScrapeRun.
Import JS.
Export ScrapeRoutes.

(** The record that the file of a job id holds; empty when there is no
    such file. *)
Definition job_file (w : World) (id : string) : Obj :=
  default ∅ (disk (store w) !! (id +:+ ".json")).

(** The record [job] is the one that the routes and jobsManager hold
    under the id [id], which is its own. *)
Definition tracked (w : World) (id : string) (job : loc) : Prop :=
  id <> "" ∧ find_job w id = Some job ∧ getJob (store w) id = Some job
  ∧ field w job "id" = VStr id.

(** The updates of a call of updateJob carry what the record holds. *)
Definition own (w : World) (job : loc) (updates : Obj) : Prop :=
  forall k v, updates !! k = Some v -> field w job k = v.

(** What one page of the list gives: the number of rows of runSignalHire,
    the number of profiles of runContactOut, and what [page.url()]
    returns after the navigation. *)
Record Page := mkPage { page_rows : nat; page_profiles : nat; page_url : string }.

(** The answers that take the run [i] through one page on which nothing
    throws: runContactOut and the merge are only called when there are
    rows; clickNextPage answers [nav]. *)
Definition page_events (i : nat) (p : Page) (nav : NavStatus) : list Event :=
  RunResumes i (SignalHire (Some (page_rows p)))
  :: match page_rows p with
     | O => []
     | S _ => [ RunResumes i (ContactOut (Some (page_profiles p))); RunResumes i Merged ]
     end
  ++ [ RunResumes i Scrolled;
       RunResumes i (NextPage (Some nav) (Some (page_url p)));
       RunResumes i ProgressSaved ].

(** The profiles that a page adds to the total. *)
Definition contacts_of (p : Page) : nat :=
  match page_rows p with O => 0 | S _ => page_profiles p end.

Definition total (f : Page -> nat) (ps : list Page) : Z :=
  Z.of_nat (foldr (fun p n => f p + n)%nat 0%nat ps).

(** A run through the pages [ps], from each of which the navigation
    moves on, and the page [last], on which it answers 'no-more'; the
    [context.close()] after the loop resolves. *)
Definition whole_run (i : nat) (ps : list Page) (last : Page) : list Event :=
  concat (map (fun p => page_events i p Moved) ps)
  ++ page_events i last NoMore ++ [ RunResumes i (Closed true) ].

Section Tracking.

Variables (i : nat) (id : string) (job : loc) (origin : Origin) (context : option nat).

(** The run [i] is the run of the job of the session; it waits in the
    phase [ph] on the page [page], no pause is requested, and the job
    counts [rows] rows and [contacts] contacts. *)
Definition on_page (w : World) (ph : Phase) (page rows contacts : Z) : Prop :=
  tracked w id job
  ∧ runs w !! i = Some (mkRun (Some id) job origin context (VNum page) ph)
  ∧ currentJobId (scrapeSession w) = Some id
  ∧ pauseRequested (scrapeSession w) = false
  ∧ field w job "totalRows" = VNum rows
  ∧ field w job "totalContacts" = VNum contacts.

End Tracking.

(** The answers after which runScrape looks at once whether it is to
    pause. *)
Definition checked (ph : Phase) (a : Answer) : bool :=
  match ph, a with
  | AwaitSignalHire, SignalHire _
  | AwaitContactOut, ContactOut None
  | AwaitMerge, Merged
  | AwaitScroll, Scrolled
  | AwaitProgressSaved Moved, ProgressSaved => true
  | _, _ => false
  end.

(** The rows that an answer adds to the total. *)
Definition rows_in (a : Answer) : Z :=
  match a with
  | SignalHire (Some n) => Z.of_nat n
  | _ => 0%Z
  end.

(** Samples: a first job whose run has reached the first page, and the
    same job paused on that page after three rows. *)
Definition first_page : World := exec boot (new_job 0 "A" "t1" ++ prepared 0).

(** The same run after a first page without rows, up to the navigation. *)
Definition scrolled_first_page : World := exec first_page (empty_page 0).

Definition paused_on_first_page : World :=
  exec first_page [ PostStop; RunResumes 0 (SignalHire (Some 3)); RunResumes 0 (Closed true) ].

End ScrapeRun.

(* ===================================================================== *)
(** ** What the CSV writer and runSignalHire are expected to leave *)
(* ===================================================================== *)

Module CsvLines.
Import JS.



End CsvLines.

Module SignalHireRows.
Import JS SignalHire.


End SignalHireRows.

(* ===================================================================== *)
(** ** The ids of the job records *)
(* ===================================================================== *)

Module JobIds.
Import JS.
Export ServerStartup.

(** Every record that the dictionary holds is held under its own id. *)
Definition keyed (h : Heap) (dict : loc) : Prop :=
  forall k job,
    read_map h dict !! k = Some job ->
    truthy (get (read_object h job) "id") = true
    ∧ to_string (get (read_object h job) "id") = k.

(** The cache and the routes' alias hold every record under its own id,
    and every file is named after the id of the record it holds. *)
Definition consistent (w : World) : Prop :=
  keyed (heap (store w)) (jobsCache (store w))
  ∧ keyed (heap (store w)) (jobs w)
  ∧ well_named (store w).

(** Sample: a server that has loaded one job, on which a second job is
    then requested. *)
Definition restarted : World :=
  jobs_loaded ["A_t1.json"] (routes_loaded {[ "A_t1.json" := job_record "A_t1" ]}).

End JobIds.

(* ===================================================================== *)
(** ** routes/scrapeRoutes.js: the request for a new job *)
(* ===================================================================== *)

Module ScrapeRequest.
Import JS.
Export ScrapeRun.



End ScrapeRequest.

(* ===================================================================== *)
(** ** utils/fileHandler.js and routes/cookieRoutes.js *)
(* ===================================================================== *)

Module CookieRoutes.
Import JS Thrown.

(** The cookies directory: whether it exists, and the text of the file
    linkedin_cookies.json when there is one. *)
Record Store := mkStore {
  cookiesDir : bool;
  cookieFile : option string;
}.

(** [path.join(cookiesDir, cookieFileName)], from the application's
    directory. *)
Definition filePath : string := "cookies/linkedin_cookies.json".

Definition ensureDir (st : Store) : Store :=
  if negb (cookiesDir st) then mkStore true (cookieFile st) else st.

Section Json.

(** The values of [JSON.parse], with [Array.isArray] and
    [JSON.stringify(parsed, null, 2)]. *)
Variable Json : Type.
Variable JSON_parse : string -> Res Json.
Variable isArray : Json -> bool.
Variable JSON_stringify : Json -> string.

(** The store afterwards, and the returned path or the error thrown. *)
Definition saveCookieFile (cookieText : string) (st : Store) : Store * Res string :=
  let st := ensureDir st in
  let parsed :=
    bind (JSON_parse cookieText) (fun parsed =>
      if negb (isArray parsed) then Throw (Error "Cookie data should be a JSON array")
      else Ok parsed) in
  match parsed with
  | Throw err => (st, Throw (Error ("Invalid cookie JSON: " +:+ err_message err)))
  | Ok parsed => (mkStore (cookiesDir st) (Some (JSON_stringify parsed)), Ok filePath)
  end.

(** [None] is null. *)
Definition getCookieFilePath (st : Store) : option string :=
  match cookieFile st with
  | Some _ => Some filePath
  | None => None
  end.

Definition deleteCookieFile (st : Store) : Store :=
  match cookieFile st with
  | Some _ => mkStore (cookiesDir st) None
  | None => st
  end.

(** A response: its status and its message or error text. *)
Record Response := mkResponse {
  status : nat;
  text : string;
}.

(** POST /api/save-cookie with the [cookie] of the body. *)
Definition post_save_cookie (cookie : Val) (st : Store) : Store * Response :=
  match cookie with
  | VStr cookieText =>
      if String.eqb cookieText "" then
        (st, mkResponse 400 "Invalid cookie payload. Expecting a JSON string.")
      else
        match saveCookieFile cookieText st with
        | (st, Ok _) => (st, mkResponse 200 "Cookie saved successfully.")
        | (st, Throw err) =>
            (st, mkResponse 500
                   (if String.eqb (err_message err) "" then "Failed to save cookie."
                    else err_message err))
        end
  | _ => (st, mkResponse 400 "Invalid cookie payload. Expecting a JSON string.")
  end.

(** GET /api/cookie-status: [hasCookie] of the response. *)
Definition get_cookie_status (st : Store) : bool :=
  match getCookieFilePath st with
  | Some _ => true
  | None => false
  end.

(** DELETE /api/delete-cookie *)
Definition delete_cookie (st : Store) : Store * Response :=
  (deleteCookieFile st, mkResponse 200 "Cookie deleted successfully.").

Inductive Request :=
| SaveCookie (cookie : Val)
| DeleteCookie.

Definition serve (st : Store) (r : Request) : Store :=
  match r with
  | SaveCookie cookie => (post_save_cookie cookie st).1
  | DeleteCookie => (delete_cookie st).1
  end.

(** *** What is expected *)

(** The cookie that a body carries, when it is one that is saved: a
    text that is not empty and that parses to an array. *)
Definition cookie_of (cookie : Val) : option Json :=
  match cookie with
  | VStr cookieText =>
      if String.eqb cookieText "" then None
      else
        match JSON_parse cookieText with
        | Ok parsed => if isArray parsed then Some parsed else None
        | Throw _ => None
        end
  | _ => None
  end.

(** The file after a request, from the file before it. *)
Definition file_after (file : option string) (r : Request) : option string :=
  match r with
  | SaveCookie cookie =>
      match cookie_of cookie with
      | Some parsed => Some (JSON_stringify parsed)
      | None => file
      end
  | DeleteCookie => None
  end.

End Json.

End CookieRoutes.
(* ===================================================================== *)
(** ** The definitions on small inputs *)
(* ===================================================================== *)

Module Examples.
Import JS.

Example trim_spaces : trim "  Al B  " = "Al B".
Proof. reflexivity. Qed.

Example lower_url : toLowerCase (trim " HTTPS://x/in/Al ") = "https://x/in/al".
Proof. reflexivity. Qed.

Example includes_domain1 : includes "name,domain1,email" "domain" = true.
Proof. reflexivity. Qed.

Example esc_plain : SaveProfilesCsv.esc (VStr " Al ") = quoted "Al".
Proof. reflexivity. Qed.

Example esc_null : SaveProfilesCsv.esc VNull = quoted "".
Proof. reflexivity. Qed.

Example esc_number : SaveProfilesCsv.esc (VNum 42) = quoted "42".
Proof. reflexivity. Qed.

Example esc_line_break :
  SaveProfilesCsv.esc (VStr ("a" +:+ crlf +:+ "b" +:+ String lf "c")) = quoted "a b c".
Proof. reflexivity. Qed.

Example esc_quote :
  SaveProfilesCsv.esc (VStr ("6" +:+ String dquote " tall"))
  = quoted ("6" +:+ String dquote (String dquote " tall")).
Proof. reflexivity. Qed.

Example columns_for_new_header :
  SaveProfilesCsv.chooseColumnsForExistingHeader
    (Some "Name,First Name,Last Name,Title,Company,Location,LinkedIn URL,Website,Email")
  = SaveProfilesCsv.EXT_DOMAIN_EMAIL.
Proof. reflexivity. Qed.

Example columns_for_bare_header :
  SaveProfilesCsv.chooseColumnsForExistingHeader (Some "Name,Title")
  = SaveProfilesCsv.BASE_COLUMNS.
Proof. reflexivity. Qed.

Example parse_plain :
  Csv.parse (Csv.mkOptions true true)
    (BOM +:+ "Name,LinkedIn URL" +:+ String lf "Al, https://x/in/al " +:+ String lf "")
  = Some [[("Name", "Al"); ("LinkedIn URL", "https://x/in/al")]].
Proof. reflexivity. Qed.

Example parse_quoted :
  Csv.parse (Csv.mkOptions true true)
    (quoted "Name" +:+ "," +:+ quoted "Company" +:+ crlf
     +:+ quoted "Al" +:+ "," +:+ quoted "B, C" +:+ crlf)
  = Some [[("Name", "Al"); ("Company", "B, C")]].
Proof. reflexivity. Qed.

Example parse_short_record :
  Csv.parse (Csv.mkOptions true true)
    ("Name,Company,Website" +:+ String lf "Al,B" +:+ String lf ""
     +:+ String lf "Cy,D,d.com,more")
  = Some [[("Name", "Al"); ("Company", "B")];
          [("Name", "Cy"); ("Company", "D"); ("Website", "d.com")]].
Proof. reflexivity. Qed.

Example parse_quote_inside_field :
  Csv.parse (Csv.mkOptions true true) ("Name" +:+ String lf ("A" +:+ quoted "l")) = None.
Proof. reflexivity. Qed.

Example parse_mark_without_bom_option :
  Csv.parse (Csv.mkOptions false false) (BOM +:+ quoted "Name" +:+ crlf +:+ quoted "Al" +:+ crlf)
  = None.
Proof. reflexivity. Qed.

Example stringify_quotes_when_needed :
  Csv.stringify [[("Name", "Al"); ("Company", "B, C")]] ["Name"; "Company"]
  = BOM +:+ "Name,Company" +:+ String lf ("Al," +:+ quoted "B, C" +:+ String lf "").
Proof. reflexivity. Qed.

Example slug_of_list_name : ScrapeRoutes.slug "my  lead list" = "my_lead_list".
Proof. reflexivity. Qed.

Example key_column_first_alias :
  DeduplicateCsv.key_column ["Name"; "linkedin url"; "person_title"]
    DeduplicateCsv.default_aliases
  = Some "linkedin url".
Proof. reflexivity. Qed.

Example increment_page : ScrapeRoutes.increment (VNum 3) = VNum 4.
Proof. reflexivity. Qed.

End Examples.

(* ===================================================================== *)
(** ** Properties of utils/saveProfilesCsv.js *)
(* ===================================================================== *)

Module SaveProfilesCsvFacts.
Import JS Fs SaveProfilesCsv.








Lemma includes_nil (s : string) : includes s "" = true.
Proof. by destruct s. Qed.




(** C7.  A call with a missing or an empty rows array returns before
    anything is done to the file system: no file is created or changed
    and no directory is made; the rows are left as they were. *)
Theorem saveProfilesCsv_no_rows
  (path_resolve path_dirname : string -> string) (default_output : string)
  (opts : Opts) (fs : FS) :
  saved_fs (saveProfilesCsv path_resolve path_dirname default_output None opts fs) = fs
  ∧ saved_fs (saveProfilesCsv path_resolve path_dirname default_output (Some []) opts fs) = fs
  ∧ saved_rows (saveProfilesCsv path_resolve path_dirname default_output (Some []) opts fs) = Some [].
Proof. by repeat split. Qed.





End SaveProfilesCsvFacts.

(* ===================================================================== *)
(** ** Properties of the first-row loop *)
(* ===================================================================== *)

Module FirstSeenFacts.
Import FirstSeen.

Section Loop.
Context {A : Type}.
Variable key : A -> string.

Lemma with_key_cons (k : string) (r : A) (rows : list A) :
  with_key key k (r :: rows) = if decide (key r = k) then r :: with_key key k rows else with_key key k rows.
Proof. unfold with_key. by rewrite filter_cons. Qed.

Lemma eqb_empty (k : string) : String.eqb k "" = bool_decide (k = "").
Proof.
  destruct (String.eqb_spec k "").
  - by rewrite bool_decide_eq_true_2.
  - by rewrite bool_decide_eq_false_2.
Qed.

Lemma keep_first_sublist (seen : gset string) (rows : list A) :
  keep_first key seen rows `sublist_of` rows.
Proof.
  revert seen. induction rows as [|r rows IH]; intros seen; simpl; [constructor|].
  destruct (String.eqb (key r) ""); [by constructor|].
  case_bool_decide; by constructor.
Qed.

(** Which rows of a given key are kept. *)
Lemma keep_first_with_key (seen : gset string) (rows : list A) (k : string) :
  with_key key k (keep_first key seen rows) =
  if decide (k = "") then with_key key k rows
  else if decide (k ∈ seen) then []
  else take 1 (with_key key k rows).
Proof.
  revert seen. induction rows as [|r rows IH]; intros seen.
  { simpl. unfold with_key. rewrite filter_nil. by repeat case_decide. }
  cbn [keep_first]. rewrite eqb_empty. case_bool_decide as Hr.
  - (* no key *)
    rewrite !with_key_cons, IH. repeat case_decide; try done; congruence.
  - case_bool_decide as Hs.
    + (* seen before *)
      rewrite with_key_cons, IH. repeat case_decide; try done; congruence.
    + rewrite !with_key_cons, IH.
      destruct (decide (key r = k)) as [<-|Hk].
      * rewrite decide_False by done. rewrite decide_True by set_solver.
        by rewrite !decide_False by done.
      * destruct (decide (k = "")); [done|].
        destruct (decide (k ∈ seen)).
        -- by rewrite decide_True by set_solver.
        -- by rewrite decide_False by set_solver.
Qed.

(** Running the loop on its own result changes nothing. *)
Lemma keep_first_idempotent (seen : gset string) (rows : list A) :
  keep_first key seen (keep_first key seen rows) = keep_first key seen rows.
Proof.
  revert seen. induction rows as [|r rows IH]; intros seen; [done|].
  cbn [keep_first]. destruct (String.eqb (key r) "") eqn:He.
  - cbn [keep_first]. by rewrite He, IH.
  - case_bool_decide as Hs; [apply IH|].
    cbn [keep_first]. rewrite He, bool_decide_eq_false_2 by done. by rewrite IH.
Qed.


(** The keys of the kept rows that are not empty are pairwise distinct
    and were not seen before. *)
Lemma keep_first_keys (seen : gset string) (rows : list A) :
  let ks := filter (fun k => k <> "") (map key (keep_first key seen rows)) in
  NoDup ks ∧ forall k, k ∈ ks -> k ∉ seen.
Proof.
  revert seen. induction rows as [|r rows IH]; intros seen; cbn zeta.
  { simpl. rewrite filter_nil. split; [constructor|]. intros k Hk. by apply elem_of_nil in Hk. }
  cbn [keep_first]. rewrite eqb_empty. case_bool_decide as Hr.
  - cbn [map]. rewrite filter_cons_False by tauto. apply IH.
  - case_bool_decide as Hs; [apply IH|].
    cbn [map]. rewrite filter_cons_True by done.
    destruct (IH ({[ key r ]} ∪ seen)) as [Hnd Hnew]. split.
    + constructor; [|done]. intros Hin. apply Hnew in Hin. set_solver.
    + intros k [->|Hin]%elem_of_cons; [done|]. apply Hnew in Hin. set_solver.
Qed.

(** A row whose key was seen, or is the key of a row before it, is
    dropped and changes nothing for the rows after it. *)
Lemma keep_first_repeated (seen : gset string) (before after : list A) (b : A) :
  key b <> "" ->
  key b ∈ seen \/ key b ∈ map key before ->
  keep_first key seen (before ++ b :: after) = keep_first key seen (before ++ after).
Proof.
  intros Hb. revert seen. induction before as [|r before IH]; intros seen Hin.
  - destruct Hin as [Hin|Hin]; [|by apply elem_of_nil in Hin].
    cbn [app keep_first]. rewrite eqb_empty, bool_decide_eq_false_2 by done.
    by rewrite bool_decide_eq_true_2.
  - cbn [app keep_first]. rewrite eqb_empty.
    assert (Hcases : key b = key r \/ key b ∈ seen \/ key b ∈ map key before).
    { destruct Hin as [Hin|Hin]; [tauto|]. cbn [map] in Hin.
      apply elem_of_cons in Hin. tauto. }
    case_bool_decide as Hr.
    + f_equal. apply IH. destruct Hcases as [He|Hc]; [congruence|done].
    + case_bool_decide as Hs.
      * apply IH. destruct Hcases as [He|Hc]; [|done]. left. by rewrite He.
      * f_equal. apply IH. destruct Hcases as [He|[Hc|Hc]].
        -- left. rewrite He. apply elem_of_union. left. by apply elem_of_singleton.
        -- left. apply elem_of_union. by right.
        -- by right.
Qed.

End Loop.

End FirstSeenFacts.

(* ===================================================================== *)
(** ** Properties of utils/deduplicateCsv.js *)
(* ===================================================================== *)

Module DeduplicateCsvFacts.
Import JS Fs DeduplicateCsv.







Section Dedup.

Variable csv_modules : bool.
Variable parse : string -> option (list Row).
Variable stringify : list Row -> list string -> string.

Local Abbreviation written := (written csv_modules parse).
Local Abbreviation deduplicateCsv := (deduplicateCsv csv_modules parse stringify).




End Dedup.



(** What the run on the sample with the duplicate writes. *)
Example deduplicateCsv_duplicate_file :
  files (deduplicateCsv true lib_parse lib_stringify duplicate_file "leads.csv" None)
    !! "leads.csv"
  = Some (BOM +:+ line "Name,LinkedIn URL" +:+ line "Al,https://x/in/al").
Proof. reflexivity. Qed.


End DeduplicateCsvFacts.
(* ===================================================================== *)
(** ** Properties of the row filter of signalHire/index.js *)
(* ===================================================================== *)

Module SignalHireFacts.
Import JS Fs SignalHire.

(** The loop with its two sets is the first-row loop started with the
    URLs of the file as seen. *)
Lemma unique_loop_keep_first (existingUrls seenUrls : gset string) (rows : list Profile) :
  unique_loop existingUrls seenUrls rows
  = FirstSeen.keep_first row_url (existingUrls ∪ seenUrls) rows.
Proof.
  revert seenUrls. induction rows as [|r rows IH]; intros seenUrls; [done|].
  cbn [unique_loop FirstSeen.keep_first].
  destruct (String.eqb (row_url r) ""); [by rewrite IH|].
  destruct (decide (row_url r ∈ existingUrls)) as [He|He].
  - rewrite (bool_decide_eq_true_2 _ He). simpl.
    rewrite bool_decide_eq_true_2 by set_solver. apply IH.
  - rewrite (bool_decide_eq_false_2 _ He). simpl.
    destruct (decide (row_url r ∈ seenUrls)) as [Hs|Hs].
    + rewrite (bool_decide_eq_true_2 _ Hs).
      rewrite bool_decide_eq_true_2 by set_solver. apply IH.
    + rewrite (bool_decide_eq_false_2 _ Hs).
      rewrite bool_decide_eq_false_2 by set_solver.
      rewrite IH. do 2 f_equal. set_solver.
Qed.


Section Run.

Variable csv_module : bool.
Variable parse : string -> option (list Csv.Row).

(** With respect to the URLs that the function reads from the output
    file, the filter does what its comment says: it keeps every row
    without URL, and of the rows with a URL the first of each URL that is
    not among those of the file; the URLs of the kept rows are pairwise
    distinct and none is among those of the file. *)
Lemma uniqueRows_filter (fs : FS) (outputPath : string) (rows : list Profile) :
  let existing := existingUrls csv_module parse fs outputPath in
  let kept := uniqueRows csv_module parse fs outputPath rows in
  kept `sublist_of` rows
  ∧ (forall url,
       FirstSeen.with_key row_url url kept =
       if decide (url = "") then FirstSeen.with_key row_url url rows
       else if decide (url ∈ existing) then []
       else take 1 (FirstSeen.with_key row_url url rows))
  ∧ NoDup (filter (fun u => u <> "") (map row_url kept))
  ∧ (forall url, url ∈ filter (fun u => u <> "") (map row_url kept) -> url ∉ existing).
Proof.
  intros existing kept. subst kept. unfold uniqueRows. fold existing.
  rewrite unique_loop_keep_first, (right_id_L ∅ (∪)).
  split; [apply FirstSeenFacts.keep_first_sublist|].
  split; [intros url; apply FirstSeenFacts.keep_first_with_key|].
  apply FirstSeenFacts.keep_first_keys.
Qed.

End Run.

(** C10, at the failing input.  The first run creates the output file
    through the CSV writer: a byte order mark, then the quoted header.
    The second run parses that file without the bom option, the parser
    refuses the quote that follows the mark, the error is ignored and no
    URL counts as present: the row whose URL stands in the file is handed
    to the writer again and appended a second time. *)
Theorem runSignalHire_resaves_row :
  includes (default "" (files (ran_fs first_run) !! "leads.csv")) "https://x/in/al" = true
  ∧ lib_parse (default "" (files (ran_fs first_run) !! "leads.csv")) = None
  ∧ existingUrls true lib_parse (ran_fs first_run) "leads.csv" = ∅
  ∧ map row_url (ran_rows first_run) = ["https://x/in/al"]
  ∧ map row_url (ran_rows second_run) = ["https://x/in/al"].
Proof. by vm_compute. Qed.

End SignalHireFacts.
(* ===================================================================== *)
(** ** Properties of utils/jobsManager.js *)
(* ===================================================================== *)

Module JobsManagerFacts.
Import JS JobsManager.

Lemma read_object_write (h : Heap) (l : loc) (o : Obj) :
  read_object (write_object h l o) l = o.
Proof. unfold read_object, write_object. simpl. by rewrite lookup_insert_eq. Qed.

Lemma read_map_write_object (h : Heap) (l dict : loc) (o : Obj) :
  read_map (write_object h l o) dict = read_map h dict.
Proof. done. Qed.

Lemma read_object_map_set (h : Heap) (dict : loc) (k : string) (job l : loc) :
  read_object (map_set h dict k job) l = read_object h l.
Proof. done. Qed.

Lemma read_map_map_set (h : Heap) (dict : loc) (k : string) (job : loc) :
  read_map (map_set h dict k job) dict = <[k := job]> (read_map h dict).
Proof. unfold read_map, map_set, write_map. simpl. by rewrite lookup_insert_eq. Qed.

Lemma new_array_fresh (h : Heap) (a : list loc) : (new_array h a).1 ∉ allocated h.
Proof. unfold new_array. cbn [fst]. apply is_fresh. Qed.




(** C4, as amended.  getJobs returns the cache object itself: a record
    stored through the returned collection is what getJob finds next.
    The copy is made by the handler of GET /api/jobs: its list is a new
    array that holds the cached records, and whatever is then done to
    that array (elements added, removed or replaced) changes neither the
    results of getJob and getJobs, nor the records of the cache, nor any
    record. *)
Theorem getJobs_is_the_cache (s : State) :
  (forall k job, getJob (with_heap s (map_set (heap s) (getJobs s) k job)) k = Some job)
  ∧ ((list_jobs s).1 ∉ allocated (heap s))
  ∧ arrays (heap (list_jobs s).2) !! (list_jobs s).1 = Some (map_values (heap s) (getJobs s))
  ∧ (forall (elements : list loc) (id : string),
       let s' := with_heap (list_jobs s).2
                   (write_array (heap (list_jobs s).2) (list_jobs s).1 elements) in
       getJob s' id = getJob s id
       ∧ getJobs s' = getJobs s
       ∧ map_values (heap s') (getJobs s') = map_values (heap s) (getJobs s)
       ∧ objects (heap s') = objects (heap s)).
Proof.
  split; [|split; [|split]].
  - intros k job. unfold getJob, getJobs. cbn [heap with_heap jobsCache].
    by rewrite read_map_map_set, lookup_insert_eq.
  - unfold list_jobs, new_array. cbn [fst]. apply is_fresh.
  - unfold list_jobs, new_array, write_array. simpl. by rewrite lookup_insert_eq.
  - intros elements id. by repeat split.
Qed.

(** C4 as stated fails: a record stored through the collection that
    getJobs returned is found by the next getJob. *)
Lemma getJobs_snapshot_counterexample :
  getJob start "job_1" = None
  ∧ getJob stored_through_getJobs "job_1" = Some 2%positive.
Proof. by vm_compute. Qed.

End JobsManagerFacts.
(* ===================================================================== *)
(** ** The job runner at the inputs where the specification fails *)
(* ===================================================================== *)

Module ScrapeRoutesFacts.
Import JS ScrapeRoutes.

(** *** Where a run goes *)

Lemma runs_set_field (job : loc) (k : string) (v : Val) (w : World) :
  runs (set_field job k v w) = runs w.
Proof. done. Qed.

Lemma runs_persist (jobId : option string) (updates : Obj) (w : World) :
  runs (persist jobId updates w) = runs w.
Proof. by destruct jobId. Qed.

Lemma runs_close_context (c : option nat) (w : World) :
  runs (close_context c w) = runs w.
Proof. by destruct c. Qed.

Lemma runs_rejected (o : Origin) (w : World) : runs (rejected o w) = runs w.
Proof.
  unfold rejected. destruct o as [jobId|id job|jobId].
  - by destruct (find_job _ jobId).
  - by rewrite runs_persist.
  - by destruct (find_job _ jobId).
Qed.

Lemma phase_of_set_run (i : nat) (r : Run) (w : World) :
  i < length (runs w) -> phase_of (set_run i r w) i = Some (run_at r).
Proof.
  intros Hi. unfold phase_of, set_run. cbn.
  by rewrite list_lookup_insert_eq.
Qed.

(** The phase in which each stretch of runScrape leaves the run. *)
Ltac phase_after :=
  unfold wait, at_phase;
  repeat first
    [ rewrite phase_of_set_run
    | progress (unfold loop_top, before_scroll, pause_now, completed_now, page_error,
                caught_now, wait, at_phase)
    | progress (rewrite ?runs_set_field, ?runs_persist, ?runs_close_context, ?runs_rejected)
    | progress cbn [runs with_runs with_store with_session with_contexts set_isScraping
                    set_isPaused set_pauseRequested set_currentJobId run_at]
    | match goal with |- context [if ?b then _ else _] => destruct b end
    | match goal with |- context [match ?x with Some _ => _ | None => _ end] => destruct x end
    | match goal with |- context [match ?x with O => _ | S _ => _ end] => destruct x end ].

(** The code after the loop, which marks the job completed, is reached
    from the navigation's answer 'no-more', and from the catch of the
    page: when clickNextPage throws, and when the [context.close()] of a
    pause check inside the page's try or of the 'failed' branch
    rejects. *)
Lemma completion_paths (w : World) (i : nat) (a : Answer) (r : Run) :
  runs w !! i = Some r ->
  run_at r <> AwaitClose CloseCompleted ->
  phase_of (resume i a w) i = Some (AwaitClose CloseCompleted) ->
  (run_at r = AwaitProgressSaved NoMore ∧ a = ProgressSaved)
  ∨ (run_at r = AwaitNextPage ∧ exists url, a = NextPage None url)
  ∨ (run_at r = AwaitClose (ClosePaused true) ∧ a = Closed false)
  ∨ (run_at r = AwaitClose CloseFailed ∧ a = Closed false).
Proof.
  intros Hr Hat. pose proof (lookup_lt_Some _ _ _ Hr) as Hi.
  assert (Hsame : phase_of w i = Some (run_at r)) by (unfold phase_of; by rewrite Hr).
  unfold resume. rewrite Hr.
  destruct (run_at r) as [| | | | | | | |nav|next|] eqn:Hp;
    destruct a as [ok|co sh|li|rows|pr| | |nav' url| |ok];
    try (rewrite Hsame; congruence).
  all: try (destruct ok); try (destruct li as [[|]|]); try (destruct pr);
       try (destruct nav'); try (destruct nav); try (destruct next as [[|]| | | |]);
       try (rewrite Hsame; congruence).
  all: phase_after; try done; try lia.
  all: intros _; eauto 10.
Qed.

(** *** What a write does to a record *)

Lemma field_set_field (job l : loc) (k k' : string) (v : Val) (w : World) :
  field (set_field job k v w) l k' =
  if decide (l = job ∧ k' = k) then v else field w l k'.
Proof.
  unfold field, set_field, get, read_object, write_object. cbn.
  destruct (decide (l = job)) as [->|Hl].
  - rewrite lookup_insert_eq. cbn. destruct (decide (k' = k)) as [->|Hk].
    + rewrite lookup_insert_eq. by rewrite decide_True.
    + rewrite lookup_insert_ne by done. rewrite decide_False by tauto. done.
  - rewrite lookup_insert_ne by done. by rewrite decide_False by tauto.
Qed.

Lemma allocated_set_field (job l : loc) (k : string) (v : Val) (w : World) :
  is_Some (objects (heap (store w)) !! l) ->
  is_Some (objects (heap (store (set_field job k v w))) !! l).
Proof.
  intros H. unfold set_field, write_object. cbn.
  destruct (decide (l = job)) as [->|Hl].
  - rewrite lookup_insert_eq. eauto.
  - by rewrite lookup_insert_ne.
Qed.

(** [updateJob] leaves a field of a record as it was, or gives it the
    value that the updates carry for it. *)
Lemma field_persist (jobId : option string) (updates : Obj) (w : World) (l : loc) (k : string) :
  is_Some (objects (heap (store w)) !! l) ->
  field (persist jobId updates w) l k = field w l k
  ∨ updates !! k = Some (field (persist jobId updates w) l k).
Proof.
  intros Hl. destruct jobId as [id|]; [|by left].
  unfold persist, updateJob. destruct (String.eqb id ""); [by left|].
  assert (Hmerge : forall job h,
    objects h !! l = objects (heap (store w)) !! l \/ l = job ->
    (l = job -> read_object h job = read_object (heap (store w)) l) ->
    let s := saveJob job (with_heap (store w)
               (write_object h job (assign (read_object h job) updates))) in
    get (read_object (heap s.1) l) k = field w l k
    ∨ updates !! k = Some (get (read_object (heap s.1) l) k)).
  { intros job h Hsame Hread s.
    assert (Hobj : objects (heap s.1) =
                   <[job := assign (read_object h job) updates]> (objects h)).
    { subst s. unfold saveJob. by destruct (negb _). }
    unfold read_object at 1 2. rewrite Hobj.
    destruct (decide (l = job)) as [->|Hne].
    - rewrite lookup_insert_eq. cbn. unfold get, assign.
      destruct (updates !! k) as [v|] eqn:Hu.
      + right. by rewrite (lookup_union_Some_l _ _ _ _ Hu).
      + left. rewrite lookup_union_r by done. by rewrite Hread.
    - rewrite lookup_insert_ne by done. left. unfold field, read_object.
      destruct Hsame as [->|]; done. }
  unfold field at 1 3. cbn [store with_store].
  destruct (getJob (store w) id) as [job|].
  - apply Hmerge; [by left|by intros ->].
  - unfold new_object. apply Hmerge.
    + left. unfold write_object. cbn. rewrite lookup_insert_ne; [done|].
      intros Heq. apply (is_fresh (allocated (heap (store w)))). rewrite Heq.
      unfold allocated. apply elem_of_union_l, elem_of_union_l. by apply elem_of_dom.
    + intros ->. exfalso. apply (is_fresh (allocated (heap (store w)))).
      unfold allocated. apply elem_of_union_l, elem_of_union_l. by apply elem_of_dom.
Qed.

Lemma contexts_persist (jobId : option string) (updates : Obj) (w : World) :
  contexts (persist jobId updates w) = contexts w.
Proof. by destruct jobId. Qed.

(** After a failed login of a sidebar, runScrape has returned, the job
    is paused, its reason and its message are what they were, and no
    browser context was closed. *)
Lemma login_failure_path (w : World) (i : nat) (r : Run) (co sh : bool) :
  runs w !! i = Some r ->
  run_at r = AwaitLogins ->
  co && sh = false ->
  is_Some (objects (heap (store w)) !! run_job r) ->
  let w' := resume i (Logins co sh) w in
  phase_of w' i = Some Finished
  ∧ field w' (run_job r) "state" = VStr "paused"
  ∧ field w' (run_job r) "stateReason" = field w (run_job r) "stateReason"
  ∧ field w' (run_job r) "message" = field w (run_job r) "message"
  ∧ contexts w' = contexts w.
Proof.
  intros Hr Hat Hlog Hjob w'. pose proof (lookup_lt_Some _ _ _ Hr) as Hi.
  subst w'. unfold resume. rewrite Hr, Hat, Hlog.
  set (w1 := set_field (run_job r) "state" (VStr "paused")
               (set_isPaused false (set_isScraping false w))).
  assert (Hjob1 : is_Some (objects (heap (store w1)) !! run_job r)).
  { by apply allocated_set_field. }
  assert (Hf : forall k, field (wait i r Finished (persist (run_jobId r)
                 (paused_fields w1 (run_job r)) w1)) (run_job r) k
               = field (persist (run_jobId r) (paused_fields w1 (run_job r)) w1)
                   (run_job r) k) by done.
  split; [|split; [|split; [|split]]].
  - unfold wait. rewrite phase_of_set_run; [done|]. by rewrite runs_persist.
  - rewrite Hf.
    destruct (field_persist (run_jobId r) (paused_fields w1 (run_job r)) w1 (run_job r)
                "state" Hjob1) as [->|Hu].
    + subst w1. rewrite field_set_field. by rewrite decide_True.
    + unfold paused_fields in *. rewrite lookup_insert_eq in Hu. by injection Hu as <-.
  - rewrite Hf.
    destruct (field_persist (run_jobId r) (paused_fields w1 (run_job r)) w1 (run_job r)
                "stateReason" Hjob1) as [->|Hu].
    + subst w1. rewrite field_set_field. by rewrite decide_False by (intros [_ ?]; done).
    + exfalso. revert Hu. unfold paused_fields, progress.
      by rewrite !lookup_insert_ne, lookup_singleton_ne by done.
  - rewrite Hf.
    destruct (field_persist (run_jobId r) (paused_fields w1 (run_job r)) w1 (run_job r)
                "message" Hjob1) as [->|Hu].
    + subst w1. rewrite field_set_field. by rewrite decide_False by (intros [_ ?]; done).
    + exfalso. revert Hu. unfold paused_fields, progress.
      by rewrite !lookup_insert_ne, lookup_singleton_ne by done.
  - unfold wait, set_run. cbn [contexts with_runs]. by rewrite contexts_persist.
Qed.

(** A pause check clears isScraping, whichever job is current by then. *)
Lemma pause_check_clears_isScraping (in_page_try : bool) (i : nat) (r : Run) (w : World) :
  isScraping (scrapeSession (pause_now in_page_try i r w)) = false.
Proof. done. Qed.

(** What the starting handlers do first: while the session says that a
    scrape is running, the current job is paused. *)
Lemma pause_current_pauses (w : World) (currentId : string) (current : loc) :
  currentJobId (scrapeSession w) = Some currentId ->
  currentId <> "" ->
  isScraping (scrapeSession w) = true ->
  find_job w currentId = Some current ->
  is_Some (objects (heap (store w)) !! current) ->
  field (pause_current w) current "state" = VStr "paused".
Proof.
  intros Hc Hne Hs Hf Ha. unfold pause_current.
  rewrite Hc, Hs, (proj2 (String.eqb_neq _ _) Hne). cbn [andb negb].
  replace (find_job (set_pauseRequested true w) currentId) with (Some current) by done.
  rewrite Hf.
  set (w1 := set_field current "state" (VStr "paused") (set_pauseRequested true w)).
  set (w2 := set_field current "pageIndex" (or_else (field w1 current "pageIndex") (VNum 1)) w1).
  assert (Hstate : field w2 current "state" = VStr "paused").
  { subst w2 w1. rewrite !field_set_field.
    rewrite decide_False by (intros [_ ?]; done). by rewrite decide_True. }
  assert (Ha2 : is_Some (objects (heap (store w2)) !! current)).
  { subst w2 w1. by do 2 apply allocated_set_field. }
  destruct (field_persist (Some currentId)
              {[ "state" := VStr "paused"; "pageIndex" := field w2 current "pageIndex" ]}
              w2 current "state" Ha2) as [Heq|Hu].
  - exact (eq_trans Heq Hstate).
  - rewrite lookup_insert_eq in Hu. injection Hu as Hu. symmetry. exact Hu.
Qed.

(** The second request of [three_jobs] did pause the first job: the
    session still said that a scrape was running. *)
Example second_request_pauses_first :
  let w := exec boot (new_job 0 "A" "t1" ++ [PostScrape search_url (VStr "B") "t2"]) in
  job_field w "A_t1" "state" = VStr "paused"
  ∧ job_field w "B_t2" "state" = VStr "running"
  ∧ length (running_in w (jobs w)) = 1.
Proof. by vm_compute. Qed.

(** C1, at the failing inputs.  When clickNextPage throws, the catch of
    the page sets continueScrape to false, the loop ends and the job is
    marked completed, in memory and on disk, although the navigation
    never answered 'no-more'.  The same happens when the navigation
    answered 'failed' and the [context.close()] of that branch rejects.
    For comparison, the run whose navigation answers 'no-more' ends
    completed as well. *)
Theorem runScrape_completed_after_error :
  let thrown := exec boot navigation_throws in
  let failed := exec boot navigation_fails_browser_gone in
  let ended := exec boot navigation_ends in
  (phase_of thrown 0 = Some Finished
   ∧ job_field thrown "A_t1" "state" = VStr "completed"
   ∧ (disk (store thrown) !! "A_t1.json") ≫= (.!! "state") = Some (VStr "completed"))
  ∧ (phase_of failed 0 = Some Finished
     ∧ job_field failed "A_t1" "state" = VStr "completed"
     ∧ (disk (store failed) !! "A_t1.json") ≫= (.!! "state") = Some (VStr "completed"))
  ∧ (phase_of ended 0 = Some Finished
     ∧ job_field ended "A_t1" "state" = VStr "completed").
Proof. by vm_compute. Qed.

(** C2, at the failing input.  The run of the first job, which the
    second request has paused, notices at its pause check that it is no
    longer current and sets isScraping to false.  The third request then
    finds nothing to pause: the second job and the third are both in
    state running, in the routes' dictionary and in the cache. *)
Theorem two_jobs_running :
  let w := exec boot three_jobs in
  job_field w "A_t1" "state" = VStr "paused"
  ∧ job_field w "B_t2" "state" = VStr "running"
  ∧ job_field w "C_t3" "state" = VStr "running"
  ∧ length (running_in w (jobs w)) = 2
  ∧ length (running_in w (getJobs (store w))) = 2
  ∧ phase_of w 1 = Some AwaitLaunch.
Proof. by vm_compute. Qed.

(** C3, at the failing inputs.  After a failed third-party login the
    job is paused, but no reason and no message are set, and the browser
    context that was launched is still open: runScrape has returned
    without closing it.  With the cookie file missing the job is paused
    without reason and message as well.  Only the branch of the expired
    LinkedIn cookie sets both and closes the context. *)
Theorem precondition_failures :
  let login := exec boot login_fails in
  let missing := exec boot cookie_missing in
  let expired := exec boot cookie_expired in
  (phase_of login 0 = Some Finished
   ∧ job_field login "A_t1" "state" = VStr "paused"
   ∧ job_field login "A_t1" "stateReason" = VUndef
   ∧ job_field login "A_t1" "message" = VUndef
   ∧ contexts login = [true])
  ∧ (job_field missing "A_t1" "state" = VStr "paused"
     ∧ job_field missing "A_t1" "stateReason" = VUndef
     ∧ job_field missing "A_t1" "message" = VUndef
     ∧ length (runs missing) = 1)
  ∧ (phase_of expired 0 = Some Finished
     ∧ job_field expired "A_t1" "state" = VStr "paused"
     ∧ job_field expired "A_t1" "stateReason" = VStr "cookie_expired"
     ∧ job_field expired "A_t1" "message"
       = VStr "LinkedIn cookie expired. Please update your cookie."
     ∧ contexts expired = [false]).
Proof. by vm_compute. Qed.

End ScrapeRoutesFacts.

(* ===================================================================== *)
(** ** contactOut/domainFilter.js: properties *)
(* ===================================================================== *)

Module DomainFilterFacts.
Import JS DomainFilter.

Lemma append_String (a : ascii) (s t : string) : String a s +:+ t = String a (s +:+ t).
Proof. done. Qed.



Lemma lastIndexOf_lower_bound (s : string) (c : ascii) : (-1 <= lastIndexOf s c)%Z.
Proof.
  induction s as [|a s IH]; simpl; [lia|].
  destruct (0 <=? lastIndexOf s c)%Z eqn:Hi; [lia|]. destruct (Ascii.eqb a c); lia.
Qed.




Lemma slice_length (pre post : string) : slice (String.length pre) (pre +:+ post) = post.
Proof. induction pre as [|a pre IH]; [by destruct post|]. by rewrite append_String. Qed.


(** *** The loop *)

Lemma distinct_In (l : list string) (x : string) : In x (distinct l) <-> In x l.
Proof.
  induction l as [|y l IH]; simpl; [done|]. rewrite filter_In, IH.
  destruct (String.eqb_spec x y) as [->|Hne]; simpl; [tauto|].
  split; [tauto|]. intros [->|Hx]; [done|tauto].
Qed.

Lemma NoDup_List_filter (f : string -> bool) (l : list string) :
  NoDup l -> NoDup (List.filter f l).
Proof.
  induction 1 as [|x l Hx Hl IH]; simpl; [constructor|].
  destruct (f x); [|done]. constructor; [|done].
  rewrite list_elem_of_In, filter_In, <- list_elem_of_In. tauto.
Qed.

Lemma distinct_NoDup (l : list string) : NoDup (distinct l).
Proof.
  induction l as [|x l IH]; simpl; constructor.
  - rewrite list_elem_of_In, filter_In. intros [_ Hx]. by rewrite String.eqb_refl in Hx.
  - by apply NoDup_List_filter.
Qed.

Lemma filter_fresh_same (acc : list string) (d : string) (l : list string) :
  d ∈ acc ->
  List.filter (fresh_in acc) (List.filter (fun y => negb (String.eqb y d)) l)
  = List.filter (fresh_in acc) l.
Proof.
  intros Hacc. induction l as [|y l IHl]; [done|].
  simpl. destruct (String.eqb_spec y d) as [->|Hne]; simpl.
  - unfold fresh_in at 2. by rewrite bool_decide_eq_true_2.
  - by rewrite IHl.
Qed.

Lemma filter_fresh_add (acc : list string) (d : string) (l : list string) :
  List.filter (fresh_in acc) (List.filter (fun y => negb (String.eqb y d)) l)
  = List.filter (fresh_in (acc ++ [d])) l.
Proof.
  induction l as [|y l IHl]; [done|].
  simpl. destruct (String.eqb_spec y d) as [->|Hne]; simpl.
  - unfold fresh_in at 2. rewrite bool_decide_eq_true_2; [done|].
    apply elem_of_app. right. by apply list_elem_of_singleton.
  - rewrite IHl. unfold fresh_in at 1 3.
    assert (Hiff : y ∈ acc <-> y ∈ acc ++ [d]).
    { rewrite elem_of_app, list_elem_of_singleton. tauto. }
    by rewrite (bool_decide_ext _ _ Hiff).
Qed.

Lemma filter_fresh_nil (l : list string) : List.filter (fresh_in []) l = l.
Proof. induction l as [|y l IHl]; [done|]. simpl. by rewrite IHl. Qed.

Section Filter.
Variable freeEmailDomains : list string.

Local Abbreviation PERSONAL := (PERSONAL freeEmailDomains).
Local Abbreviation collect := (collect freeEmailDomains).
Local Abbreviation filterBusinessDomains := (filterBusinessDomains freeEmailDomains).
Local Abbreviation business := (business freeEmailDomains).
Local Abbreviation business_domains := (business_domains freeEmailDomains).

Lemma business_domains_cons (email : string) (rest : list string) :
  business_domains (email :: rest) =
  match getDomain email with
  | Some d => if business d then d :: business_domains rest else business_domains rest
  | None => business_domains rest
  end.
Proof.
  unfold DomainFilter.business_domains. simpl. destruct (getDomain email) as [d|]; [|done].
  simpl. by destruct (business d).
Qed.

Lemma collect_spec (limit : Z) (domains rawEmails : list string) :
  (limit <= 0 \/ Z.of_nat (length domains) < limit)%Z ->
  collect limit domains rawEmails
  = capped limit (domains ++ List.filter (fresh_in domains) (distinct (business_domains rawEmails))).
Proof.
  revert domains. induction rawEmails as [|email rest IH]; intros domains Hlen.
  { simpl. rewrite app_nil_r. unfold capped. destruct (Z.leb_spec 1 limit); [|done].
    rewrite take_ge; [done|lia]. }
  cbn [DomainFilter.collect]. rewrite business_domains_cons.
  destruct (getDomain email) as [domain|] eqn:Hd; [|by apply IH].
  unfold DomainFilter.business at 1.
  destruct (String.eqb domain "") eqn:He; [by apply IH|].
  destruct (bool_decide (domain ∈ PERSONAL)) eqn:Hp; [by apply IH|].
  cbn [negb andb]. cbn [distinct List.filter].
  destruct (decide (domain ∈ domains)) as [Hin|Hin];
    [rewrite (bool_decide_eq_true_2 (domain ∈ domains)) by done
    |rewrite (bool_decide_eq_false_2 (domain ∈ domains)) by done].
  - (* the domain was collected before *)
    unfold fresh_in at 1. rewrite bool_decide_eq_true_2 by done. simpl.
    rewrite (filter_fresh_same domains domain _ Hin).
    destruct (Z.eqb_spec (Z.of_nat (length domains)) limit) as [Hl|Hl].
    + assert (0 < length domains) by (destruct domains; [by apply elem_of_nil in Hin|simpl; lia]).
      lia.
    + by apply IH.
  - unfold fresh_in at 1. rewrite bool_decide_eq_false_2 by done. simpl.
    rewrite filter_fresh_add.
    destruct (Z.eqb_spec (Z.of_nat (length (domains ++ [domain]))) limit) as [Hl|Hl].
    + unfold capped. rewrite length_app in Hl. simpl in Hl.
      destruct (Z.leb_spec 1 limit); [|lia].
      replace (domains ++ domain :: List.filter (fresh_in (domains ++ [domain]))
                 (distinct (business_domains rest)))
        with ((domains ++ [domain]) ++ List.filter (fresh_in (domains ++ [domain]))
                 (distinct (business_domains rest))) by (by rewrite <- app_assoc).
      rewrite take_app_length'; [done|]. rewrite length_app. simpl. lia.
    + rewrite IH.
      * by rewrite <- app_assoc.
      * rewrite length_app in *. simpl in *. lia.
Qed.

(** X2.  filterBusinessDomains returns the business domains of the
    emails (the domain of every email that has one, when it is not empty
    and not a personal one), each once, in the order in which they first
    occur, and no more than the first [limit] of them; a limit that is
    not at least 1 puts no bound on their number. *)
Theorem filterBusinessDomains_spec (rawEmails : list string) (limit : option Z) :
  filterBusinessDomains rawEmails limit
  = capped (default 3%Z limit) (distinct (business_domains rawEmails)).
Proof.
  unfold DomainFilter.filterBusinessDomains. rewrite collect_spec.
  - simpl. by rewrite filter_fresh_nil.
  - simpl. destruct (default 3%Z limit); lia.
Qed.

Lemma capped_sublist (limit : Z) (l : list string) : capped limit l `sublist_of` l.
Proof. unfold capped. destruct (1 <=? limit)%Z; [apply sublist_take|done]. Qed.

(** X3.  No domain is returned twice; with a limit of at least 1, no
    more domains are returned than the limit; every returned domain is
    not empty, is not a personal domain in whatever letter case the list
    of personal domains spells it, and is the domain of one of the
    emails.  Without a bound, the domain of every email is returned
    unless it is empty or personal. *)
Theorem filterBusinessDomains_sound (rawEmails : list string) (limit : option Z) :
  let domains := filterBusinessDomains rawEmails limit in
  NoDup domains
  ∧ ((1 <= default 3 limit)%Z -> (Z.of_nat (length domains) <= default 3 limit)%Z)
  ∧ (forall d, d ∈ domains ->
       d <> ""
       ∧ (forall p, p ∈ freeEmailDomains -> d <> toLowerCase p)
       ∧ exists email, email ∈ rawEmails ∧ getDomain email = Some d)
  ∧ ((default 3 limit <= 0)%Z ->
     forall email d, email ∈ rawEmails -> getDomain email = Some d ->
       d <> "" -> (forall p, p ∈ freeEmailDomains -> d <> toLowerCase p) -> d ∈ domains).
Proof.
  intros domains.
  assert (Hspec : domains = capped (default 3%Z limit) (distinct (business_domains rawEmails))).
  { subst domains. unfold DomainFilter.filterBusinessDomains. rewrite collect_spec.
    - simpl. by rewrite filter_fresh_nil.
    - simpl. destruct (default 3%Z limit); lia. }
  assert (Hbusiness : forall d, In d (business_domains rawEmails) <->
            (d <> "" ∧ (forall p, p ∈ freeEmailDomains -> d <> toLowerCase p))
            ∧ exists email, email ∈ rawEmails ∧ getDomain email = Some d).
  { intros d. unfold DomainFilter.business_domains. rewrite filter_In, <- list_elem_of_In.
    rewrite list_elem_of_omap. unfold DomainFilter.business.
    rewrite andb_true_iff, !negb_true_iff, bool_decide_eq_false.
    unfold DomainFilter.PERSONAL. rewrite elem_of_list_to_set, list_elem_of_fmap.
    destruct (String.eqb_spec d "") as [->|Hne].
    - split; [intros [_ [? _]]; done|intros [[? _] _]; done].
    - split.
      + intros [Hex [_ Hp]]. split; [|done]. split; [done|]. intros p Hp' ->. apply Hp. eauto.
      + intros [[_ Hp] Hex]. split; [done|]. split; [done|].
        intros (p & -> & Hp'). by apply (Hp p). }
  split; [|split; [|split]].
  - rewrite Hspec. eapply sublist_NoDup; [apply distinct_NoDup|apply capped_sublist].
  - intros Hl. rewrite Hspec. unfold capped.
    destruct (Z.leb_spec 1 (default 3%Z limit)); [|lia]. rewrite length_take. lia.
  - intros d Hd. rewrite Hspec in Hd.
    apply (fun H => elem_of_sublist _ _ _ H (capped_sublist _ _)) in Hd.
    apply list_elem_of_In, distinct_In, Hbusiness in Hd. tauto.
  - intros Hl email d Hemail Hdom Hne Hp. rewrite Hspec. unfold capped.
    destruct (Z.leb_spec 1 (default 3%Z limit)); [lia|].
    apply list_elem_of_In, distinct_In, Hbusiness. eauto.
Qed.

End Filter.

End DomainFilterFacts.

(* ===================================================================== *)
(** ** contactOut/collectProfiles.js and contactOut/index.js: properties *)
(* ===================================================================== *)

Module ContactOutFacts.
Import JS Thrown ContactOut.

(** *** The order of the sort *)

Lemma le_cases (a b : string) :
  le a b <-> a = b \/ OrderedTypeEx.String_as_OT.lt a b.
Proof.
  unfold le, String.leb. rewrite <- OrderedTypeEx.String_as_OT.cmp_lt.
  rewrite <- OrderedTypeEx.String_as_OT.cmp_eq.
  unfold OrderedTypeEx.String_as_OT.cmp. destruct (String.compare a b); intuition congruence.
Qed.

#[local] Instance le_trans : Transitive le.
Proof.
  intros a b c. rewrite !le_cases. intros [->|Hab] [->|Hbc]; auto.
  right. by eapply OrderedTypeEx.String_as_OT.lt_trans.
Qed.

#[local] Instance le_total : Total le.
Proof. intros a b. apply String.leb_total. Qed.

#[local] Instance le_antisym : AntiSymm eq le.
Proof. intros a b. apply String.leb_antisym. Qed.

Lemma sort_Permutation (l1 l2 : list string) : l1 ≡ₚ l2 -> sort l1 = sort l2.
Proof.
  intros Hp. unfold sort. apply (Sorted_unique le).
  - apply (Sorted_merge_sort le).
  - apply (Sorted_merge_sort le).
  - by rewrite !(merge_sort_Permutation le).
Qed.

(** *** The keys *)

Lemma append_bar (a b : string) : a +:+ String "|" b <> "".
Proof. by destruct a. Qed.

Lemma profile_key_nonempty (r : Profile) : profile_key r <> "".
Proof. unfold profile_key. apply append_bar. Qed.

Lemma dedupe_from_keep_first (seen : gset string) (rows : list Profile) :
  dedupe_from seen rows = FirstSeen.keep_first profile_key seen rows.
Proof.
  revert seen. induction rows as [|r rows IH]; intros seen; [done|].
  cbn [dedupe_from FirstSeen.keep_first].
  destruct (String.eqb_spec (profile_key r) "") as [He|_]; [by apply profile_key_nonempty in He|].
  case_bool_decide; by rewrite IH.
Qed.

Lemma keys_not_empty (rows : list Profile) :
  filter (fun k => k <> "") (map profile_key rows) = map profile_key rows.
Proof.
  induction rows as [|r rows IH]; [done|]. cbn [map].
  rewrite filter_cons_True by apply profile_key_nonempty. by rewrite IH.
Qed.

Lemma dedupe_keys_NoDup (rows : list Profile) :
  NoDup (map profile_key (dedupeByNameAndDomains rows)).
Proof.
  unfold dedupeByNameAndDomains. rewrite dedupe_from_keep_first, <- keys_not_empty.
  apply (FirstSeenFacts.keep_first_keys profile_key ∅ rows).
Qed.

(** X4.  dedupeByNameAndDomains keeps, in their order, the first profile
    of every key and nothing else: no two kept profiles have the same
    key, and deduplicating the result again changes nothing. *)
Theorem dedupeByNameAndDomains_first_of_each_key (rows : list Profile) :
  let kept := dedupeByNameAndDomains rows in
  kept `sublist_of` rows
  ∧ (forall k, FirstSeen.with_key profile_key k kept
               = take 1 (FirstSeen.with_key profile_key k rows))
  ∧ NoDup (map profile_key kept)
  ∧ dedupeByNameAndDomains kept = kept.
Proof.
  intros kept. subst kept. unfold dedupeByNameAndDomains. rewrite !dedupe_from_keep_first.
  split; [apply FirstSeenFacts.keep_first_sublist|]. split; [|split].
  - intros k. rewrite FirstSeenFacts.keep_first_with_key.
    destruct (decide (k = "")) as [->|Hk].
    + assert (Hnone : FirstSeen.with_key profile_key "" rows = []).
      { unfold FirstSeen.with_key. induction rows as [|r rows IH]; [done|].
        rewrite filter_cons_False by apply profile_key_nonempty. done. }
      by rewrite Hnone.
    + by rewrite decide_False by apply not_elem_of_empty.
  - rewrite <- dedupe_from_keep_first. apply dedupe_keys_NoDup.
  - apply FirstSeenFacts.keep_first_idempotent.
Qed.

(** X5.  Two profiles whose names differ in letter case only and whose
    domains are the same up to their order have the same key, and the
    second of them is dropped without a trace: the result is the one for
    the rows without it. *)
Theorem dedupeByNameAndDomains_same_person (before between after : list Profile) (a b : Profile) :
  toLowerCase (default "" (fullName a)) = toLowerCase (default "" (fullName b)) ->
  default [] (domains a) ≡ₚ default [] (domains b) ->
  profile_key a = profile_key b
  ∧ dedupeByNameAndDomains (before ++ a :: between ++ b :: after)
    = dedupeByNameAndDomains (before ++ a :: between ++ after).
Proof.
  intros Hname Hdomains.
  assert (Hkey : profile_key a = profile_key b).
  { unfold profile_key. by rewrite Hname, (sort_Permutation _ _ Hdomains). }
  split; [done|]. unfold dedupeByNameAndDomains. rewrite !dedupe_from_keep_first.
  replace (before ++ a :: between ++ b :: after) with ((before ++ a :: between) ++ b :: after)
    by (by rewrite <- app_assoc).
  replace (before ++ a :: between ++ after) with ((before ++ a :: between) ++ after)
    by (by rewrite <- app_assoc).
  apply FirstSeenFacts.keep_first_repeated; [apply profile_key_nonempty|].
  right. rewrite map_app. apply elem_of_app. right. cbn [map]. rewrite Hkey.
  apply elem_of_cons. by left.
Qed.

Lemma dedupeByNameAndDomains_same_person_witness :
  profile_key ann = profile_key ann_again
  ∧ dedupeByNameAndDomains ([] ++ ann :: [bob] ++ ann_again :: [])
    = dedupeByNameAndDomains ([] ++ ann :: [bob] ++ []).
Proof.
  apply (dedupeByNameAndDomains_same_person [] [bob] [] ann ann_again).
  - reflexivity.
  - apply perm_swap.
Defined.

(** X6.  dedupeProfiles throws when a row has no name; on rows that all
    have a name it returns what dedupeByNameAndDomains returns. *)
Theorem dedupeProfiles_spec (rows : list Profile) :
  (Forall (fun r => is_Some (fullName r)) rows ->
   dedupeProfiles rows = Some (dedupeByNameAndDomains rows))
  ∧ (Exists (fun r => fullName r = None) rows -> dedupeProfiles rows = None).
Proof.
  unfold dedupeProfiles, dedupeByNameAndDomains. generalize (∅ : gset string).
  induction rows as [|r rows IH]; intros seen.
  { split; [done|]. intros H. inversion H. }
  cbn [dedupeProfiles_from dedupe_from].
  destruct (fullName r) as [name|] eqn:Hname.
  - replace (toLowerCase name +:+ "|" +:+ join "," (sort (default [] (domains r))))
      with (profile_key r) by (unfold profile_key; by rewrite Hname).
    split.
    + intros Hall. apply Forall_cons in Hall as [_ Hall].
      destruct (bool_decide (profile_key r ∈ seen)); [by apply IH|].
      by rewrite (proj1 (IH _) Hall).
    + intros Hex. apply Exists_cons in Hex as [Hr|Hex]; [congruence|].
      destruct (bool_decide (profile_key r ∈ seen)); [by apply IH|].
      by rewrite (proj2 (IH _) Hex).
  - split; [|done]. intros Hall. apply Forall_cons in Hall as [[name Hr] _]. congruence.
Qed.

(** *** Names *)







(** *** The attempts of runContactOut *)

Lemma attempt_body_profiles (a : Attempt) (profiles : list Profile) :
  attempt_body a = Ok profiles ->
  profiles = collectFromAllContexts (parts a) ∧ profiles <> [].
Proof.
  unfold attempt_body, bind, when, step. intros H.
  repeat case_match; try discriminate; injection H as <-; done.
Qed.

Lemma attempts_from_fail (fuel : nat) (attempt retries : Z) (script : Z -> Attempt)
    (lastError : option Err) (n : nat) :
  (forall j, (attempt <= j <= retries)%Z -> exists e, attempt_body (script j) = Throw e) ->
  fuel = Z.to_nat (retries + 1 - attempt) ->
  (attempt <= retries + 1)%Z ->
  attempts_from fuel attempt retries script lastError n
  = Some (mkEnded
            (Throw (failed_after retries
                      (if (attempt <=? retries)%Z then thrown_by (attempt_body (script retries))
                       else lastError)))
            (n + Z.to_nat (retries - attempt))).
Proof.
  revert attempt lastError n. induction fuel as [|fuel IH]; intros attempt lastError n Hfail Hfuel Hle.
  - assert (attempt = retries + 1)%Z as -> by lia.
    cbn [attempts_from]. destruct (Z.leb_spec (retries + 1) retries); [lia|].
    do 2 f_equal. lia.
  - cbn [attempts_from]. destruct (Z.leb_spec attempt retries) as [Hin|]; [|lia].
    destruct (Hfail attempt ltac:(lia)) as [e He]. rewrite He.
    rewrite IH; [|intros j Hj; apply Hfail; lia|lia|lia].
    destruct (Z.leb_spec (attempt + 1) retries) as [Hmore|Hlast].
    + destruct (Z.ltb_spec attempt retries); [|lia]. do 2 f_equal. lia.
    + assert (attempt = retries) as -> by lia. rewrite He. cbn [thrown_by].
      destruct (Z.ltb_spec retries retries); [lia|]. do 2 f_equal. lia.
Qed.

Lemma attempts_from_success (fuel : nat) (attempt retries k : Z) (script : Z -> Attempt)
    (lastError : option Err) (n : nat) (profiles : list Profile) :
  (attempt <= k <= retries)%Z ->
  (forall j, (attempt <= j < k)%Z -> exists e, attempt_body (script j) = Throw e) ->
  attempt_body (script k) = Ok profiles ->
  Z.to_nat (k + 1 - attempt) <= fuel ->
  attempts_from fuel attempt retries script lastError n
  = Some (mkEnded (Ok profiles) (n + Z.to_nat (k - attempt))).
Proof.
  revert attempt lastError n. induction fuel as [|fuel IH];
    intros attempt lastError n Hk Hfail Hok Hfuel; [lia|].
  cbn [attempts_from]. destruct (Z.leb_spec attempt retries) as [Hin|]; [|lia].
  destruct (decide (attempt = k)) as [->|Hne].
  - rewrite Hok. do 2 f_equal. lia.
  - destruct (Hfail attempt ltac:(lia)) as [e He]. rewrite He.
    destruct (Z.ltb_spec attempt retries); [|lia].
    rewrite IH; [|lia|intros j Hj; apply Hfail; lia|done|lia]. do 2 f_equal. lia.
Qed.

(** X8.  runContactOut always comes to an end.  It resolves with the
    profiles of the first attempt that succeeds among the first
    [retries] attempts (3 when not given); these profiles are not empty
    and no two of them have the same key; the page was reloaded once
    after every failed attempt before.  When all these attempts fail it
    throws an error that tells the number of attempts and describes the
    error of the last one, and the page was reloaded after every attempt
    but the last.  With a number of attempts below 1 it throws at once,
    and the description of the error is undefined. *)
Theorem runContactOut_contract (retries : option Z) (script : Z -> Attempt) :
  let r := default 3%Z retries in
  is_Some (runContactOut retries script)
  ∧ ((r <= 0)%Z ->
     runContactOut retries script
     = Some (mkEnded
               (Throw (Error ("ContactOut failed after " +:+ pretty r
                              +:+ " attempt(s): undefined"))) 0))
  ∧ (forall k profiles,
       (1 <= k <= r)%Z ->
       (forall j, (1 <= j < k)%Z -> exists e, attempt_body (script j) = Throw e) ->
       attempt_body (script k) = Ok profiles ->
       runContactOut retries script = Some (mkEnded (Ok profiles) (Z.to_nat (k - 1)))
       ∧ profiles <> []
       ∧ NoDup (map profile_key profiles))
  ∧ ((1 <= r)%Z ->
     (forall j, (1 <= j <= r)%Z -> exists e, attempt_body (script j) = Throw e) ->
     runContactOut retries script
     = Some (mkEnded
               (Throw (Error ("ContactOut failed after " +:+ pretty r +:+ " attempt(s): "
                              +:+ describe (thrown_by (attempt_body (script r))))))
               (Z.to_nat (r - 1)))).
Proof.
  intros r. unfold runContactOut. fold r.
  assert (Hfail : (1 <= r)%Z ->
    (forall j, (1 <= j <= r)%Z -> exists e, attempt_body (script j) = Throw e) ->
    attempts_from (Z.to_nat r) 1 r script None 0
    = Some (mkEnded (Throw (failed_after r (thrown_by (attempt_body (script r)))))
                    (Z.to_nat (r - 1)))).
  { intros Hr Hall. rewrite (attempts_from_fail _ 1 r script None 0 Hall) by lia.
    by destruct (Z.leb_spec 1 r); [|lia]. }
  assert (Hok : forall k profiles,
    (1 <= k <= r)%Z ->
    (forall j, (1 <= j < k)%Z -> exists e, attempt_body (script j) = Throw e) ->
    attempt_body (script k) = Ok profiles ->
    attempts_from (Z.to_nat r) 1 r script None 0
    = Some (mkEnded (Ok profiles) (Z.to_nat (k - 1)))).
  { intros k profiles Hk Hbefore Hthis.
    by rewrite (attempts_from_success _ 1 r k script None 0 profiles Hk Hbefore Hthis) by lia. }
  assert (Hnone : (r <= 0)%Z ->
    attempts_from (Z.to_nat r) 1 r script None 0
    = Some (mkEnded (Throw (failed_after r None)) 0)).
  { intros Hr. destruct (Z.to_nat r); cbn [attempts_from];
      by destruct (Z.leb_spec 1 r); [lia|]. }
  split; [|split; [|split]].
  - (* an end is reached: at the first attempt that succeeds, or after the last *)
    destruct (Z.leb_spec r 0) as [Hr|Hr]; [by rewrite Hnone|].
    assert (Hsearch : forall n : nat, (Z.of_nat n <= r)%Z ->
      (forall j, (1 <= j <= Z.of_nat n)%Z -> exists e, attempt_body (script j) = Throw e)
      \/ is_Some (attempts_from (Z.to_nat r) 1 r script None 0)).
    { induction n as [|n IHn]; intros Hn; [left; intros j Hj; lia|].
      destruct IHn as [Hbefore|Hdone]; [lia| |by right].
      destruct (attempt_body (script (Z.of_nat (S n)))) as [profiles|e] eqn:Hthis.
      - right. rewrite (Hok (Z.of_nat (S n)) profiles); [done|lia| |done].
        intros j Hj. apply Hbefore. lia.
      - left. intros j Hj. destruct (decide (j = Z.of_nat (S n))) as [->|Hne]; [eauto|].
        apply Hbefore. lia. }
    destruct (Hsearch (Z.to_nat r)) as [Hall|Hdone]; [lia| |done].
    rewrite Hfail; [done|lia|]. intros j Hj. apply Hall. lia.
  - intros Hr. by rewrite Hnone.
  - intros k profiles Hk Hbefore Hthis. split; [by apply Hok|].
    destruct (attempt_body_profiles _ _ Hthis) as [-> Hne]. split; [done|].
    apply dedupe_keys_NoDup.
  - intros Hr Hall. by rewrite Hfail.
Qed.

End ContactOutFacts.

(* ===================================================================== *)
(** ** signalHire/index.js, opening the sidebar: properties *)
(* ===================================================================== *)

Module SignalHireSidebarFacts.
Import JS Thrown SignalHireSidebar.

Lemma sidebar_attempts_fail (fuel : nat) (attempt maxRetries : Z) (script : Z -> Attempt)
    (n : nat) :
  (forall j, (attempt <= j <= maxRetries)%Z -> exists e, attempt_body (script j) = Throw e) ->
  fuel = Z.to_nat (maxRetries + 1 - attempt) ->
  (attempt <= maxRetries)%Z ->
  attempts_from fuel attempt maxRetries script n
  = Some (mkEnded (attempt_body (script maxRetries)) (n + Z.to_nat (maxRetries - attempt))).
Proof.
  revert attempt n. induction fuel as [|fuel IH]; intros attempt n Hfail Hfuel Hle; [lia|].
  cbn [attempts_from]. destruct (Z.leb_spec attempt maxRetries) as [Hin|]; [|lia].
  destruct (Hfail attempt ltac:(lia)) as [e He]. rewrite He.
  destruct (Z.eqb_spec attempt maxRetries) as [->|Hne].
  - rewrite He. do 2 f_equal. lia.
  - rewrite IH; [|intros j Hj; apply Hfail; lia|lia|lia]. do 2 f_equal. lia.
Qed.

Lemma sidebar_attempts_success (fuel : nat) (attempt maxRetries k : Z) (script : Z -> Attempt)
    (n : nat) :
  (attempt <= k <= maxRetries)%Z ->
  (forall j, (attempt <= j < k)%Z -> exists e, attempt_body (script j) = Throw e) ->
  attempt_body (script k) = Ok tt ->
  Z.to_nat (k + 1 - attempt) <= fuel ->
  attempts_from fuel attempt maxRetries script n
  = Some (mkEnded (Ok tt) (n + Z.to_nat (k - attempt))).
Proof.
  revert attempt n. induction fuel as [|fuel IH]; intros attempt n Hk Hfail Hok Hfuel; [lia|].
  cbn [attempts_from]. destruct (Z.leb_spec attempt maxRetries) as [Hin|]; [|lia].
  destruct (decide (attempt = k)) as [->|Hne].
  - rewrite Hok. do 2 f_equal. lia.
  - destruct (Hfail attempt ltac:(lia)) as [e He]. rewrite He.
    destruct (Z.eqb_spec attempt maxRetries); [lia|].
    rewrite IH; [|lia|intros j Hj; apply Hfail; lia|done|lia]. do 2 f_equal. lia.
Qed.

(** X9.  ensureSidebarReadyWithRetries always comes to an end.  It
    returns at the first attempt that succeeds among the first
    [maxRetries] attempts, the page having been reloaded once after
    every failed attempt before.  When all these attempts fail it
    throws the error of the last one, and the page was reloaded after
    every attempt but the last.  With a number of attempts below 1 it
    returns at once, whatever the page shows: no attempt is made and
    nothing is thrown. *)
Theorem ensureSidebarReadyWithRetries_contract (maxRetries : Z) (script : Z -> Attempt) :
  is_Some (ensureSidebarReadyWithRetries maxRetries script)
  ∧ ((maxRetries <= 0)%Z ->
     ensureSidebarReadyWithRetries maxRetries script = Some (mkEnded (Ok tt) 0))
  ∧ (forall k,
       (1 <= k <= maxRetries)%Z ->
       (forall j, (1 <= j < k)%Z -> exists e, attempt_body (script j) = Throw e) ->
       attempt_body (script k) = Ok tt ->
       ensureSidebarReadyWithRetries maxRetries script
       = Some (mkEnded (Ok tt) (Z.to_nat (k - 1))))
  ∧ ((1 <= maxRetries)%Z ->
     (forall j, (1 <= j <= maxRetries)%Z -> exists e, attempt_body (script j) = Throw e) ->
     ensureSidebarReadyWithRetries maxRetries script
     = Some (mkEnded (attempt_body (script maxRetries)) (Z.to_nat (maxRetries - 1)))).
Proof.
  unfold ensureSidebarReadyWithRetries.
  assert (Hfail : (1 <= maxRetries)%Z ->
    (forall j, (1 <= j <= maxRetries)%Z -> exists e, attempt_body (script j) = Throw e) ->
    attempts_from (Z.to_nat maxRetries) 1 maxRetries script 0
    = Some (mkEnded (attempt_body (script maxRetries)) (Z.to_nat (maxRetries - 1)))).
  { intros Hr Hall. by rewrite (sidebar_attempts_fail _ 1 maxRetries script 0 Hall) by lia. }
  assert (Hok : forall k,
    (1 <= k <= maxRetries)%Z ->
    (forall j, (1 <= j < k)%Z -> exists e, attempt_body (script j) = Throw e) ->
    attempt_body (script k) = Ok tt ->
    attempts_from (Z.to_nat maxRetries) 1 maxRetries script 0
    = Some (mkEnded (Ok tt) (Z.to_nat (k - 1)))).
  { intros k Hk Hbefore Hthis.
    by rewrite (sidebar_attempts_success _ 1 maxRetries k script 0 Hk Hbefore Hthis) by lia. }
  assert (Hnone : (maxRetries <= 0)%Z ->
    attempts_from (Z.to_nat maxRetries) 1 maxRetries script 0 = Some (mkEnded (Ok tt) 0)).
  { intros Hr. destruct (Z.to_nat maxRetries); cbn [attempts_from];
      by destruct (Z.leb_spec 1 maxRetries); [lia|]. }
  split; [|split; [|split]]; [|done..].
  destruct (Z.leb_spec maxRetries 0) as [Hr|Hr]; [by rewrite Hnone|].
  assert (Hsearch : forall n : nat, (Z.of_nat n <= maxRetries)%Z ->
    (forall j, (1 <= j <= Z.of_nat n)%Z -> exists e, attempt_body (script j) = Throw e)
    \/ is_Some (attempts_from (Z.to_nat maxRetries) 1 maxRetries script 0)).
  { induction n as [|n IHn]; intros Hn; [left; intros j Hj; lia|].
    destruct IHn as [Hbefore|Hdone]; [lia| |by right].
    destruct (attempt_body (script (Z.of_nat (S n)))) as [[]|e] eqn:Hthis.
    - right. rewrite (Hok (Z.of_nat (S n))); [done|lia| |done].
      intros j Hj. apply Hbefore. lia.
    - left. intros j Hj. destruct (decide (j = Z.of_nat (S n))) as [->|Hne]; [eauto|].
      apply Hbefore. lia. }
  destruct (Hsearch (Z.to_nat maxRetries)) as [Hall|Hdone]; [lia| |done].
  rewrite Hfail; [done|lia|]. intros j Hj. apply Hall. lia.
Qed.

End SignalHireSidebarFacts.

(* ===================================================================== *)
(** ** Loading the jobs at start-up: properties *)
(* ===================================================================== *)

Module JobsStartupFacts.
Import JS JobsStartup.

Lemma length_append (a b : string) :
  String.length (a +:+ b) = String.length a + String.length b.
Proof. induction a as [|c a IH]; [done|]. change (String c a +:+ b) with (String c (a +:+ b)).
  cbn [String.length]. by rewrite IH. Qed.

Lemma substring_append (a b : string) : String.substring 0 (String.length a) (a +:+ b) = a.
Proof.
  induction a as [|c a IH]; [by destruct b|].
  change (String c a +:+ b) with (String c (a +:+ b)). cbn [String.length String.substring]. by rewrite IH.
Qed.

Lemma append_inj_l (a a' b : string) : a +:+ b = a' +:+ b -> a = a'.
Proof.
  revert a'. induction a as [|c a IH]; intros a' H.
  - destruct a' as [|c' a']; [done|]. apply (f_equal String.length) in H.
    change ("" +:+ b) with b in H. rewrite length_append in H. cbn [String.length] in H. lia.
  - destruct a' as [|c' a'].
    + apply (f_equal String.length) in H.
      change ("" +:+ b) with b in H. rewrite length_append in H. cbn [String.length] in H. lia.
    + change (String c (a +:+ b) = String c' (a' +:+ b)) in H. injection H as -> H.
      by rewrite (IH a' H).
Qed.

Lemma endsWith_append (k suffix : string) : endsWith (k +:+ suffix) suffix = true.
Proof.
  unfold endsWith. rewrite length_append.
  replace (String.length k + String.length suffix - String.length suffix)
    with (String.length k) by lia.
  rewrite DomainFilterFacts.slice_length, String.eqb_refl, andb_true_r.
  apply Nat.leb_le. lia.
Qed.

Lemma endsWith_inv (file suffix : string) :
  endsWith file suffix = true -> exists k, file = k +:+ suffix.
Proof.
  unfold endsWith. intros [Hlen Heq%String.eqb_eq]%andb_true_iff. apply Nat.leb_le in Hlen.
  exists (String.substring 0 (String.length file - String.length suffix) file).
  remember (String.length file - String.length suffix) as n eqn:Hn.
  assert (Hle : n <= String.length file) by lia. clear Hn Hlen.
  revert file Heq Hle. induction n as [|n IH]; intros file Heq Hle.
  - cbn [DomainFilter.slice] in Heq. subst suffix. by destruct file.
  - destruct file as [|c file]; [cbn [String.length] in Hle; lia|].
    cbn [DomainFilter.slice String.substring String.length] in *.
    change (String c (String.substring 0 n file) +:+ suffix)
      with (String c (String.substring 0 n file +:+ suffix)).
    f_equal. apply IH; [done|lia].
Qed.

Lemma without_json_append (k : string) : without_json (k +:+ ".json") = k.
Proof.
  unfold without_json. rewrite length_append. cbn [String.length].
  replace (String.length k + 5 - 5) with (String.length k) by lia.
  apply substring_append.
Qed.

(** *** The files are named after the ids *)

Lemma json_id (o : Obj) :
  truthy (get o "id") = true -> get (json o) "id" = get o "id".
Proof.
  unfold get, json. intros Hid. rewrite lookup_fmap, map_lookup_filter.
  destruct (o !! "id") as [v|] eqn:Ho; [|done]. cbn in *.
  destruct v; try done; by rewrite option_guard_True.
Qed.

Lemma well_named_start : well_named start.
Proof. intros file record H. cbn in H. by rewrite lookup_empty in H. Qed.

Lemma well_named_saveJob (job : loc) (s : State) :
  well_named s -> well_named (saveJob job s).1.
Proof.
  intros Hs. unfold saveJob.
  destruct (truthy (get (read_object (heap s) job) "id")) eqn:Hid; [|done].
  cbn. intros file record. cbn.
  destruct (decide (file = file_name (get (read_object (heap s) job) "id"))) as [->|Hne].
  - rewrite lookup_insert_eq. intros [= <-]. by rewrite json_id.
  - rewrite lookup_insert_ne by done. apply Hs.
Qed.

Lemma well_named_heap (s : State) (h : Heap) : well_named s -> well_named (with_heap s h).
Proof. done. Qed.

Lemma well_named_updateJob (jobId : string) (updates : Obj) (s : State) :
  well_named s -> well_named (updateJob jobId updates s).1.
Proof.
  intros Hs. unfold updateJob. destruct (String.eqb jobId ""); [done|].
  destruct (getJob s jobId); [|destruct (new_object (heap s))]; by apply well_named_saveJob.
Qed.

Lemma well_named_deleteJobFile (jobId : string) (s : State) :
  well_named s -> well_named (deleteJobFile jobId s).
Proof.
  intros Hs. unfold deleteJobFile. destruct (String.eqb jobId ""); [done|].
  intros file record. cbn. intros H. apply lookup_delete_Some in H as [_ H]. by apply Hs.
Qed.

(** *** The loop of loadJobs *)

Lemma fresh_object (h : Heap) (l : loc) :
  is_Some (objects h !! l) -> l <> fresh (allocated h).
Proof.
  intros Hl ->. apply (is_fresh (allocated h)). unfold allocated.
  apply elem_of_union. left. apply elem_of_union. left. by apply elem_of_dom.
Qed.

Lemma fresh_map (h : Heap) (l : loc) :
  is_Some (maps h !! l) -> l <> fresh (allocated h).
Proof.
  intros Hl ->. apply (is_fresh (allocated h)). unfold allocated.
  apply elem_of_union. left. apply elem_of_union. right. by apply elem_of_dom.
Qed.

Lemma loaded_skip (s : State) (jobs : loc) (done : list string) (file : string) :
  (forall k, file = k +:+ ".json" -> disk s !! file = None) ->
  loaded s jobs done -> loaded s jobs (done ++ [file]).
Proof.
  intros Hnone Hloaded k. specialize (Hloaded k).
  destruct (read_map (heap s) jobs !! k) as [l|].
  - destruct Hloaded as (? & ? & ?). split; [done|]. split; [|done].
    apply elem_of_app. by left.
  - destruct (decide (file = k +:+ ".json")) as [He|Hne].
    + right. rewrite <- He. by apply (Hnone k).
    + destruct Hloaded as [Hout|Hd]; [|by right]. left.
      rewrite elem_of_app, list_elem_of_singleton. intros [?|?]; [done|congruence].
Qed.

Lemma load_files_spec (jobs : loc) (files : list string) :
  forall (s : State) (done : list string),
    well_named s -> is_Some (maps (heap s) !! jobs) -> loaded s jobs done ->
    let s' := load_files files jobs s in
    loaded s' jobs (done ++ files)
    ∧ disk s' = disk s
    ∧ jobsCache s' = jobsCache s
    ∧ (forall dict, dict <> jobs -> maps (heap s') !! dict = maps (heap s) !! dict).
Proof.
  induction files as [|file rest IH]; intros s done Hnamed Hjobs Hloaded.
  { cbn. by rewrite app_nil_r. }
  cbn [load_files].
  replace (done ++ file :: rest) with ((done ++ [file]) ++ rest) by (by rewrite <- app_assoc).
  destruct (endsWith file ".json") eqn:Hends; cbn [negb].
  2:{ apply IH; [done|done|]. apply loaded_skip; [|done].
      intros k ->. by rewrite endsWith_append in Hends. }
  destruct (disk s !! file) as [record|] eqn:Hfile.
  2:{ apply IH; [done|done|]. by apply loaded_skip. }
  destruct (Hnamed file record Hfile) as [Hid Hname].
  assert (Hjob : without_json file = to_string (get record "id")).
  { rewrite Hname. apply without_json_append. }
  assert (Hsame : <["id" := or_else (get record "id") (VStr (without_json file))]> record = record).
  { unfold or_else. rewrite Hid. apply insert_id. unfold get in *.
    by destruct (record !! "id"). }
  unfold new_object. cbn zeta. rewrite Hsame.
  set (job := fresh (allocated (heap s))).
  set (s1 := with_heap s _).
  assert (Hmap : read_map (heap s1) jobs
                 = <[to_string (get record "id") := job]> (read_map (heap s) jobs)).
  { unfold s1. cbn. unfold read_map at 1. cbn. by rewrite lookup_insert_eq. }
  assert (Hobj : forall l, objects (heap s1) !! l
                           = if decide (l = job) then Some record else objects (heap s) !! l).
  { intros l. unfold s1. cbn. destruct (decide (l = job)) as [->|Hne].
    - by rewrite lookup_insert_eq.
    - by rewrite !lookup_insert_ne. }
  destruct (IH s1 (done ++ [file])) as (Hl & Hd & Hc & Hframe).
  - done.
  - unfold s1. cbn. by rewrite lookup_insert_eq.
  - intros k. rewrite Hmap.
    destruct (decide (k = to_string (get record "id"))) as [->|Hk].
    + rewrite lookup_insert_eq. rewrite Hobj, decide_True by done.
      split; [done|]. split.
      * apply elem_of_app. right. apply list_elem_of_singleton. by rewrite Hname.
      * unfold read_object. rewrite Hobj, decide_True by done. cbn.
        rewrite <- Hfile. by rewrite Hname.
    + rewrite lookup_insert_ne by done. specialize (Hloaded k).
      destruct (read_map (heap s) jobs !! k) as [l|].
      * destruct Hloaded as (Hl & Hin & Hrec).
        pose proof (fresh_object _ _ Hl) as Hfresh.
        rewrite Hobj, decide_False by done. split; [done|]. split.
        -- apply elem_of_app. by left.
        -- unfold read_object. by rewrite Hobj, decide_False by done.
      * assert (Hne : k +:+ ".json" <> file).
        { rewrite Hname. unfold file_name. intros He. by apply append_inj_l in He. }
        destruct Hloaded as [Hout|Hnone]; [|by right]. left.
        rewrite elem_of_app, list_elem_of_singleton. intros [?|?]; done.
  - split; [done|]. split; [done|]. split; [done|].
    intros dict Hdict. rewrite (Hframe dict Hdict). unfold s1. cbn.
    by rewrite lookup_insert_ne.
Qed.

Lemma loadJobs_loaded (files : list string) (s : State) :
  well_named s ->
  let s' := loadJobs files s in
  loaded s' (jobsCache s') files
  ∧ disk s' = disk s
  ∧ jobsCache s' = fresh (allocated (heap s))
  ∧ (forall dict, dict <> jobsCache s' ->
       maps (heap s') !! dict = maps (heap s) !! dict).
Proof.
  intros Hnamed. unfold loadJobs, new_map. cbn zeta.
  set (jobs := fresh (allocated (heap s))).
  set (s0 := with_heap s (write_map (heap s) jobs ∅)).
  destruct (load_files_spec jobs files s0 []) as (Hl & Hd & Hc & Hframe).
  - done.
  - unfold s0. cbn. by rewrite lookup_insert_eq.
  - intros k. unfold s0, read_map. cbn. rewrite lookup_insert_eq. cbn.
    rewrite lookup_empty. left. apply not_elem_of_nil.
  - cbn [heap jobsCache disk]. split; [|split; [|split]].
    + exact Hl.
    + by rewrite Hd.
    + done.
    + intros dict Hdict. rewrite (Hframe dict Hdict). unfold s0. cbn.
      by rewrite lookup_insert_ne.
Qed.






End JobsStartupFacts.

(* ===================================================================== *)
(** ** server.js, the start-up: properties *)
(* ===================================================================== *)

Module ServerStartupFacts.
Import JS ServerStartup.



End ServerStartupFacts.

(* ===================================================================== *)
(** ** routes/scrapeRoutes.js, the session: properties *)
(* ===================================================================== *)

Module ScrapeStatusFacts.
Import JS ScrapeStatus.

Lemma session_set_field (job : loc) (k : string) (v : Val) (w : World) :
  scrapeSession (set_field job k v w) = scrapeSession w.
Proof. done. Qed.

Lemma session_persist (jobId : option string) (updates : Obj) (w : World) :
  scrapeSession (persist jobId updates w) = scrapeSession w.
Proof. by destruct jobId. Qed.

Lemma session_close_context (c : option nat) (w : World) :
  scrapeSession (close_context c w) = scrapeSession w.
Proof. by destruct c. Qed.

Lemma session_set_run (i : nat) (r : Run) (w : World) :
  scrapeSession (set_run i r w) = scrapeSession w.
Proof. done. Qed.

(** The session in which each stretch of code leaves the server. *)
Ltac session_after :=
  repeat first
    [ progress (unfold loop_top, before_scroll, pause_now, completed_now, page_error,
                caught_now, wait, rejected, runScrape, pause_current)
    | progress (rewrite ?session_set_field, ?session_persist, ?session_close_context,
                        ?session_set_run)
    | progress cbn [scrapeSession with_runs with_store with_session with_contexts with_creating
                    with_cookieFile set_isScraping set_isPaused set_pauseRequested
                    set_currentJobId isScraping isPaused andb negb fst]
    | match goal with |- context [if ?b then _ else _] => destruct b end
    | match goal with |- context [match ?x with Some _ => _ | None => _ end] => destruct x end
    | match goal with |- context [match ?x with O => _ | S _ => _ end] => destruct x end
    | match goal with
      | |- context [match ?x with FromScrape _ => _ | FromRun _ _ => _ | FromResume _ => _ end] =>
          destruct x
      end ].

Lemma agree_resume (i : nat) (a : Answer) (w : World) :
  agree w = true -> agree (resume i a w) = true.
Proof.
  intros Hw. unfold resume. destruct (runs w !! i) as [r|]; [|done].
  destruct (run_at r) as [| | | | | | | |nav|next|];
    destruct a as [ok|co sh|li|rows|pr| | |nav' url| |ok]; try done.
  all: try (destruct ok); try (destruct li as [[|]|]); try (destruct pr);
       try (destruct nav'); try (destruct nav); try (destruct next as [[|]| | | |]); try done.
  all: unfold agree, running, paused in *; session_after; try done.
  all: try (by destruct (isScraping (scrapeSession w)), (isPaused (scrapeSession w))).
  all: try (by destruct (pauseRequested (scrapeSession w))).
Qed.

Lemma agree_handle (w : World) (e : Event) : agree w = true -> agree (handle w e) = true.
Proof.
  intros Hw. destruct e as [url listName timestamp|n| | |id|id|id| | |i a]; cbn [handle].
  - unfold post_scrape. destruct url, listName; try assumption.
    unfold new_object. unfold agree, running, paused in *.
    session_after; first [assumption|reflexivity].
  - unfold post_scrape_continues.
    destruct (creating w !! n) as [[jobId job [|]]|]; try assumption.
    unfold agree, running, paused in *. session_after; first [assumption|reflexivity].
  - unfold post_stop, agree, running, paused in *.
    session_after; first [assumption|reflexivity].
  - unfold post_resume, agree, running, paused in *.
    session_after; first [assumption|reflexivity].
  - unfold post_job_run, agree, running, paused in *.
    session_after; first [assumption|reflexivity].
  - unfold post_job_stop, agree, running, paused in *.
    session_after; first [assumption|reflexivity].
  - unfold delete_job, agree, running, paused in *.
    session_after; first [assumption|reflexivity].
  - assumption.
  - assumption.
  - by apply agree_resume.
Qed.

(** X13.  Whatever requests arrive and whatever the runs of runScrape
    are answered, in whatever order: GET /api/status never reports
    running and paused at once, provided it did not before; it does
    not when the server starts. *)
Theorem status_never_running_and_paused (w : World) (events : list Event) :
  agree w = true ->
  running (exec w events) && paused (exec w events) = false.
Proof.
  intros Hw. apply negb_true_iff. change (agree (exec w events) = true).
  revert w Hw. induction events as [|e events IH]; intros w Hw; [done|].
  cbn [exec foldl]. apply IH. by apply agree_handle.
Qed.

Lemma status_never_running_and_paused_witness :
  running (exec boot three_jobs) && paused (exec boot three_jobs) = false.
Proof. apply (status_never_running_and_paused boot three_jobs). reflexivity. Defined.

End ScrapeStatusFacts.

(* ===================================================================== *)
(** ** routes/scrapeRoutes.js, a run of runScrape: properties *)
(* ===================================================================== *)

Module ScrapeRunFacts.
Import JS ScrapeRun.

Lemma map_set_same (h : Heap) (dict : loc) (k : string) (job : loc) :
  read_map h dict !! k = Some job -> map_set h dict k job = h.
Proof.
  intros H. unfold map_set, write_map. destruct h as [os ms ars]. cbn in *. f_equal.
  unfold read_map in *. cbn in *. destruct (ms !! dict) as [m|] eqn:Hm; cbn in *.
  - rewrite (insert_id m k job H). by apply insert_id.
  - by rewrite lookup_empty in H.
Qed.


Lemma get_json (o : Obj) (k : string) (v : Val) :
  get o k = v -> v <> VUndef -> v <> VNaN -> get (json o) k = v.
Proof.
  intros Hg Hu Hn. unfold get, json in *. rewrite lookup_fmap.
  destruct (o !! k) as [x|] eqn:Hx; cbn in Hg; [|congruence]. subst x.
  rewrite (map_lookup_filter_Some_2 _ _ k v Hx) by done. cbn. by destruct v.
Qed.

Lemma assign_own (w : World) (job : loc) (updates : Obj) (k : string) :
  own w job updates ->
  get (assign (read_object (heap (store w)) job) updates) k = field w job k.
Proof.
  intros Hown. unfold get, assign. destruct (updates !! k) as [v|] eqn:Hk.
  - rewrite (lookup_union_Some_l _ _ _ _ Hk). cbn. symmetry. by apply Hown.
  - by rewrite lookup_union_r.
Qed.

Lemma persist_tracked (w : World) (id : string) (job : loc) (updates : Obj) :
  tracked w id job -> own w job updates ->
  persist (Some id) updates w =
  let o := assign (read_object (heap (store w)) job) updates in
  with_store w (mkState (write_object (heap (store w)) job o) (jobsCache (store w))
                        (<[id +:+ ".json" := json o]> (disk (store w)))).
Proof.
  intros (Hid & _ & Hc & Hf) Hu. unfold persist, updateJob. cbn zeta.
  assert (String.eqb id "" = false) as -> by by apply String.eqb_neq.
  rewrite Hc. unfold saveJob. cbn [heap with_heap jobsCache disk].
  rewrite JobsManagerFacts.read_object_write. rewrite (assign_own _ _ _ _ Hu), Hf.
  cbn [truthy to_string]. assert (String.eqb id "" = false) as -> by by apply String.eqb_neq.
  cbn [negb fst]. rewrite map_set_same; [done|].
  rewrite JobsManagerFacts.read_map_write_object. exact Hc.
Qed.

Lemma field_persist_own (w : World) (id : string) (job : loc) (updates : Obj) (k : string) :
  tracked w id job -> own w job updates ->
  field (persist (Some id) updates w) job k = field w job k.
Proof.
  intros Ht Hu. rewrite (persist_tracked _ _ _ _ Ht Hu). cbn zeta.
  unfold field at 1. cbn [store with_store heap]. rewrite JobsManagerFacts.read_object_write.
  by apply assign_own.
Qed.

Lemma job_file_persist_own (w : World) (id : string) (job : loc) (updates : Obj) (k : string) :
  tracked w id job -> own w job updates ->
  field w job k <> VUndef -> field w job k <> VNaN ->
  get (job_file (persist (Some id) updates w) id) k = field w job k.
Proof.
  intros Ht Hu Hundef Hnan. rewrite (persist_tracked _ _ _ _ Ht Hu). cbn zeta.
  unfold job_file. cbn [store with_store disk]. rewrite lookup_insert_eq. cbn [default].
  apply get_json; [by apply assign_own|done|done].
Qed.

Lemma tracked_persist (w : World) (id : string) (job : loc) (updates : Obj) :
  tracked w id job -> own w job updates ->
  tracked (persist (Some id) updates w) id job.
Proof.
  intros Ht Hu. pose proof Ht as (Hid & Ha & Hc & Hf).
  split; [done|]. split; [|split].
  - rewrite (persist_tracked _ _ _ _ Ht Hu). exact Ha.
  - rewrite (persist_tracked _ _ _ _ Ht Hu). exact Hc.
  - by rewrite field_persist_own.
Qed.

Lemma tracked_set_field (w : World) (id : string) (job : loc) (k : string) (v : Val) :
  k <> "id" -> tracked w id job -> tracked (set_field job k v w) id job.
Proof.
  intros Hk (Hid & Ha & Hc & Hf). split; [done|]. split; [exact Ha|]. split; [exact Hc|].
  rewrite ScrapeRoutesFacts.field_set_field. rewrite decide_False; [done|]. intros [_ ?]. by apply Hk.
Qed.

Lemma tracked_same_store (w w' : World) (id : string) (job : loc) :
  store w' = store w -> jobs w' = jobs w -> tracked w id job -> tracked w' id job.
Proof.
  intros Hs Hj (Hid & Ha & Hc & Hf). unfold tracked, find_job, field in *.
  by rewrite Hs, Hj.
Qed.

Lemma field_set_field_eq (job : loc) (k : string) (v : Val) (w : World) :
  field (set_field job k v w) job k = v.
Proof. rewrite ScrapeRoutesFacts.field_set_field. by rewrite decide_True. Qed.

Lemma field_set_field_ne (job : loc) (k k' : string) (v : Val) (w : World) :
  k' <> k -> field (set_field job k v w) job k' = field w job k'.
Proof.
  intros Hk. rewrite ScrapeRoutesFacts.field_set_field.
  rewrite decide_False; [done|]. by intros [_ ?].
Qed.

(** Reading a field after writes to fields of the same record. *)
Ltac read_fields :=
  repeat match goal with
  | |- context [field (set_field ?j ?k ?v ?w) ?j ?k'] =>
      first [ rewrite (field_set_field_eq j k v w)
            | rewrite (field_set_field_ne j k k' v w) by done ]
  end.

Lemma own_progress (w : World) (job : loc) : own w job (progress w job).
Proof.
  intros k v H. unfold progress in H.
  repeat (apply lookup_insert_Some in H as [[<- <-]|[_ H]]; [done|]).
  by apply lookup_singleton_Some in H as [<- <-].
Qed.

Lemma own_state (w : World) (job : loc) (v : Val) :
  field w job "state" = v -> own w job (<["state" := v]> (progress w job)).
Proof.
  intros Hs k x H. apply lookup_insert_Some in H as [[<- <-]|[_ H]]; [done|].
  by apply own_progress.
Qed.

Section Steps.
Variables (i : nat) (id : string) (job : loc) (origin : Origin) (context : option nat).

Local Abbreviation on := (on_page i id job origin context).

Lemma pause_not_wanted (w : World) (r : Run) :
  currentJobId (scrapeSession w) = run_jobId r ->
  pauseRequested (scrapeSession w) = false ->
  pause_wanted w r = false.
Proof.
  intros Hc Hp. unfold pause_wanted. rewrite Hp. by rewrite bool_decide_eq_true_2.
Qed.

Lemma on_page_wait (w : World) (r : Run) (ph ph' ph'' : Phase) (page page' rows contacts : Z) :
  on w ph page rows contacts ->
  r = mkRun (Some id) job origin context (VNum page') ph'' ->
  on (wait i r ph' w) ph' page' rows contacts.
Proof.
  intros (Ht & Hr & Hc & Hp & HR & HC) ->. split; [|split; [|done]].
  - by apply (tracked_same_store w).
  - unfold wait, set_run, at_phase. cbn. rewrite list_lookup_insert_eq; [done|].
    by apply lookup_lt_Some in Hr.
Qed.



Lemma step_rows (w : World) (page rows contacts : Z) (n : nat) :
  on w AwaitSignalHire page rows contacts ->
  on (resume i (SignalHire (Some n)) w)
     (match n with O => AwaitScroll | S _ => AwaitContactOut end)
     page (rows + Z.of_nat n) contacts.
Proof.
  intros (Ht & Hr & Hc & Hp & HR & HC). unfold resume. rewrite Hr.
  cbn [run_at run_job run_jobId]. rewrite HR. cbn [add_num].
  set (w1 := set_field job "totalRows" _ w).
  assert (H1 : on w1 AwaitSignalHire page (rows + Z.of_nat n) contacts).
  { split; [by apply tracked_set_field|]. split; [done|]. split; [done|]. split; [done|].
    subst w1. rewrite !ScrapeRoutesFacts.field_set_field.
    split; [by rewrite decide_True|]. rewrite decide_False; [done|]. by intros [_ [=]]. }
  rewrite pause_not_wanted by done.
  destruct n as [|n].
  - unfold before_scroll. rewrite pause_not_wanted by done. by eapply on_page_wait.
  - by eapply on_page_wait.
Qed.

Lemma step_profiles (w : World) (page rows contacts : Z) (n : nat) :
  on w AwaitContactOut page rows contacts ->
  on (resume i (ContactOut (Some n)) w) AwaitMerge page rows (contacts + Z.of_nat n).
Proof.
  intros (Ht & Hr & Hc & Hp & HR & HC). unfold resume. rewrite Hr.
  cbn [run_at run_job run_jobId]. rewrite HC. cbn [add_num].
  set (w1 := set_field job "totalContacts" _ w).
  assert (H1 : on w1 AwaitContactOut page rows (contacts + Z.of_nat n)).
  { split; [by apply tracked_set_field|]. split; [done|]. split; [done|]. split; [done|].
    subst w1. rewrite !ScrapeRoutesFacts.field_set_field.
    split; [|by rewrite decide_True]. rewrite decide_False; [done|]. by intros [_ [=]]. }
  by eapply on_page_wait.
Qed.

Lemma step_merged (w : World) (page rows contacts : Z) :
  on w AwaitMerge page rows contacts ->
  on (resume i Merged w) AwaitScroll page rows contacts.
Proof.
  intros H. pose proof H as (Ht & Hr & Hc & Hp & HR & HC). unfold resume. rewrite Hr.
  cbn [run_at run_job run_jobId]. unfold before_scroll.
  rewrite pause_not_wanted by done. by eapply on_page_wait.
Qed.

Lemma step_scrolled (w : World) (page rows contacts : Z) :
  on w AwaitScroll page rows contacts ->
  on (resume i Scrolled w) AwaitNextPage page rows contacts.
Proof.
  intros H. pose proof H as (Ht & Hr & Hc & Hp & HR & HC). unfold resume. rewrite Hr.
  cbn [run_at run_job run_jobId].
  rewrite pause_not_wanted by done. by eapply on_page_wait.
Qed.


Lemma step_navigated (w : World) (page rows contacts : Z) (nav : NavStatus) (url : string) :
  on w AwaitNextPage page rows contacts ->
  let page' := if decide (nav = Moved) then (page + 1)%Z else page in
  let w' := resume i (NextPage (Some nav) (Some url)) w in
  on w' (AwaitProgressSaved nav) page' rows contacts
  ∧ field w' job "pageIndex" = VNum page'
  ∧ field w' job "currentUrl" = VStr url
  ∧ field w' job "state" = field w job "state".
Proof.
  intros (Ht & Hr & Hc & Hp & HR & HC) page'. cbn zeta. unfold resume. rewrite Hr.
  cbn [run_at run_job run_jobId run_currentPage run_origin run_context].
  assert (Hpage : (if decide (nav = Moved) then increment (VNum page) else VNum page) = VNum page').
  { subst page'. by destruct (decide (nav = Moved)). }
  rewrite Hpage.
  set (w1 := set_field job "pageIndex" (VNum page') w).
  set (w2 := set_field job "currentUrl" (VStr url) w1).
  set (u := <["state" := field w2 job "state"]> (progress w2 job)).
  assert (Ht2 : tracked w2 id job).
  { apply tracked_set_field; [done|]. by apply tracked_set_field. }
  assert (Hu : own w2 job u) by (by apply own_state).
  assert (Hf : forall k, field (persist (Some id) u w2) job k = field w2 job k).
  { intros k. by apply field_persist_own. }
  assert (H3 : on (persist (Some id) u w2) AwaitNextPage page rows contacts).
  { split; [by apply tracked_persist|]. split; [by rewrite ScrapeRoutesFacts.runs_persist|].
    split; [by rewrite ScrapeStatusFacts.session_persist|].
    split; [by rewrite ScrapeStatusFacts.session_persist|].
    rewrite !Hf. subst w2 w1. rewrite !ScrapeRoutesFacts.field_set_field.
    split; (rewrite !decide_False; [done| by intros [_ [=]] | by intros [_ [=]]]). }
  split; [by eapply on_page_wait|].
  unfold wait, set_run. change (field (with_runs ?w ?r) ?l ?k) with (field w l k).
  rewrite !Hf. subst w2 w1. rewrite !ScrapeRoutesFacts.field_set_field.
  split; [|split].
  - rewrite decide_False by (by intros [_ [=]]). by rewrite decide_True.
  - by rewrite decide_True.
  - by rewrite !decide_False by (by intros [_ [=]]).
Qed.

Lemma step_saved_moved (w : World) (page rows contacts : Z) :
  on w (AwaitProgressSaved Moved) page rows contacts ->
  on (resume i ProgressSaved w) AwaitSignalHire page rows contacts.
Proof.
  intros H. pose proof H as (Ht & Hr & Hc & Hp & HR & HC). unfold resume. rewrite Hr.
  cbn [run_at run_job run_jobId]. unfold loop_top.
  rewrite pause_not_wanted by done. by eapply on_page_wait.
Qed.

(** One page from which the navigation moves on. *)
Lemma page_moved (w : World) (p : Page) (page rows contacts : Z) :
  on w AwaitSignalHire page rows contacts ->
  on (exec w (page_events i p Moved)) AwaitSignalHire (page + 1)
     (rows + Z.of_nat (page_rows p)) (contacts + Z.of_nat (contacts_of p)).
Proof.
  intros H. apply (step_rows _ _ _ _ (page_rows p)) in H.
  unfold page_events, contacts_of. destruct (page_rows p) as [|n].
  - cbn [exec foldl handle app]. change (Z.of_nat 0) with 0%Z in *. rewrite !Z.add_0_r in *.
    apply step_scrolled in H. apply (step_navigated _ _ _ _ Moved (page_url p)) in H as [H _].
    destruct (decide (Moved = Moved)) as [_|?]; [|done]. by apply step_saved_moved.
  - cbn [exec foldl handle app].
    apply (step_profiles _ _ _ _ (page_profiles p)) in H. apply step_merged in H.
    apply step_scrolled in H. apply (step_navigated _ _ _ _ Moved (page_url p)) in H as [H _].
    destruct (decide (Moved = Moved)) as [_|?]; [|done]. by apply step_saved_moved.
Qed.

Lemma pages_moved (ps : list Page) : forall (w : World) (page rows contacts : Z),
  on w AwaitSignalHire page rows contacts ->
  on (exec w (concat (map (fun p => page_events i p Moved) ps))) AwaitSignalHire
     (page + Z.of_nat (length ps)) (rows + total page_rows ps) (contacts + total contacts_of ps).
Proof.
  induction ps as [|p ps IH]; intros w page rows contacts H.
  - unfold total. cbn. by rewrite !Z.add_0_r.
  - cbn [map concat]. unfold exec. rewrite foldl_app. apply (page_moved _ p) in H.
    apply IH in H. unfold total in *. cbn [foldr length].
    replace (page + Z.of_nat (S (length ps)))%Z with (page + 1 + Z.of_nat (length ps))%Z by lia.
    rewrite !Nat2Z.inj_add, !Z.add_assoc. exact H.
Qed.


Lemma finish (w : World) (page rows contacts : Z) :
  on w (AwaitProgressSaved NoMore) page rows contacts ->
  let w' := resume i (Closed true) (resume i ProgressSaved w) in
  phase_of w' i = Some Finished
  ∧ isScraping (scrapeSession w') = false
  ∧ isPaused (scrapeSession w') = false
  ∧ contexts w' = contexts (close_context context w)
  ∧ field w' job "state" = VStr "completed"
  ∧ (forall k, k <> "state" -> field w' job k = field w job k)
  ∧ (forall k, field w' job k <> VUndef -> field w' job k <> VNaN ->
               get (job_file w' id) k = field w' job k).
Proof.
  intros (Ht & Hr & Hc & Hp & HR & HC).
  pose proof (lookup_lt_Some _ _ _ Hr) as Hi.
  set (r := mkRun (Some id) job origin context (VNum page) (AwaitProgressSaved NoMore)) in *.
  set (w0 := set_field job "state" (VStr "completed") w).
  set (w1 := set_isPaused false (set_isScraping false w0)).
  assert (E1 : resume i ProgressSaved w = wait i r (AwaitClose CloseCompleted) w1).
  { unfold resume. by rewrite Hr. }
  rewrite E1. clear E1.
  set (r' := at_phase r (AwaitClose CloseCompleted)).
  set (w2 := close_context context (wait i r (AwaitClose CloseCompleted) w1)).
  set (u := <["state" := VStr "completed"]> (progress w2 job)).
  assert (E2 : resume i (Closed true) (wait i r (AwaitClose CloseCompleted) w1)
               = wait i r' Finished (persist (Some id) u w2)).
  { unfold resume. unfold wait at 1, set_run at 1. cbn [runs with_runs].
    by rewrite list_lookup_insert_eq by exact Hi. }
  rewrite E2. clear E2. cbn zeta.
  assert (Ht0 : tracked w0 id job) by (by apply tracked_set_field).
  assert (Ht2 : tracked w2 id job).
  { apply (tracked_same_store w0); [by destruct context|by destruct context|exact Ht0]. }
  assert (Hf2 : forall k, field w2 job k = field w0 job k).
  { intros k. subst w2. by destruct context. }
  assert (Hu : own w2 job u).
  { apply own_state. rewrite Hf2. subst w0. rewrite ScrapeRoutesFacts.field_set_field.
    by rewrite decide_True. }
  assert (Hf : forall k, field (wait i r' Finished (persist (Some id) u w2)) job k
                         = field w0 job k).
  { intros k. unfold wait, set_run. change (field (with_runs ?w ?r) ?l ?k) with (field w l k).
    rewrite field_persist_own by done. apply Hf2. }
  split; [|split; [|split; [|split; [|split; [|split]]]]].
  - unfold wait at 1. rewrite ScrapeRoutesFacts.phase_of_set_run; [done|].
    rewrite ScrapeRoutesFacts.runs_persist. subst w2.
    rewrite ScrapeRoutesFacts.runs_close_context. unfold wait, set_run. cbn [runs with_runs].
    by rewrite length_insert.
  - unfold wait at 1. rewrite ScrapeStatusFacts.session_set_run, ScrapeStatusFacts.session_persist.
    subst w2. by rewrite ScrapeStatusFacts.session_close_context.
  - unfold wait at 1. rewrite ScrapeStatusFacts.session_set_run, ScrapeStatusFacts.session_persist.
    subst w2. by rewrite ScrapeStatusFacts.session_close_context.
  - unfold wait at 1, set_run at 1. cbn [contexts with_runs].
    rewrite ScrapeRoutesFacts.contexts_persist. subst w2. by destruct context.
  - rewrite Hf. subst w0. rewrite ScrapeRoutesFacts.field_set_field. by rewrite decide_True.
  - intros k Hk. rewrite Hf. subst w0. rewrite ScrapeRoutesFacts.field_set_field.
    rewrite decide_False; [done|]. by intros [_ ?].
  - intros k Hundef Hnan. rewrite Hf in *.
    unfold wait at 1, set_run at 1. change (job_file (with_runs ?w ?r) ?x) with (job_file w x).
    rewrite (job_file_persist_own w2 id job u k Ht2 Hu) by (rewrite ?Hf2; done). apply Hf2.
Qed.

End Steps.

Lemma contexts_set_field (job : loc) (k : string) (v : Val) (w : World) :
  contexts (set_field job k v w) = contexts w.
Proof. done. Qed.

Lemma contexts_set_run (i : nat) (r : Run) (w : World) :
  contexts (set_run i r w) = contexts w.
Proof. done. Qed.

Ltac contexts_after :=
  repeat first
    [ progress (unfold loop_top, before_scroll, pause_now, completed_now, page_error,
                caught_now, wait)
    | progress (rewrite ?contexts_set_field, ?ScrapeRoutesFacts.contexts_persist,
                        ?contexts_set_run)
    | progress cbn [contexts with_runs with_store with_session set_isScraping
                    set_isPaused set_pauseRequested set_currentJobId]
    | match goal with |- context [if ?b then _ else _] => destruct b end
    | match goal with |- context [match ?x with Some _ => _ | None => _ end] => destruct x end
    | match goal with |- context [match ?x with O => _ | S _ => _ end] => destruct x end ].

(** Browser contexts are opened by the launch and closed by
    [context.close()] only. *)
Lemma contexts_resume (i : nat) (a : Answer) (w : World) :
  (forall ok, a <> Launched ok) -> (forall ok, a <> Closed ok) ->
  contexts (resume i a w) = contexts w.
Proof.
  intros Hl Hc. unfold resume. destruct (runs w !! i) as [r|]; [|done].
  destruct (run_at r) as [| | | | | | | |nav|next|];
    destruct a as [ok|co sh|li|rows|pr| | |nav' url| |ok]; try done.
  all: try (by destruct (Hl ok)); try (by destruct (Hc ok)).
  all: try (destruct li as [[|]|]); try (destruct pr);
       try (destruct nav'); try (destruct nav); try (destruct next as [[|]| | | |]);
       try done.
  all: contexts_after; done.
Qed.

Lemma contexts_page (i : nat) (p : Page) (nav : NavStatus) (w : World) :
  contexts (exec w (page_events i p nav)) = contexts w.
Proof.
  unfold page_events. destruct (page_rows p); cbn [exec foldl handle app].
  all: by rewrite !contexts_resume by done.
Qed.

Lemma contexts_pages (i : nat) (ps : list Page) : forall w : World,
  contexts (exec w (concat (map (fun p => page_events i p Moved) ps))) = contexts w.
Proof.
  induction ps as [|p ps IH]; intros w; [done|].
  cbn [map concat]. unfold exec. rewrite foldl_app.
  etransitivity; [apply IH|]. apply contexts_page.
Qed.

Lemma total_app (f : Page -> nat) (ps : list Page) (last : Page) :
  total f (ps ++ [last]) = (total f ps + Z.of_nat (f last))%Z.
Proof.
  unfold total. induction ps as [|p ps IH]; cbn [foldr app]; lia.
Qed.

(** X14.  A run of the job of the session that no request interrupts and
    in which nothing throws: from the call of runSignalHire on a page,
    through pages from which the navigation moves on and a last page on
    which it answers 'no-more', runScrape returns with the job
    completed, the session neither running nor paused and the browser
    context closed.  The page index has grown by the number of moves,
    the totals by the rows of every page and by the profiles of the
    pages that had rows, the url is the one of the last page, and the
    file of the job holds these values. *)
Theorem run_to_the_last_page (i : nat) (id : string) (job : loc) (origin : Origin)
    (context : option nat) (w : World) (ps : list Page) (last : Page) (page rows contacts : Z) :
  on_page i id job origin context w AwaitSignalHire page rows contacts ->
  let w' := exec w (whole_run i ps last) in
  phase_of w' i = Some Finished
  ∧ isScraping (scrapeSession w') = false
  ∧ isPaused (scrapeSession w') = false
  ∧ contexts w' = contexts (close_context context w)
  ∧ field w' job "state" = VStr "completed"
  ∧ field w' job "pageIndex" = VNum (page + Z.of_nat (length ps))
  ∧ field w' job "currentUrl" = VStr (page_url last)
  ∧ field w' job "totalRows" = VNum (rows + total page_rows (ps ++ [last]))
  ∧ field w' job "totalContacts" = VNum (contacts + total contacts_of (ps ++ [last]))
  ∧ Forall (fun k => get (job_file w' id) k = field w' job k)
           ["state"; "pageIndex"; "currentUrl"; "totalRows"; "totalContacts"].
Proof.
  intros H. cbn zeta. unfold whole_run, exec. rewrite foldl_app.
  fold (exec w (concat (map (fun p => page_events i p Moved) ps))).
  pose proof (contexts_pages i ps w) as Hctx.
  apply (pages_moved _ _ _ _ _ ps) in H.
  set (w1 := exec w _) in *.
  rewrite !total_app, !Z.add_assoc.
  set (page1 := (page + Z.of_nat (length ps))%Z) in *.
  set (rows1 := (rows + total page_rows ps)%Z) in *.
  set (contacts1 := (contacts + total contacts_of ps)%Z) in *.
  assert (Hlast : exists w2,
    foldl handle w1 (page_events i last NoMore ++ [RunResumes i (Closed true)])
      = resume i (Closed true) (resume i ProgressSaved w2)
    ∧ on_page i id job origin context w2 (AwaitProgressSaved NoMore) page1
        (rows1 + Z.of_nat (page_rows last)) (contacts1 + Z.of_nat (contacts_of last))
    ∧ field w2 job "pageIndex" = VNum page1
    ∧ field w2 job "currentUrl" = VStr (page_url last)
    ∧ contexts w2 = contexts w1).
  { apply (step_rows _ _ _ _ _ _ _ _ _ (page_rows last)) in H.
    unfold page_events, contacts_of. destruct (page_rows last) as [|n].
    - cbn [foldl handle app]. change (Z.of_nat 0) with 0%Z in *. rewrite !Z.add_0_r in *.
      apply step_scrolled in H.
      apply (step_navigated _ _ _ _ _ _ _ _ _ NoMore (page_url last)) in H
        as (H & Hpage & Hurl & _).
      eexists. split; [reflexivity|]. split; [exact H|]. split; [exact Hpage|].
      split; [exact Hurl|]. by rewrite !contexts_resume.
    - cbn [foldl handle app].
      apply (step_profiles _ _ _ _ _ _ _ _ _ (page_profiles last)) in H. apply step_merged in H.
      apply step_scrolled in H.
      apply (step_navigated _ _ _ _ _ _ _ _ _ NoMore (page_url last)) in H
        as (H & Hpage & Hurl & _).
      eexists. split; [reflexivity|]. split; [exact H|]. split; [exact Hpage|].
      split; [exact Hurl|]. by rewrite !contexts_resume. }
  destruct Hlast as (w2 & -> & H2 & Hpage & Hurl & Hctx2).
  pose proof H2 as (_ & _ & _ & _ & HR & HC).
  destruct (finish _ _ _ _ _ _ _ _ _ H2) as (Hph & Hs & Hp & Hc & Hst & Hsame & Hfile).
  split; [exact Hph|]. split; [exact Hs|]. split; [exact Hp|].
  split; [rewrite Hc; destruct context; cbn [close_context contexts with_contexts]; congruence|].
  split; [exact Hst|].
  rewrite !Hsame by done. rewrite Hpage, Hurl, HR, HC.
  do 4 (split; [reflexivity|]).
  repeat constructor.
  all: rewrite Hfile; [reflexivity| |]; rewrite ?Hst, ?Hsame, ?Hpage, ?Hurl, ?HR, ?HC by done; done.
Qed.



Lemma run_to_the_last_page_witness :
  on_page 0 "A_t1" 2%positive (FromScrape "A_t1") (Some 0%nat) first_page AwaitSignalHire 1 0 0
  ∧ let w' := exec first_page (whole_run 0 [mkPage 25 20 "p2"; mkPage 0 7 "p3"] (mkPage 10 4 "p3")) in
    field w' 2%positive "pageIndex" = VNum 3
    ∧ field w' 2%positive "totalRows" = VNum 35
    ∧ field w' 2%positive "totalContacts" = VNum 24.
Proof.
  assert (H : on_page 0 "A_t1" 2%positive (FromScrape "A_t1") (Some 0%nat) first_page
                AwaitSignalHire 1 0 0).
  { repeat split; try (vm_compute; reflexivity). done. }
  split; [exact H|].
  destruct (run_to_the_last_page 0 "A_t1" 2%positive (FromScrape "A_t1") (Some 0%nat) first_page
              [mkPage 25 20 "p2"; mkPage 0 7 "p3"] (mkPage 10 4 "p3") 1 0 0 H)
    as (_ & _ & _ & _ & _ & Hpage & _ & Hrows & Hcontacts & _).
  split; [exact Hpage|]. split; [exact Hrows|exact Hcontacts].
Defined.

Section Pause.
Variables (i : nat) (id : string) (job : loc) (origin : Origin) (context : option nat).

Lemma pause_now_closed (w : World) (b : bool) (ph : Phase) (page : Z) :
  tracked w id job ->
  runs w !! i = Some (mkRun (Some id) job origin context (VNum page) ph) ->
  let r := mkRun (Some id) job origin context (VNum page) ph in
  let w2 := pause_now b i r w in
  let w3 := resume i (Closed true) w2 in
  (phase_of w2 i = Some (AwaitClose (ClosePaused b))
   ∧ scrapeSession w2
     = mkSession false (pauseRequested (scrapeSession w)) false (currentJobId (scrapeSession w))
   ∧ contexts w2 = contexts w)
  ∧ phase_of w3 i = Some Finished
  ∧ scrapeSession w3 = scrapeSession w2
  ∧ contexts w3 = contexts (close_context context w)
  ∧ tracked w3 id job
  ∧ field w3 job "state" = VStr "paused"
  ∧ field w3 job "pageIndex" = VNum page
  ∧ (forall k, k <> "state" -> k <> "pageIndex" -> field w3 job k = field w job k)
  ∧ (forall k, field w3 job k <> VUndef -> field w3 job k <> VNaN ->
               get (job_file w3 id) k = field w3 job k).
Proof.
  intros Ht Hr r w2 w3.
  pose proof (lookup_lt_Some _ _ _ Hr) as Hi.
  set (w0 := set_field job "state" (VStr "paused") (set_field job "pageIndex" (VNum page) w)).
  assert (Ht0 : tracked w0 id job).
  { apply tracked_set_field; [done|]. by apply tracked_set_field. }
  set (r' := at_phase r (AwaitClose (ClosePaused b))).
  set (w2' := close_context context w2).
  set (u := paused_fields w2' job).
  assert (E : w3 = wait i r' Finished (persist (Some id) u w2')).
  { subst w3. unfold resume. subst w2. unfold pause_now, wait at 1, set_run at 1.
    cbn [runs with_runs]. rewrite list_lookup_insert_eq by exact Hi. by destruct b. }
  assert (Ht2 : tracked w2' id job).
  { apply (tracked_same_store w0); [by destruct context|by destruct context|exact Ht0]. }
  assert (Hf2 : forall k, field w2' job k = field w0 job k).
  { intros k. subst w2'. by destruct context. }
  assert (Hstate : field w0 job "state" = VStr "paused").
  { subst w0. rewrite ScrapeRoutesFacts.field_set_field. by rewrite decide_True. }
  assert (Hu : own w2' job u).
  { apply own_state. by rewrite Hf2. }
  assert (Hf : forall k, field w3 job k = field w0 job k).
  { intros k. rewrite E. unfold wait, set_run.
    change (field (with_runs ?w ?r) ?l ?k) with (field w l k).
    rewrite field_persist_own by done. apply Hf2. }
  split; [split; [|split]|split; [|split; [|split; [|split; [|split; [|split; [|split]]]]]]].
  - subst w2. unfold pause_now, wait. rewrite ScrapeRoutesFacts.phase_of_set_run; [done|].
    exact Hi.
  - reflexivity.
  - reflexivity.
  - rewrite E. unfold wait at 1. rewrite ScrapeRoutesFacts.phase_of_set_run; [done|].
    rewrite ScrapeRoutesFacts.runs_persist. subst w2'.
    rewrite ScrapeRoutesFacts.runs_close_context. subst w2. unfold pause_now, wait, set_run.
    cbn [runs with_runs]. by rewrite length_insert.
  - rewrite E. unfold wait at 1.
    rewrite ScrapeStatusFacts.session_set_run, ScrapeStatusFacts.session_persist.
    subst w2'. by rewrite ScrapeStatusFacts.session_close_context.
  - rewrite E. unfold wait at 1, set_run at 1. cbn [contexts with_runs].
    rewrite ScrapeRoutesFacts.contexts_persist. subst w2'. by destruct context.
  - rewrite E. apply (tracked_same_store (persist (Some id) u w2')); [done..|].
    by apply tracked_persist.
  - by rewrite Hf.
  - rewrite Hf. subst w0. rewrite !ScrapeRoutesFacts.field_set_field.
    rewrite decide_False by (by intros [_ [=]]). by rewrite decide_True.
  - intros k Hk1 Hk2. rewrite Hf. subst w0. rewrite !ScrapeRoutesFacts.field_set_field.
    rewrite !decide_False; [done| |]; by intros [_ ?].
  - intros k Hundef Hnan. rewrite Hf in *. rewrite E.
    unfold wait at 1, set_run at 1. change (job_file (with_runs ?w ?r) ?x) with (job_file w x).
    rewrite (job_file_persist_own w2' id job u k Ht2 Hu) by (rewrite ?Hf2; done). apply Hf2.
Qed.

End Pause.

Lemma own_singleton (w : World) (job : loc) (k : string) (v : Val) :
  field w job k = v -> own w job {[ k := v ]}.
Proof. intros H k' v' Hk. by apply lookup_singleton_Some in Hk as [<- <-]. Qed.

(** X15.  POST /api/stop while the job of the session runs answers 200,
    requests the pause and marks the job as pausing, in memory and in
    its file.  The run then stops at its next check, which follows the
    answer of runSignalHire, a throw of runContactOut, the merge, the
    scroll, or the save after a move: the job is paused on the page the
    run was on, with the rows of that answer counted, the session is
    paused and not running, and the request is cleared.  Once
    [context.close()] has resolved, runScrape has returned, the browser
    context is closed and the file of the job holds the paused record. *)
Theorem stop_pauses_at_next_check (i : nat) (id : string) (job : loc) (origin : Origin)
    (context : option nat) (w : World) (ph : Phase) (page rows contacts : Z) (a : Answer) :
  on_page i id job origin context w ph page rows contacts ->
  isScraping (scrapeSession w) = true ->
  checked ph a = true ->
  let w1 := (post_stop w).1 in
  let w2 := resume i a w1 in
  let w3 := resume i (Closed true) w2 in
  (post_stop w).2 = 200%nat
  ∧ (pauseRequested (scrapeSession w1) = true
     ∧ field w1 job "state" = VStr "pausing"
     ∧ get (job_file w1 id) "state" = VStr "pausing")
  ∧ (exists b, phase_of w2 i = Some (AwaitClose (ClosePaused b)))
  ∧ scrapeSession w2 = mkSession false true false (Some id)
  ∧ phase_of w3 i = Some Finished
  ∧ scrapeSession w3 = mkSession false true false (Some id)
  ∧ contexts w3 = contexts (close_context context w)
  ∧ tracked w3 id job
  ∧ field w3 job "state" = VStr "paused"
  ∧ field w3 job "pageIndex" = VNum page
  ∧ field w3 job "totalRows" = VNum (rows + rows_in a)
  ∧ field w3 job "totalContacts" = VNum contacts
  ∧ Forall (fun k => get (job_file w3 id) k = field w3 job k)
           ["state"; "pageIndex"; "totalRows"; "totalContacts"].
Proof.
  intros (Ht & Hr & Hc & Hp & HR & HC) Hs Ha.
  pose proof Ht as (Hid & Hfind & _ & _).
  set (w0 := set_field job "state" (VStr "pausing") (set_pauseRequested true w)).
  set (u := {[ "state" := VStr "pausing" ]} : Obj).
  assert (E : post_stop w = (persist (Some id) u w0, 200%nat)).
  { unfold post_stop. rewrite Hc, Hs, Hfind.
    assert (String.eqb id "" = false) as -> by by apply String.eqb_neq. done. }
  rewrite E. cbn [fst snd]. clear E.
  assert (Ht0 : tracked w0 id job).
  { apply tracked_set_field; [done|]. by apply (tracked_same_store w). }
  assert (Hstate : field w0 job "state" = VStr "pausing").
  { subst w0. rewrite ScrapeRoutesFacts.field_set_field. by rewrite decide_True. }
  assert (Hu : own w0 job u) by (by apply own_singleton).
  set (w1 := persist (Some id) u w0).
  assert (Ht1 : tracked w1 id job) by (by apply tracked_persist).
  assert (Hf1 : forall k, field w1 job k = field w0 job k).
  { intros k. by apply field_persist_own. }
  assert (Hf0 : forall k, k <> "state" -> field w0 job k = field w job k).
  { intros k Hk. subst w0. rewrite ScrapeRoutesFacts.field_set_field.
    rewrite decide_False; [done|]. by intros [_ ?]. }
  assert (Hr1 : runs w1 !! i = Some (mkRun (Some id) job origin context (VNum page) ph)).
  { subst w1. by rewrite ScrapeRoutesFacts.runs_persist. }
  assert (Hs1 : scrapeSession w1 = mkSession true (isPaused (scrapeSession w)) true (Some id)).
  { subst w1. rewrite ScrapeStatusFacts.session_persist. subst w0.
    rewrite ScrapeStatusFacts.session_set_field. cbn. by rewrite Hs, Hc. }
  assert (Hc1 : contexts w1 = contexts w).
  { subst w1. by rewrite ScrapeRoutesFacts.contexts_persist. }
  assert (Hwanted : forall w' r, pauseRequested (scrapeSession w') = true -> pause_wanted w' r = true).
  { intros w' r H. unfold pause_wanted. rewrite H. apply orb_true_r. }
  assert (Hnext : exists b w',
    resume i a w1 = pause_now b i (mkRun (Some id) job origin context (VNum page) ph) w'
    ∧ tracked w' id job
    ∧ runs w' !! i = Some (mkRun (Some id) job origin context (VNum page) ph)
    ∧ scrapeSession w' = scrapeSession w1
    ∧ contexts w' = contexts w1
    ∧ field w' job "totalRows" = VNum (rows + rows_in a)
    ∧ field w' job "totalContacts" = VNum contacts).
  { unfold resume. rewrite Hr1. cbn [run_at run_job run_jobId].
    destruct ph as [| | | | | | | |[| |]| |]; destruct a as [| | |n|[n|]| | | | |]; try done.
    - exists true. eexists. rewrite Hwanted; [split; [reflexivity|]|].
      + split; [destruct n; [by apply tracked_set_field|done]|].
        split; [by destruct n|]. split; [by destruct n|]. split; [by destruct n|].
        rewrite Hf1, Hf0, HR by done. destruct n as [n|]; cbn [add_num rows_in].
        * rewrite !ScrapeRoutesFacts.field_set_field. rewrite decide_True by done.
          rewrite decide_False by (by intros [_ [=]]). by rewrite Hf1, Hf0, HC.
        * by rewrite Z.add_0_r, Hf1, Hf0, HR, Hf1, Hf0, HC.
      + destruct n; by rewrite ?ScrapeStatusFacts.session_set_field, Hs1.
    - exists true, w1. unfold before_scroll. rewrite Hwanted by (by rewrite Hs1).
      cbn [rows_in]. by rewrite !Hf1, !Hf0, HR, HC, Z.add_0_r.
    - exists true, w1. unfold before_scroll. rewrite Hwanted by (by rewrite Hs1).
      cbn [rows_in]. by rewrite !Hf1, !Hf0, HR, HC, Z.add_0_r.
    - exists true, w1. rewrite Hwanted by (by rewrite Hs1).
      cbn [rows_in]. by rewrite !Hf1, !Hf0, HR, HC, Z.add_0_r.
    - exists false, w1. unfold loop_top. rewrite Hwanted by (by rewrite Hs1).
      cbn [rows_in]. by rewrite !Hf1, !Hf0, HR, HC, Z.add_0_r. }
  destruct Hnext as (b & w' & -> & Ht' & Hr' & Hs' & Hc' & HR' & HC').
  destruct (pause_now_closed i id job origin context w' b ph page Ht' Hr')
    as ((Hph2 & Hs2 & Hc2) & Hph3 & Hs3 & Hc3 & Htr3 & Hst3 & Hpg3 & Hsame & Hfile).
  cbn zeta.
  split; [done|]. split.
  { split; [by rewrite Hs1|]. split; [by rewrite Hf1|].
    subst w1. by rewrite (job_file_persist_own w0 id job u "state" Ht0 Hu) by (by rewrite Hstate). }
  split; [by exists b|].
  rewrite Hs3, Hs2, Hs', Hs1. cbn [pauseRequested currentJobId].
  split; [done|]. split; [done|]. split; [done|].
  split.
  { rewrite Hc3. destruct context; cbn [close_context contexts with_contexts]; by rewrite Hc', Hc1. }
  split; [done|]. split; [done|]. split; [done|].
  rewrite !Hsame by done. rewrite HR', HC'. split; [done|]. split; [done|].
  repeat constructor.
  all: rewrite Hfile; [reflexivity| |]; rewrite ?Hst3, ?Hpg3, ?Hsame, ?HR', ?HC' by done; done.
Qed.

Lemma stop_pauses_at_next_check_witness :
  (on_page 0 "A_t1" 2%positive (FromScrape "A_t1") (Some 0%nat) first_page AwaitSignalHire 1 0 0
   ∧ isScraping (scrapeSession first_page) = true
   ∧ checked AwaitSignalHire (SignalHire (Some 3)) = true)
  ∧ field paused_on_first_page 2%positive "state" = VStr "paused"
  ∧ field paused_on_first_page 2%positive "totalRows" = VNum 3
  ∧ scrapeSession paused_on_first_page = mkSession false true false (Some "A_t1").
Proof.
  assert (H : on_page 0 "A_t1" 2%positive (FromScrape "A_t1") (Some 0%nat) first_page
                AwaitSignalHire 1 0 0).
  { repeat split; try (vm_compute; reflexivity). done. }
  split; [by repeat split|].
  destruct (stop_pauses_at_next_check 0 "A_t1" 2%positive (FromScrape "A_t1") (Some 0%nat)
              first_page AwaitSignalHire 1 0 0 (SignalHire (Some 3)) H eq_refl eq_refl)
    as (_ & _ & _ & _ & _ & Hsession & _ & _ & Hstate & _ & Hrows & _).
  split; [exact Hstate|]. split; [exact Hrows|exact Hsession].
Defined.

Lemma lookup_set_run (i : nat) (r : Run) (w : World) :
  i < length (runs w) -> runs (set_run i r w) !! i = Some r.
Proof. intros Hi. unfold set_run. cbn [runs with_runs]. by rewrite list_lookup_insert_eq. Qed.

(** X24.  When clickNextPage answers 'failed', the progress is saved and
    the job is paused where it is: once [context.close()] has resolved,
    runScrape has returned, the browser context is closed, the session
    is paused and not running, and the job is paused on the page it was
    on, with the url read after the navigation and its totals, in memory
    and in its file.  The session still names the job, so that POST
    /api/resume takes it up again. *)
Theorem navigation_failure_pauses (i : nat) (id : string) (job : loc) (origin : Origin)
    (context : option nat) (w : World) (page rows contacts : Z) (url : string) :
  on_page i id job origin context w AwaitNextPage page rows contacts ->
  let w' := exec w [ RunResumes i (NextPage (Some Failed) (Some url));
                     RunResumes i ProgressSaved; RunResumes i (Closed true) ] in
  phase_of w' i = Some Finished
  ∧ scrapeSession w' = mkSession false true false (Some id)
  ∧ contexts w' = contexts (close_context context w)
  ∧ tracked w' id job
  ∧ field w' job "state" = VStr "paused"
  ∧ field w' job "pageIndex" = VNum page
  ∧ field w' job "currentUrl" = VStr url
  ∧ field w' job "totalRows" = VNum rows
  ∧ field w' job "totalContacts" = VNum contacts
  ∧ Forall (fun k => get (job_file w' id) k = field w' job k)
           ["state"; "pageIndex"; "currentUrl"; "totalRows"; "totalContacts"].
Proof.
  intros H. cbn zeta. cbn [exec foldl handle].
  pose proof H as (_ & _ & Hc0 & _).
  assert (Hctx : contexts (resume i (NextPage (Some Failed) (Some url)) w) = contexts w).
  { by apply contexts_resume. }
  apply (step_navigated i id job origin context w page rows contacts Failed url) in H
    as (H & Hpage & Hurl & _).
  destruct (decide (Failed = Moved)) as [?|_]; [done|].
  set (w1 := resume i (NextPage (Some Failed) (Some url)) w) in *.
  destruct H as (Ht & Hr & Hc & Hp & HR & HC).
  pose proof (lookup_lt_Some _ _ _ Hr) as Hi.
  set (r := mkRun (Some id) job origin context (VNum page) (AwaitProgressSaved Failed)) in *.
  set (w0 := set_field job "state" (VStr "paused") w1).
  set (w2 := set_pauseRequested false (set_isPaused true (set_isScraping false w0))).
  assert (E1 : resume i ProgressSaved w1 = wait i r (AwaitClose CloseFailed) w2).
  { unfold resume. by rewrite Hr. }
  rewrite E1. clear E1.
  set (r' := at_phase r (AwaitClose CloseFailed)).
  set (w3 := close_context context (wait i r (AwaitClose CloseFailed) w2)).
  set (u := paused_fields w3 job).
  assert (E2 : resume i (Closed true) (wait i r (AwaitClose CloseFailed) w2)
               = wait i r' Finished (persist (Some id) u w3)).
  { unfold resume. unfold wait at 1, set_run at 1. cbn [runs with_runs].
    by rewrite list_lookup_insert_eq by exact Hi. }
  rewrite E2. clear E2.
  assert (Ht0 : tracked w0 id job) by (by apply tracked_set_field).
  assert (Ht3 : tracked w3 id job).
  { apply (tracked_same_store w0); [by destruct context|by destruct context|exact Ht0]. }
  assert (Hf3 : forall k, field w3 job k = field w0 job k).
  { intros k. subst w3. by destruct context. }
  assert (Hstate : field w0 job "state" = VStr "paused") by apply field_set_field_eq.
  assert (Hu : own w3 job u).
  { apply own_state. by rewrite Hf3. }
  assert (Hf : forall k, field (wait i r' Finished (persist (Some id) u w3)) job k
                         = field w0 job k).
  { intros k. unfold wait, set_run. change (field (with_runs ?w ?r) ?l ?k) with (field w l k).
    rewrite field_persist_own by done. apply Hf3. }
  assert (Hsame : forall k, k <> "state" -> field w0 job k = field w1 job k).
  { intros k Hk. by apply field_set_field_ne. }
  split; [|split; [|split; [|split]]].
  - unfold wait at 1. rewrite ScrapeRoutesFacts.phase_of_set_run; [done|].
    rewrite ScrapeRoutesFacts.runs_persist. subst w3.
    rewrite ScrapeRoutesFacts.runs_close_context. unfold wait, set_run. cbn [runs with_runs].
    by rewrite length_insert.
  - unfold wait at 1. rewrite ScrapeStatusFacts.session_set_run, ScrapeStatusFacts.session_persist.
    subst w3. rewrite ScrapeStatusFacts.session_close_context. cbn. by rewrite Hc.
  - unfold wait at 1, set_run at 1. cbn [contexts with_runs].
    rewrite ScrapeRoutesFacts.contexts_persist. subst w3.
    destruct context; cbn [close_context contexts with_contexts wait set_run with_runs];
      by rewrite <- Hctx.
  - apply (tracked_same_store (persist (Some id) u w3)); [done..|]. by apply tracked_persist.
  - rewrite !Hf, Hstate, !Hsame, Hpage, Hurl, HR, HC by done.
    do 5 (split; [reflexivity|]).
    repeat constructor.
    all: rewrite Hf.
    all: unfold wait at 1, set_run at 1; change (job_file (with_runs ?w ?r) ?x) with (job_file w x).
    all: rewrite (job_file_persist_own w3 id job u _ Ht3 Hu); rewrite ?Hf3; [reflexivity|..].
    all: first [ rewrite Hstate | rewrite Hsame by done ].
    all: rewrite ?Hpage, ?Hurl, ?HR, ?HC; done.
Qed.

Lemma navigation_failure_pauses_witness :
  on_page 0 "A_t1" 2%positive (FromScrape "A_t1") (Some 0%nat)
    scrolled_first_page AwaitNextPage 1 0 0
  ∧ scrapeSession (exec scrolled_first_page
                     [ RunResumes 0 (NextPage (Some Failed) (Some "p1"));
                       RunResumes 0 ProgressSaved; RunResumes 0 (Closed true) ])
    = mkSession false true false (Some "A_t1").
Proof.
  assert (H : on_page 0 "A_t1" 2%positive (FromScrape "A_t1") (Some 0%nat)
                scrolled_first_page AwaitNextPage 1 0 0).
  { repeat split; try (vm_compute; reflexivity). done. }
  split; [exact H|].
  destruct (navigation_failure_pauses 0 "A_t1" 2%positive (FromScrape "A_t1") (Some 0%nat)
              scrolled_first_page 1 0 0 "p1" H) as (_ & Hsession & _).
  exact Hsession.
Defined.

(** A run that was just started gets through its preparation. *)
Lemma prepared_reaches_first_call (i : nat) (id : string) (job : loc) (origin : Origin)
    (w : World) (page rows contacts : Z) :
  tracked w id job ->
  runs w !! i = Some (mkRun (Some id) job origin None VUndef AwaitLaunch) ->
  currentJobId (scrapeSession w) = Some id ->
  pauseRequested (scrapeSession w) = false ->
  field w job "pageIndex" = VNum page ->
  field w job "totalRows" = VNum rows ->
  field w job "totalContacts" = VNum contacts ->
  let w' := exec w (prepared i) in
  on_page i id job origin (Some (length (contexts w))) w' AwaitSignalHire page
    (if decide (page = 1%Z) then 0%Z else rows) (if decide (page = 1%Z) then 0%Z else contacts)
  ∧ scrapeSession w' = mkSession true false false (Some id)
  ∧ contexts w' = contexts w ++ [true]
  ∧ field w' job "state" = field w job "state".
Proof.
  intros Ht Hi Hc Hp Hpage HR HC.
  pose proof (lookup_lt_Some _ _ _ Hi) as Hlt.
  set (r0 := mkRun (Some id) job origin None VUndef AwaitLaunch) in *.
  set (c := length (contexts w)).
  set (r1 := mkRun (Some id) job origin (Some c) VUndef AwaitLogins).
  set (wD := set_run i r1 (with_contexts w (contexts w ++ [true]))).
  assert (E2 : resume i (Launched true) w = wD).
  { unfold resume. by rewrite Hi. }
  assert (HiD : runs wD !! i = Some r1) by (by apply lookup_set_run).
  set (wE := wait i r1 AwaitLinkedIn wD).
  assert (E3 : resume i (Logins true true) wD = wE).
  { unfold resume. by rewrite HiD. }
  assert (HiE : runs wE !! i = Some (at_phase r1 AwaitLinkedIn)).
  { apply lookup_set_run. by apply lookup_lt_Some in HiD. }
  assert (HtE : tracked wE id job) by (by apply (tracked_same_store w)).
  assert (HfE : forall k, field wE job k = field w job k) by done.
  set (wF := if bool_decide (field wE job "pageIndex" = VNum 1)
             then set_field job "totalContacts" (VNum 0) (set_field job "totalRows" (VNum 0) wE)
             else wE).
  set (wG := set_isPaused false (set_isScraping true wF)).
  set (r2 := mkRun (Some id) job origin (Some c) (VNum page) AwaitLinkedIn).
  assert (HtF : tracked wF id job).
  { subst wF. destruct (bool_decide _); [|done].
    apply tracked_set_field; [done|]. by apply tracked_set_field. }
  assert (HfF : field wF job "pageIndex" = VNum page
                ∧ field wF job "state" = field w job "state"
                ∧ field wF job "totalRows" = VNum (if decide (page = 1%Z) then 0%Z else rows)
                ∧ field wF job "totalContacts"
                  = VNum (if decide (page = 1%Z) then 0%Z else contacts)).
  { subst wF. rewrite HfE, Hpage.
    destruct (decide (page = 1%Z)) as [->|Hne].
    - rewrite bool_decide_eq_true_2 by done. read_fields. by rewrite !HfE, Hpage.
    - rewrite bool_decide_eq_false_2 by congruence. by rewrite !HfE, Hpage, HR, HC. }
  destruct HfF as (HpF & HstF & HRF & HCF).
  assert (HsG : scrapeSession wG = mkSession true false false (Some id)).
  { subst wG. cbn. replace (scrapeSession wF) with (scrapeSession w).
    - by rewrite Hp, Hc.
    - subst wF. by destruct (bool_decide _). }
  assert (HrG : runs wG = runs wE).
  { subst wG wF. by destruct (bool_decide _). }
  assert (E4 : resume i (LinkedIn (Some true)) wE = wait i r2 AwaitSignalHire wG).
  { unfold resume. rewrite HiE.
    cbn [run_at run_job run_jobId run_origin run_currentPage run_context at_phase r1].
    fold wF wG. unfold loop_top.
    replace (field wG job "pageIndex") with (VNum page) by (by rewrite <- HpF).
    fold r2. rewrite pause_not_wanted; [done| |]; by rewrite HsG. }
  cbn zeta. unfold prepared. cbn [exec foldl handle]. rewrite E2, E3, E4.
  assert (HcG : contexts wG = contexts w ++ [true]).
  { subst wG wF. by destruct (bool_decide _). }
  split; [|split; [exact HsG|split; [exact HcG|exact HstF]]].
  split; [by apply (tracked_same_store wF)|].
  split. { apply lookup_set_run. rewrite HrG. by apply lookup_lt_Some in HiE. }
  split; [change (currentJobId (scrapeSession wG) = Some id); by rewrite HsG|].
  split; [change (pauseRequested (scrapeSession wG) = false); by rewrite HsG|].
  done.
Qed.


(** X16.  POST /api/resume on the paused job of the session, with the
    cookie file in place, answers 200, marks the job as running in
    memory and in its file, and starts a new run.  When the browser
    starts, both sidebars are logged in and the LinkedIn cookie is
    valid, that run calls runSignalHire on the page on which the job was
    paused, in a new browser context, with the session running and not
    paused.  The totals are the ones of the paused job, except on page
    1, where they start again from 0. *)
Theorem resume_continues_on_saved_page (id : string) (job : loc) (w : World)
    (page rows contacts : Z) :
  tracked w id job ->
  currentJobId (scrapeSession w) = Some id ->
  isPaused (scrapeSession w) = true ->
  cookieFile w = true ->
  field w job "pageIndex" = VNum page ->
  field w job "totalRows" = VNum rows ->
  field w job "totalContacts" = VNum contacts ->
  let i := length (runs w) in
  let w1 := (post_resume w).1 in
  let w2 := exec w1 (prepared i) in
  (post_resume w).2 = 200%nat
  ∧ field w1 job "state" = VStr "running"
  ∧ get (job_file w1 id) "state" = VStr "running"
  ∧ phase_of w1 i = Some AwaitLaunch
  ∧ on_page i id job (FromResume id) (Some (length (contexts w))) w2 AwaitSignalHire page
       (if decide (page = 1%Z) then 0%Z else rows) (if decide (page = 1%Z) then 0%Z else contacts)
  ∧ scrapeSession w2 = mkSession true false false (Some id)
  ∧ contexts w2 = contexts w ++ [true]
  ∧ field w2 job "state" = VStr "running".
Proof.
  intros Ht Hc Hp Hcookie Hpage HR HC i.
  pose proof Ht as (Hid & Hfind & _ & _).
  set (w0 := set_field job "state" (VStr "running") w).
  set (u := {[ "state" := VStr "running" ]} : Obj).
  set (wA := persist (Some id) u w0).
  set (wB := set_pauseRequested false (set_isScraping true (set_isPaused false wA))).
  set (r0 := mkRun (Some id) job (FromResume id) None VUndef AwaitLaunch).
  set (wC := with_runs wB (runs w ++ [r0])).
  assert (Ht0 : tracked w0 id job) by (by apply tracked_set_field).
  assert (Hstate : field w0 job "state" = VStr "running").
  { subst w0. apply field_set_field_eq. }
  assert (Hu : own w0 job u) by (by apply own_singleton).
  assert (HtA : tracked wA id job) by (by apply tracked_persist).
  assert (HfA : forall k, field wA job k = field w0 job k).
  { intros k. by apply field_persist_own. }
  assert (Hf0 : forall k, k <> "state" -> field w0 job k = field w job k).
  { intros k Hk. subst w0. by apply field_set_field_ne. }
  assert (HrA : runs wA = runs w) by (subst wA; by rewrite ScrapeRoutesFacts.runs_persist).
  assert (HsA : currentJobId (scrapeSession wA) = Some id).
  { subst wA. by rewrite ScrapeStatusFacts.session_persist. }
  assert (HcA : contexts wA = contexts w).
  { subst wA. by rewrite ScrapeRoutesFacts.contexts_persist. }
  assert (HtB : tracked wB id job) by (by apply (tracked_same_store wA)).
  assert (E1 : post_resume w = (wC, 200%nat)).
  { unfold post_resume. rewrite Hc, Hp, Hfind.
    assert (String.eqb id "" = false) as -> by by apply String.eqb_neq.
    cbn [negb orb]. f_equal. fold w0 u wA wB. unfold runScrape.
    destruct HtB as (_ & HfindB & _ & _).
    replace (currentJobId (scrapeSession wB)) with (Some id) by (by rewrite <- HsA).
    change (key_of (Some id)) with id. rewrite HfindB.
    replace (cookieFile wB) with true by done. cbn [negb].
    subst wC. replace (runs wB) with (runs w) by (by rewrite <- HrA). done. }
  rewrite E1. cbn [fst snd]. clear E1.
  assert (HtC : tracked wC id job) by (by apply (tracked_same_store wB)).
  assert (HfC : forall k, field wC job k = field w0 job k) by apply HfA.
  assert (HiC : runs wC !! i = Some r0).
  { subst wC i. cbn [runs with_runs]. by rewrite list_lookup_middle. }
  destruct (prepared_reaches_first_call i id job (FromResume id) wC page rows contacts)
    as (Hon & Hsession & Hcontexts & Hst); try done.
  - by rewrite HfC, Hf0.
  - by rewrite HfC, Hf0.
  - by rewrite HfC, Hf0.
  - cbn zeta. split; [done|]. split; [by rewrite HfC|]. split.
    { change (get (job_file wA id) "state" = VStr "running"). subst wA.
      by rewrite (job_file_persist_own w0 id job u "state" Ht0 Hu) by (by rewrite Hstate). }
    split; [unfold phase_of; by rewrite HiC|].
    change (contexts wC) with (contexts wA) in Hon, Hcontexts. rewrite HcA in Hon, Hcontexts.
    split; [exact Hon|]. split; [exact Hsession|]. split; [exact Hcontexts|].
    by rewrite Hst, HfC.
Qed.

Lemma resume_continues_on_saved_page_witness :
  (tracked paused_on_first_page "A_t1" 2%positive
   ∧ currentJobId (scrapeSession paused_on_first_page) = Some "A_t1"
   ∧ isPaused (scrapeSession paused_on_first_page) = true
   ∧ cookieFile paused_on_first_page = true
   ∧ field paused_on_first_page 2%positive "pageIndex" = VNum 1
   ∧ field paused_on_first_page 2%positive "totalRows" = VNum 3
   ∧ field paused_on_first_page 2%positive "totalContacts" = VNum 0)
  ∧ on_page 1 "A_t1" 2%positive (FromResume "A_t1") (Some 1%nat)
      (exec (post_resume paused_on_first_page).1 (prepared 1)) AwaitSignalHire 1 0 0.
Proof.
  assert (Ht : tracked paused_on_first_page "A_t1" 2%positive).
  { repeat split; try (vm_compute; reflexivity). done. }
  split; [by repeat split|].
  destruct (resume_continues_on_saved_page "A_t1" 2%positive paused_on_first_page 1 3 0
              Ht eq_refl eq_refl eq_refl eq_refl eq_refl eq_refl)
    as (_ & _ & _ & _ & Hon & _).
  exact Hon.
Defined.

End ScrapeRunFacts.

(* ===================================================================== *)
(** ** utils/saveProfilesCsv.js: the text that is written *)
(* ===================================================================== *)

Module CsvLinesFacts.
Import JS Fs SaveProfilesCsv CsvLines.



















End CsvLinesFacts.

(* ===================================================================== *)
(** ** signalHire/index.js: the rows that runSignalHire returns *)
(* ===================================================================== *)

Module SignalHireRowsFacts.
Import JS Fs SignalHire SignalHireRows.










Section Run.

Variable csv_module : bool.
Variable parse : string -> option (list Csv.Row).
Variable upgradeCsvAddEmailOnly : FS -> string -> FS.
Variable path_resolve : string -> string.
Variable path_dirname : string -> string.
Variable DEFAULT_OUTPUT_CSV : string.


End Run.

End SignalHireRowsFacts.

(* ===================================================================== *)
(** ** The ids of the job records: properties *)
(* ===================================================================== *)

Module JobIdsFacts.
Import JS JobIds.

Lemma keyed_allocated (h : Heap) (dict : loc) (k : string) (job : loc) :
  keyed h dict -> read_map h dict !! k = Some job -> is_Some (objects h !! job).
Proof.
  intros Hk Hjob. destruct (Hk k job Hjob) as [Ht _].
  unfold read_object in Ht. destruct (objects h !! job); [eauto|done].
Qed.

Lemma keyed_write_object (h : Heap) (dict l : loc) (o : Obj) :
  keyed h dict ->
  (is_Some (objects h !! l) -> get o "id" = get (read_object h l) "id") ->
  keyed (write_object h l o) dict.
Proof.
  intros Hk Ho k job Hjob. rewrite JobsManagerFacts.read_map_write_object in Hjob.
  destruct (Hk k job Hjob) as [Ht Hs].
  destruct (decide (job = l)) as [->|Hne].
  - rewrite JobsManagerFacts.read_object_write.
    rewrite Ho by (by eapply keyed_allocated). done.
  - unfold read_object, write_object in *. cbn. by rewrite lookup_insert_ne.
Qed.

Lemma keyed_map_set (h : Heap) (dict d : loc) (k : string) (job : loc) :
  keyed h dict ->
  truthy (get (read_object h job) "id") = true ->
  to_string (get (read_object h job) "id") = k ->
  keyed (map_set h d k job) dict.
Proof.
  intros Hk Ht Hs k' job' Hjob. rewrite JobsManagerFacts.read_object_map_set.
  destruct (decide (dict = d)) as [->|Hne].
  - rewrite JobsManagerFacts.read_map_map_set in Hjob.
    apply lookup_insert_Some in Hjob as [[<- <-]|[_ Hjob]]; [done|]. by apply Hk.
  - apply Hk. unfold read_map, map_set, write_map in *. cbn in Hjob.
    by rewrite lookup_insert_ne in Hjob.
Qed.

Lemma keyed_map_delete (h : Heap) (dict d : loc) (k : string) :
  keyed h dict -> keyed (map_delete h d k) dict.
Proof.
  intros Hk k' job' Hjob. change (read_object (map_delete h d k) job') with (read_object h job').
  apply Hk. destruct (decide (dict = d)) as [->|Hne].
  - unfold read_map, map_delete, write_map in Hjob. cbn in Hjob.
    rewrite lookup_insert_eq in Hjob. cbn in Hjob.
    by apply lookup_delete_Some in Hjob as [_ Hjob].
  - unfold read_map, map_delete, write_map in *. cbn in Hjob.
    by rewrite lookup_insert_ne in Hjob.
Qed.

Lemma keyed_saveJob (job : loc) (s : State) (dict : loc) :
  keyed (heap s) dict -> keyed (heap (saveJob job s).1) dict.
Proof.
  intros Hk. unfold saveJob.
  destruct (truthy (get (read_object (heap s) job) "id")) eqn:Ht; [|done].
  cbn [negb fst heap]. by apply keyed_map_set.
Qed.

Lemma keyed_updateJob (jobId : string) (updates : Obj) (s : State) (dict : loc) :
  updates !! "id" = None ->
  keyed (heap s) dict -> keyed (heap (updateJob jobId updates s).1) dict.
Proof.
  intros Hu Hk. unfold updateJob. destruct (String.eqb jobId ""); [done|].
  assert (Hid : forall o : Obj, get (assign o updates) "id" = get o "id").
  { intros o. unfold get, assign. by rewrite lookup_union_r. }
  destruct (getJob s jobId) as [job|] eqn:Hjob.
  - apply keyed_saveJob. cbn [heap with_heap]. apply keyed_write_object; [done|].
    intros _. apply Hid.
  - unfold new_object. apply keyed_saveJob. cbn [heap with_heap].
    apply keyed_write_object.
    + apply keyed_write_object; [done|]. intros Hal.
      by destruct (JobsStartupFacts.fresh_object _ _ Hal).
    + intros _. apply Hid.
Qed.

Lemma jobsCache_saveJob (job : loc) (s : State) : jobsCache (saveJob job s).1 = jobsCache s.
Proof. unfold saveJob. by destruct (negb _). Qed.

Lemma jobsCache_updateJob (jobId : string) (updates : Obj) (s : State) :
  jobsCache (updateJob jobId updates s).1 = jobsCache s.
Proof.
  unfold updateJob. destruct (String.eqb jobId ""); [done|].
  destruct (getJob s jobId); [|destruct (new_object (heap s))]; by rewrite jobsCache_saveJob.
Qed.

Lemma consistent_same (w w' : World) :
  store w' = store w -> jobs w' = jobs w -> consistent w -> consistent w'.
Proof. intros Hs Hj. unfold consistent. by rewrite Hs, Hj. Qed.

Lemma consistent_set_field (l : loc) (k : string) (v : Val) (w : World) :
  k <> "id" -> consistent w -> consistent (set_field l k v w).
Proof.
  intros Hk (Hc & Ha & Hn).
  assert (Hid : get (<[k := v]> (read_object (heap (store w)) l)) "id"
                = get (read_object (heap (store w)) l) "id").
  { unfold get. by rewrite lookup_insert_ne. }
  split; [|split]; [by apply keyed_write_object..|done].
Qed.

Lemma consistent_persist (jobId : option string) (updates : Obj) (w : World) :
  updates !! "id" = None -> consistent w -> consistent (persist jobId updates w).
Proof.
  intros Hu (Hc & Ha & Hn). destruct jobId as [id|]; [|done].
  unfold persist, consistent. cbn [store with_store jobs]. rewrite jobsCache_updateJob.
  split; [|split]; [by apply keyed_updateJob..|by apply JobsStartupFacts.well_named_updateJob].
Qed.

Lemma consistent_setJob (job : loc) (w : World) :
  consistent w -> consistent (with_store w (setJob job (store w)).1).
Proof.
  intros (Hc & Ha & Hn). unfold consistent, setJob. cbn [store with_store jobs].
  rewrite jobsCache_saveJob.
  split; [|split]; [by apply keyed_saveJob..|by apply JobsStartupFacts.well_named_saveJob].
Qed.

Lemma consistent_deleteJobFile (id : string) (w : World) :
  consistent w -> consistent (with_store w (deleteJobFile id (store w))).
Proof.
  intros (Hc & Ha & Hn). unfold consistent. cbn [store with_store jobs].
  split; [|split]; [| |by apply JobsStartupFacts.well_named_deleteJobFile].
  all: unfold deleteJobFile; destruct (String.eqb id ""); [done|]; by apply keyed_map_delete.
Qed.

Lemma write_object_twice (h : Heap) (l : loc) (o o' : Obj) :
  write_object (write_object h l o) l o' = write_object h l o'.
Proof. unfold write_object. cbn. by rewrite insert_insert_eq. Qed.

Lemma job_id_not_empty (a b : string) : a +:+ "_" +:+ b <> "".
Proof. by destruct a. Qed.

Lemma consistent_new_job (w : World) (jobId : string) (record : Obj) :
  consistent w -> get record "id" = VStr jobId -> jobId <> "" ->
  consistent
    (with_store w
       (with_heap (store w)
          (map_set (write_object (new_object (heap (store w))).2 (new_object (heap (store w))).1
                      record)
                   (jobs w) jobId (new_object (heap (store w))).1))).
Proof.
  intros (Hc & Ha & Hn) Hid Hne. unfold new_object. cbn [fst snd]. rewrite write_object_twice.
  set (job := fresh (allocated (heap (store w)))).
  assert (Hfresh : forall dict, keyed (heap (store w)) dict ->
                                keyed (write_object (heap (store w)) job record) dict).
  { intros dict Hk. apply keyed_write_object; [done|]. intros Hal.
    by destruct (JobsStartupFacts.fresh_object _ _ Hal). }
  assert (Hrec : truthy (get (read_object (write_object (heap (store w)) job record) job) "id") = true
                 ∧ to_string (get (read_object (write_object (heap (store w)) job record) job) "id")
                   = jobId).
  { rewrite JobsManagerFacts.read_object_write, Hid. cbn [truthy to_string].
    split; [|done]. apply negb_true_iff. by apply String.eqb_neq. }
  destruct Hrec as [Ht Hs].
  unfold consistent. cbn [store with_store heap with_heap jobsCache jobs].
  split; [|split]; [apply keyed_map_set; auto..|done].
Qed.

Ltac no_id :=
  unfold paused_fields, progress;
  rewrite ?lookup_insert_ne by done;
  by rewrite lookup_singleton_ne.

Lemma consistent_session (w : World) (s : Session) :
  consistent w -> consistent (with_session w s).
Proof. done. Qed.

Lemma consistent_runs (w : World) (r : list Run) : consistent w -> consistent (with_runs w r).
Proof. done. Qed.

Lemma consistent_contexts (w : World) (c : list bool) :
  consistent w -> consistent (with_contexts w c).
Proof. done. Qed.

Lemma consistent_creating (w : World) (c : list Creating) :
  consistent w -> consistent (with_creating w c).
Proof. done. Qed.

Lemma consistent_cookieFile (w : World) (b : bool) :
  consistent w -> consistent (with_cookieFile w b).
Proof. done. Qed.

(** The records after each stretch of code: every write goes to a field
    other than the id, and no call of updateJob carries an id. *)
Ltac consistent_after :=
  repeat match goal with
         | H : consistent ?w |- consistent ?w => exact H
         | |- consistent (set_field _ _ _ _) => apply consistent_set_field; [done|]
         | |- consistent (persist _ _ _) => apply consistent_persist; [no_id|]
         | |- consistent (with_session _ _) => apply consistent_session
         | |- consistent (with_runs _ _) => apply consistent_runs
         | |- consistent (with_contexts _ _) => apply consistent_contexts
         | |- consistent (with_creating _ _) => apply consistent_creating
         | |- consistent (with_cookieFile _ _) => apply consistent_cookieFile
         | |- consistent (set_isScraping _ _) => unfold set_isScraping at 1
         | |- consistent (set_isPaused _ _) => unfold set_isPaused at 1
         | |- consistent (set_pauseRequested _ _) => unfold set_pauseRequested at 1
         | |- consistent (set_currentJobId _ _) => unfold set_currentJobId at 1
         | |- consistent (set_run _ _ _) => unfold set_run at 1
         | |- consistent (wait _ _ _ _) => unfold wait at 1
         | |- consistent (close_context ?c _) => unfold close_context at 1; destruct c
         | |- consistent (loop_top _ _ _) => unfold loop_top at 1
         | |- consistent (before_scroll _ _ _) => unfold before_scroll at 1
         | |- consistent (pause_now _ _ _ _) => unfold pause_now at 1; cbv zeta
         | |- consistent (completed_now _ _ _) => unfold completed_now at 1; cbv zeta
         | |- consistent (page_error _ _ _) => unfold page_error at 1
         | |- consistent (caught_now _ _ _) => unfold caught_now at 1; cbv zeta
         | |- consistent (rejected ?o _) => unfold rejected at 1; cbv zeta; destruct o
         | |- consistent (runScrape _ _) => unfold runScrape at 1; cbv zeta
         | |- consistent (pause_current _) => unfold pause_current at 1
         | |- consistent (fst (_, _)) => cbn [fst]
         | |- consistent (fst (if ?b then _ else _)) => destruct b
         | |- consistent (fst (match ?x with Some _ => _ | None => _ end)) => destruct x
         | |- consistent (if ?b then _ else _) => destruct b
         | |- consistent (match ?x with Some _ => _ | None => _ end) => destruct x
         | |- consistent (match ?x with O => _ | S _ => _ end) => destruct x
         | |- consistent (let _ := _ in _) => cbv zeta
         end.

Lemma consistent_resume (i : nat) (a : Answer) (w : World) :
  consistent w -> consistent (resume i a w).
Proof.
  intros Hw. unfold resume. destruct (runs w !! i) as [r|]; [|done].
  destruct (run_at r) as [| | | | | | | |nav|next|];
    destruct a as [ok|co sh|li|rows|pr| | |nav' url| |ok]; try done.
  all: try (destruct ok); try (destruct li as [[|]|]); try (destruct pr);
       try (destruct nav'); try (destruct nav); try (destruct next as [[|]| | | |]); try done.
  all: consistent_after.
Qed.

Lemma consistent_handle (w : World) (e : Event) : consistent w -> consistent (handle w e).
Proof.
  intros Hw. destruct e as [url listName timestamp|n| | |id|id|id| | |i a]; cbn [handle].
  - unfold post_scrape. destruct url as [| | | | |url]; try assumption.
    destruct listName as [| | | | |listName]; try assumption.
    destruct (String.eqb url ""); [assumption|].
    destruct (_ || _); [assumption|]. destruct (_ || _); [assumption|].
    destruct (negb (cookieFile w)); [assumption|].
    assert (Hp : consistent (pause_current w)) by consistent_after.
    set (w1 := pause_current w) in *.
    set (jobId := slug listName +:+ "_" +:+ timestamp).
    rewrite (surjective_pairing (new_object (heap (store w1)))). cbn [fst].
    apply consistent_creating.
    apply consistent_new_job; [exact Hp| |apply job_id_not_empty].
    unfold get. by rewrite lookup_insert_eq.
  - unfold post_scrape_continues.
    destruct (creating w !! n) as [[jobId job [|]]|]; try assumption.
    assert (Hs : consistent
                   (with_store (with_creating w (<[n := mkCreating jobId job true]> (creating w)))
                      (setJob job (store w)).1)).
    { apply (consistent_same (with_store w (setJob job (store w)).1)); [reflexivity..|].
      by apply consistent_setJob. }
    consistent_after.
  - unfold post_stop. consistent_after.
  - unfold post_resume. consistent_after.
  - unfold post_job_run. consistent_after.
  - unfold post_job_stop. consistent_after.
  - unfold delete_job. destruct (getJob (store w) id); [|assumption].
    destruct (_ && _); [assumption|]. by apply consistent_deleteJobFile.
  - assumption.
  - assumption.
  - by apply consistent_resume.
Qed.

(** X20.  Whatever requests arrive and whatever the runs are answered:
    the cache of jobsManager and the alias of the routes hold every job
    record under its own id, which is truthy, and every job file is
    named after the id of the record it holds, provided this was so
    before.  It is so on a server without jobs and after the start-up
    over a directory whose files are named after their records. *)
Theorem jobs_are_held_under_their_ids (w : World) (events : list Event) :
  consistent w -> consistent (exec w events).
Proof.
  revert w. induction events as [|e events IH]; intros w Hw; [done|].
  cbn [exec foldl]. apply IH. by apply consistent_handle.
Qed.


Lemma consistent_boot : consistent boot.
Proof.
  assert (Hk : keyed (heap (store boot)) (jobsCache (store boot))).
  { intros k job H.
    change (read_map (heap (store boot)) (jobsCache (store boot))) with (∅ : gmap string loc) in H.
    by rewrite lookup_empty in H. }
  split; [exact Hk|]. split; [exact Hk|]. apply JobsStartupFacts.well_named_start.
Qed.

(** After the start-up over a directory whose files are named after the
    ids of their records. *)
Lemma consistent_after_start (directory : gmap string Obj) (files : list string) :
  (forall file record, directory !! file = Some record ->
     truthy (get record "id") = true ∧ file = file_name (get record "id")) ->
  consistent (jobs_loaded files (routes_loaded directory)).
Proof.
  intros Hdir. set (w0 := routes_loaded directory).
  assert (Hnamed : well_named (store w0)) by exact Hdir.
  destruct (JobsStartupFacts.loadJobs_loaded files (store w0) Hnamed) as (Hl & Hd & Hc & Hframe).
  unfold consistent, jobs_loaded. cbn [store with_store jobs].
  set (s' := loadJobs files (store w0)) in *.
  assert (Hn' : well_named s').
  { intros file record. rewrite Hd. apply Hnamed. }
  split; [|split; [|exact Hn']].
  - intros k job Hjob. specialize (Hl k). rewrite Hjob in Hl. destruct Hl as (_ & _ & Hfile).
    destruct (Hn' _ _ Hfile) as [Ht Hname]. split; [exact Ht|].
    unfold file_name in Hname. symmetry. by eapply JobsStartupFacts.append_inj_l.
  - intros k job Hjob. exfalso. unfold read_map in Hjob. rewrite Hframe in Hjob.
    + change (default ∅ (maps (heap (store w0)) !! jobs w0)) with (∅ : gmap string loc) in Hjob.
      by rewrite lookup_empty in Hjob.
    + rewrite Hc. apply JobsStartupFacts.fresh_map.
      change (maps (heap (store w0)) !! jobs w0) with (Some (∅ : gmap string loc)). eauto.
Qed.

Lemma jobs_are_held_under_their_ids_witness :
  consistent restarted ∧ consistent (exec restarted (new_job 0 "B" "t2")).
Proof.
  assert (H : consistent restarted).
  { apply consistent_after_start. intros file record Hfile.
    apply lookup_singleton_Some in Hfile as [<- <-]. by vm_compute. }
  split; [exact H|]. exact (jobs_are_held_under_their_ids restarted (new_job 0 "B" "t2") H).
Defined.

End JobIdsFacts.

(* ===================================================================== *)
(** ** routes/scrapeRoutes.js, the request for a new job: properties *)
(* ===================================================================== *)

Module ScrapeRequestFacts.
Import JS ScrapeRequest ScrapeRunFacts.










End ScrapeRequestFacts.

(* ===================================================================== *)
(** ** utils/fileHandler.js and routes/cookieRoutes.js: properties *)
(* ===================================================================== *)

Module CookieRoutesFacts.
Import JS Thrown CookieRoutes.

Section Json.

Variable Json : Type.
Variable JSON_parse : string -> Res Json.
Variable isArray : Json -> bool.
Variable JSON_stringify : Json -> string.

Local Abbreviation save := (post_save_cookie Json JSON_parse isArray JSON_stringify).
Local Abbreviation accepted := (cookie_of Json JSON_parse isArray).

Lemma saveCookieFile_spec (cookieText : string) (st : Store) :
  cookieText <> "" ->
  let saved := saveCookieFile Json JSON_parse isArray JSON_stringify cookieText st in
  cookiesDir saved.1 = true
  ∧ match accepted (VStr cookieText) with
    | Some parsed =>
        cookieFile saved.1 = Some (JSON_stringify parsed) ∧ saved.2 = Ok filePath
    | None =>
        cookieFile saved.1 = cookieFile st
        ∧ exists reason, saved.2 = Throw (Error ("Invalid cookie JSON: " +:+ reason))
    end.
Proof.
  intros Hne. cbn zeta. unfold saveCookieFile, cookie_of.
  assert (String.eqb cookieText "" = false) as -> by by apply String.eqb_neq.
  assert (Hdir : cookiesDir (ensureDir st) = true).
  { unfold ensureDir. by destruct (cookiesDir st) eqn:Hd. }
  assert (Hfile : cookieFile (ensureDir st) = cookieFile st).
  { unfold ensureDir. by destruct (cookiesDir st). }
  destruct (JSON_parse cookieText) as [parsed|err]; cbn [bind].
  - destruct (isArray parsed); cbn [negb fst snd cookiesDir cookieFile].
    + by rewrite Hdir.
    + split; [exact Hdir|]. split; [exact Hfile|]. by eexists.
  - cbn [fst snd]. split; [exact Hdir|]. split; [exact Hfile|]. by eexists.
Qed.

Lemma post_save_cookie_file (cookie : Val) (st : Store) :
  cookieFile (save cookie st).1
  = file_after Json JSON_parse isArray JSON_stringify (cookieFile st) (SaveCookie cookie).
Proof.
  unfold file_after. destruct cookie as [| | | | |cookieText]; try done.
  destruct cookieText as [|c cookieText]; [done|].
  pose proof (saveCookieFile_spec (String c cookieText) st) as Hsave.
  unfold post_save_cookie. change (String.eqb (String c cookieText) "") with false. cbv iota.
  destruct (saveCookieFile _ _ _ _ _ st) as [st' result].
  cbn zeta in Hsave. cbn [fst snd] in Hsave. destruct Hsave as [_ Hsave]; [done|].
  destruct (accepted (VStr (String c cookieText))) as [parsed|].
  - by destruct Hsave as [Hfile ->].
  - by destruct Hsave as [Hfile [reason ->]].
Qed.

(** X22.  POST /api/save-cookie answers 200 exactly when the cookie of
    the body is a text that is not empty and that parses to an array;
    the file is then the parsed array written out again, and the cookie
    status reports a cookie.  Any other request leaves the file as it
    was: a body without a text answers 400 and changes nothing, a text
    that is no array answers 500 with a message that starts with
    Invalid cookie JSON, after the directory was made. *)
Theorem post_save_cookie_contract (cookie : Val) (st : Store) :
  let after := (save cookie st).1 in
  let response := (save cookie st).2 in
  cookieFile after = file_after Json JSON_parse isArray JSON_stringify (cookieFile st)
                       (SaveCookie cookie)
  ∧ match accepted cookie with
    | Some parsed =>
        status response = 200 ∧ cookieFile after = Some (JSON_stringify parsed)
        ∧ get_cookie_status after = true
    | None =>
        get_cookie_status after = get_cookie_status st
        ∧ match cookie with
          | VStr (String _ _) =>
              status response = 500 ∧ cookiesDir after = true
              ∧ exists reason, text response = "Invalid cookie JSON: " +:+ reason
          | _ => status response = 400 ∧ after = st
          end
    end.
Proof.
  cbn zeta. split; [apply post_save_cookie_file|].
  destruct cookie as [| | | | |cookieText]; try done.
  destruct cookieText as [|c cookieText]; [done|].
  pose proof (saveCookieFile_spec (String c cookieText) st) as Hsave.
  unfold post_save_cookie.
  change (String.eqb (String c cookieText) "") with false. cbv iota.
  destruct (saveCookieFile _ _ _ _ _ st) as [st' result].
  cbn zeta in Hsave. cbn [fst snd] in Hsave.
  destruct Hsave as [Hdir Hsave]; [done|].
  destruct (accepted (VStr (String c cookieText))) as [parsed|].
  - destruct Hsave as [Hfile ->]. cbn [fst snd status].
    split; [done|]. split; [exact Hfile|].
    unfold get_cookie_status, getCookieFilePath. by rewrite Hfile.
  - destruct Hsave as [Hfile [reason ->]]. cbn [fst snd status text err_message Error].
    split.
    + unfold get_cookie_status, getCookieFilePath. by rewrite Hfile.
    + split; [done|]. split; [exact Hdir|]. exists reason.
      by change (String.eqb ("Invalid cookie JSON: " +:+ reason) "") with false.
Qed.

(** X23.  The cookie file after any sequence of requests is the one of
    the last request that changed it: the array of the last accepted
    save, written out, when no delete followed it; nothing when a
    delete came last; the file from before when no request changed it.
    GET /api/cookie-status reports a cookie exactly when there is such
    a file. *)
Theorem cookie_file_after_requests (requests : list Request) (st : Store) :
  let after := foldl (serve Json JSON_parse isArray JSON_stringify) st requests in
  cookieFile after
  = foldl (file_after Json JSON_parse isArray JSON_stringify) (cookieFile st) requests
  ∧ get_cookie_status after = bool_decide (is_Some (cookieFile after)).
Proof.
  cbn zeta. revert st. induction requests as [|r requests IH]; intros st.
  - cbn [foldl]. split; [done|]. unfold get_cookie_status, getCookieFilePath.
    destruct (cookieFile st); [by rewrite bool_decide_eq_true_2|].
    rewrite bool_decide_eq_false_2; [done|]. by intros [? ?].
  - cbn [foldl]. destruct (IH (serve Json JSON_parse isArray JSON_stringify st r)) as [-> ->].
    split; [|done]. f_equal. destruct r as [cookie|].
    + apply post_save_cookie_file.
    + cbn [serve delete_cookie fst file_after]. unfold deleteCookieFile.
      by destruct (cookieFile st) eqn:Hfile.
Qed.

End Json.

End CookieRoutesFacts.
